(** * catan/game.py: the Game orchestrator and the Player value type

    A shallow embedding of [src/catan/game.py].  Python objects live in an
    explicit heap (a list of cells addressed by position), so that
    reference identity, aliasing and deep copies are visible; methods of
    [Game] are state-passing functions over a world made of that heap and
    of a trace of the calls that leave the Game (observer notifications and
    log-sink calls).  Python exceptions are values of [exn]; a method that
    raises keeps the mutations it made before raising, as in Python. *)

From Stdlib Require Import ZArith String Ascii Bool List Lia.
From Stdlib Require Import DecimalString.
From stdpp Require Import base list.
Import ListNotations.

Local Open Scope Z_scope.

(** ** Python strings (ASCII text) *)

Module PyStr.

(** [c.lower()] for one character: 'A'..'Z' move to 'a'..'z'. *)
Definition lower_char (c : ascii) : ascii :=
  let n := N_of_ascii c in
  if ((65 <=? n) && (n <=? 90))%N then ascii_of_N (n + 32) else c.

(** [s.lower()] *)
Fixpoint lower (s : string) : string :=
  match s with
  | EmptyString => EmptyString
  | String c s' => String (lower_char c) (lower s')
  end.

(** [s.replace(' ', '')] *)
Fixpoint remove_spaces (s : string) : string :=
  match s with
  | EmptyString => EmptyString
  | String c s' =>
      if Ascii.eqb c " "%char then remove_spaces s'
      else String c (remove_spaces s')
  end.

(** [sub in s] for strings. *)
Fixpoint contains (sub s : string) : bool :=
  String.prefix sub s ||
  match s with
  | EmptyString => false
  | String _ s' => contains sub s'
  end.

(** [bytes(s, encoding='utf8')]: ASCII text encodes to its own codes. *)
Fixpoint utf8 (s : string) : list Z :=
  match s with
  | EmptyString => []
  | String c s' => Z.of_N (N_of_ascii c) :: utf8 s'
  end.

(** [sum(bs)] *)
Definition sum (bs : list Z) : Z := fold_right Z.add 0 bs.

Definition is_upper (c : ascii) : bool :=
  let n := N_of_ascii c in ((65 <=? n) && (n <=? 90))%N.

(** [c] occurs in [s]. *)
Fixpoint occurs (c : ascii) (s : string) : Prop :=
  match s with
  | EmptyString => False
  | String d s' => c = d \/ occurs c s'
  end.

End PyStr.

(** ** Exceptions and results *)

Inductive exn : Type :=
| PyException (msg : string)   (* raise Exception(msg) *)
| IndexError                   (* list index out of range *)
| IllegalPlacement             (* raised by Board.place_piece *)
| NothingToUndo
| NothingToRedo
| AttributeError.              (* attribute access on None or on an object of another class *)

Inductive res (A : Type) : Type :=
| Ok (a : A)
| Err (e : exn).
Arguments Ok {A} a.
Arguments Err {A} e.

(** ** class Player *)

Record Player : Type := mkPlayer {
  seat : Z;
  name : string;
  color : string
}.

(** What a Python caller may pass where a Player is expected. *)
Inductive pyval : Type :=
| PyNone
| PyPlayer (p : Player)
| PyOther.                     (* an instance of any other class *)

(** The text [name.lower().replace(' ', '')]. *)
Definition normalize (s : string) : string :=
  PyStr.remove_spaces (PyStr.lower s).

(** The exception of line 603; the design names this failure InvalidPlayer. *)
Definition InvalidPlayer : exn := PyException "Seat must be on [1,4]".

(** [Player.__init__] *)
Definition Player_init (seat : Z) (name color : string) : res Player :=
  if negb ((1 <=? seat) && (seat <=? 4)) then Err InvalidPlayer
  else Ok {| seat := seat; name := normalize name; color := normalize color |}.

(** [Player.__eq__] *)
Definition Player_eq (self : Player) (other : pyval) : bool :=
  match other with
  | PyNone => false
  | PyOther => false
  | PyPlayer o =>
      String.eqb (color self) (color o)
      && String.eqb (name self) (name o)
      && Z.eqb (seat self) (seat o)
  end.

(** [Player.__repr__]: ['{} ({})'.format(self.color, self.name)] *)
Definition Player_repr (self : Player) : string :=
  color self ++ " (" ++ name self ++ ")".

(** [Player.__hash__]: [sum(bytes(str(self), encoding='utf8'))] *)
Definition Player_hash (self : Player) : Z :=
  PyStr.sum (PyStr.utf8 (Player_repr self)).

(** A Player object as [__init__] can have built it. *)
Definition valid_player (p : Player) : Prop :=
  1 <= seat p <= 4 /\ normalize (name p) = name p /\ normalize (color p) = color p.

(** [Player(1, 'nobody', 'nobody')] *)
Definition nobody : Player := {| seat := 1; name := "nobody"; color := "nobody" |}.

(** ** Pieces, board, states: the data of the classes [game.py] imports *)

(** [catan.pieces.PieceType] *)
Module PieceType.
Inductive t : Type := settlement | city | road | robber.

Definition eqb (a b : t) : bool :=
  match a, b with
  | settlement, settlement | city, city | road, road | robber, robber => true
  | _, _ => false
  end.
End PieceType.

(** [catan.pieces.Piece(type, owner)]; the robber has owner [None]. *)
Record Piece : Type := mkPiece {
  ptype : PieceType.t;
  owner : option Player
}.

(** [hexgrid.TILE], [hexgrid.NODE], [hexgrid.EDGE] *)
Inductive coord_kind : Type := TILE | NODE | EDGE.

(** [catan.board.Terrain], as listed by [evaluate_final]. *)
Module Terrain.
Inductive t : Type := desert | wheat | ore | sheep | brick | wood.
End Terrain.

Record Tile : Type := mkTile {
  tile_id : Z;
  terrain : Terrain.t;
  number : Z
}.

Record Port : Type := mkPort {
  port_tile : Z;
  port_direction : string;
  port_type : string
}.

Definition coord_key : Type := (coord_kind * Z)%type.

(** Modelled from the spec: class [catan.board.Board] (catan/board.py is not
    among the sources).  An ordered collection of tiles, the ports, a
    mapping from (coordinate kind, coordinate) to the piece occupying it
    (a Python dict: unique keys, insertion order) and a lock flag;
    [opts_debug] is the test [board.opts.get('players') == Opt.debug] that
    [Game.start] makes. *)
Record Board : Type := mkBoard {
  tiles : list Tile;
  ports : list Port;
  pieces : list (coord_key * Piece);
  locked : bool;
  opts_debug : bool
}.

(** The state classes [game.py] instantiates from [catan.states]. *)
Inductive GameState : Type :=
| GameStateNotInGame
| GameStatePreGamePlacingPiece (piece_type : PieceType.t)
| GameStateBeginTurn
| GameStateMoveRobber
| GameStateMoveRobberUsingKnight
| GameStateDuringTurnAfterRoll
| GameStatePlacingPiece (piece_type : PieceType.t).

Inductive DevCardState : Type :=
| DevCardNotPlayedState
| DevCardPlayedState.

(** Modelled from the spec: [GameState.is_in_game] (catan/states.py is not
    among the sources): every variant except NotInGame is in game. *)
Definition is_in_game (s : GameState) : bool :=
  match s with
  | GameStateNotInGame => false
  | _ => true
  end.

(** Modelled from the spec: [GameState.is_in_pregame] (catan/states.py is
    not among the sources): the pregame draft step. *)
Definition is_in_pregame (s : GameState) : bool :=
  match s with
  | GameStatePreGamePlacingPiece _ => true
  | _ => false
  end.

(** ** The heap of Python objects *)

(** A reference is the position of the object in the heap. *)
Abbreviation loc := nat (only parsing).

(** An observer object, by identity. *)
Abbreviation observer := nat (only parsing).

(** [catanlog.CatanLog(use_stdout)] or [catanlog.NoopCatanLog()] *)
Inductive LogSink : Type :=
| CatanLog (use_stdout : bool)
| NoopCatanLog.

(** Modelled from the spec: a command of the undo/redo engine (the undoredo
    package is not among the sources) pairs the snapshot taken before the
    action with the one taken after it; [cmd_obj] is the live Game. *)
Record Command : Type := mkCommand {
  cmd_obj : loc;
  cmd_before : loc;
  cmd_after : loc
}.

(** Modelled from the spec: [undoredo.UndoManager], an undo history and a
    redo history, most recent command first. *)
Record UndoManager : Type := mkUndoManager {
  undo_stack : list Command;
  redo_stack : list Command
}.

Definition Resources : Type := list (Player * list (list string)).

(** The attributes of a Game, in the order [__init__] creates them.
    Attributes that hold mutable objects are references into the heap;
    Players, integers and None are immutable and held by value. *)
Record Game : Type := mkGame {
  observers : loc;
  undo_manager : loc;
  options : loc;
  players : loc;
  board : loc;
  robber : loc;
  catanlog : loc;
  state : option loc;
  dev_card_state : option loc;
  _cur_player : option Player;
  last_roll : option Z;
  last_player_to_roll : option Player;
  _cur_turn : Z;
  robber_tile : option Z;
  terrain_to_tiles : loc;
  player_to_resources : loc
}.

Inductive obj : Type :=
| OGame (g : Game)
| OSet (members : list observer)          (* Game.observers *)
| OManager (m : UndoManager)
| OOptions (pregame : option string)      (* the dict {'pregame': pregame} *)
| OList (ps : list Player)                (* Game.players *)
| OBoard (b : Board)
| OPiece (p : Piece)
| OLog (sink : LogSink)
| OState (s : GameState) (game : loc)     (* a GameState with its back-reference *)
| ODevCard (s : DevCardState)
| OTerrain (d : list (string * list Z))   (* Game.terrain_to_tiles *)
| OResources (r : Resources).             (* Game.player_to_resources *)

(** Calls on the log sink [self.catanlog]. *)
Inductive log_call : Type :=
| log_game_start (ps : list Player) (terrain : list Terrain.t) (numbers : list Z) (ports : list Port)
| log_roll (p : Player) (roll : Z)
| log_wins (p : Player)
| log_ends_turn (p : Player)
| log_buys_road (p : Player) (location : string)
| log_buys_settlement (p : Player) (location : string).

(** What leaves the Game: [obs.notify(game)] and log-sink calls. *)
Inductive event : Type :=
| Notified (o : observer) (game : loc)
| Logged (c : log_call).

Record World : Type := mkWorld {
  heap : list obj;
  trace : list event
}.

(** ** The monad of methods: state passing with exceptions *)

Definition M (A : Type) : Type := World -> res A * World.

Definition ret {A} (a : A) : M A := fun w => (Ok a, w).

Definition raise {A} (e : exn) : M A := fun w => (Err e, w).

Definition bind {A B} (m : M A) (k : A -> M B) : M B :=
  fun w =>
    match m w with
    | (Ok a, w') => k a w'
    | (Err e, w') => (Err e, w')
    end.

Notation "x <- m ;; k" := (bind m (fun x => k))
  (at level 100, m at next level, right associativity).
Notation "m ;;; k" := (bind m (fun _ => k))
  (at level 100, right associativity).

(** A pure computation that may raise. *)
Definition lift {A} (r : res A) : M A :=
  fun w => (r, w).

Definition load (l : loc) : M obj :=
  fun w =>
    match heap w !! l with
    | Some o => (Ok o, w)
    | None => (Err AttributeError, w)
    end.

Definition store (l : loc) (o : obj) : M unit :=
  fun w => (Ok tt, {| heap := <[l := o]> (heap w); trace := trace w |}).

(** A new object: its reference is fresh. *)
Definition alloc (o : obj) : M loc :=
  fun w => (Ok (length (heap w)), {| heap := heap w ++ [o]; trace := trace w |}).

Definition emit (es : list event) : M unit :=
  fun w => (Ok tt, {| heap := heap w; trace := trace w ++ es |}).

(** [for _ in range(n): m] *)
Fixpoint times (n : nat) (m : M unit) : M unit :=
  match n with
  | O => ret tt
  | S n' => m ;;; times n' m
  end.

Definition get_game (l : loc) : M Game :=
  o <- load l ;;
  match o with OGame g => ret g | _ => raise AttributeError end.

Definition get_set (l : loc) : M (list observer) :=
  o <- load l ;;
  match o with OSet ms => ret ms | _ => raise AttributeError end.

Definition get_manager (l : loc) : M UndoManager :=
  o <- load l ;;
  match o with OManager m => ret m | _ => raise AttributeError end.

Definition get_board (l : loc) : M Board :=
  o <- load l ;;
  match o with OBoard b => ret b | _ => raise AttributeError end.

Definition get_list (l : loc) : M (list Player) :=
  o <- load l ;;
  match o with OList ps => ret ps | _ => raise AttributeError end.

Definition get_options (l : loc) : M (option string) :=
  o <- load l ;;
  match o with OOptions v => ret v | _ => raise AttributeError end.

(** The state object a Game holds, as (variant, back-reference). *)
Definition get_state (r : option loc) : M (GameState * loc) :=
  match r with
  | None => raise AttributeError
  | Some l =>
      o <- load l ;;
      match o with OState s g => ret (s, g) | _ => raise AttributeError end
  end.

(** Attribute assignment [self.x = v], as an update of the Game cell. *)
Definition setattr (self : loc) (upd : Game -> Game) : M unit :=
  g <- get_game self ;;
  store self (OGame (upd g)).

(** ** Attribute updates of a Game: [self.x = v] *)

Definition with_observers (v : loc) (g : Game) : Game :=
  {| observers := v;
     undo_manager := undo_manager g;
     options := options g;
     players := players g;
     board := board g;
     robber := robber g;
     catanlog := catanlog g;
     state := state g;
     dev_card_state := dev_card_state g;
     _cur_player := _cur_player g;
     last_roll := last_roll g;
     last_player_to_roll := last_player_to_roll g;
     _cur_turn := _cur_turn g;
     robber_tile := robber_tile g;
     terrain_to_tiles := terrain_to_tiles g;
     player_to_resources := player_to_resources g |}.

Definition with_options (v : loc) (g : Game) : Game :=
  {| observers := observers g;
     undo_manager := undo_manager g;
     options := v;
     players := players g;
     board := board g;
     robber := robber g;
     catanlog := catanlog g;
     state := state g;
     dev_card_state := dev_card_state g;
     _cur_player := _cur_player g;
     last_roll := last_roll g;
     last_player_to_roll := last_player_to_roll g;
     _cur_turn := _cur_turn g;
     robber_tile := robber_tile g;
     terrain_to_tiles := terrain_to_tiles g;
     player_to_resources := player_to_resources g |}.

Definition with_players (v : loc) (g : Game) : Game :=
  {| observers := observers g;
     undo_manager := undo_manager g;
     options := options g;
     players := v;
     board := board g;
     robber := robber g;
     catanlog := catanlog g;
     state := state g;
     dev_card_state := dev_card_state g;
     _cur_player := _cur_player g;
     last_roll := last_roll g;
     last_player_to_roll := last_player_to_roll g;
     _cur_turn := _cur_turn g;
     robber_tile := robber_tile g;
     terrain_to_tiles := terrain_to_tiles g;
     player_to_resources := player_to_resources g |}.

Definition with_robber (v : loc) (g : Game) : Game :=
  {| observers := observers g;
     undo_manager := undo_manager g;
     options := options g;
     players := players g;
     board := board g;
     robber := v;
     catanlog := catanlog g;
     state := state g;
     dev_card_state := dev_card_state g;
     _cur_player := _cur_player g;
     last_roll := last_roll g;
     last_player_to_roll := last_player_to_roll g;
     _cur_turn := _cur_turn g;
     robber_tile := robber_tile g;
     terrain_to_tiles := terrain_to_tiles g;
     player_to_resources := player_to_resources g |}.

Definition with_catanlog (v : loc) (g : Game) : Game :=
  {| observers := observers g;
     undo_manager := undo_manager g;
     options := options g;
     players := players g;
     board := board g;
     robber := robber g;
     catanlog := v;
     state := state g;
     dev_card_state := dev_card_state g;
     _cur_player := _cur_player g;
     last_roll := last_roll g;
     last_player_to_roll := last_player_to_roll g;
     _cur_turn := _cur_turn g;
     robber_tile := robber_tile g;
     terrain_to_tiles := terrain_to_tiles g;
     player_to_resources := player_to_resources g |}.

Definition with_state (v : option loc) (g : Game) : Game :=
  {| observers := observers g;
     undo_manager := undo_manager g;
     options := options g;
     players := players g;
     board := board g;
     robber := robber g;
     catanlog := catanlog g;
     state := v;
     dev_card_state := dev_card_state g;
     _cur_player := _cur_player g;
     last_roll := last_roll g;
     last_player_to_roll := last_player_to_roll g;
     _cur_turn := _cur_turn g;
     robber_tile := robber_tile g;
     terrain_to_tiles := terrain_to_tiles g;
     player_to_resources := player_to_resources g |}.

Definition with_dev_card_state (v : option loc) (g : Game) : Game :=
  {| observers := observers g;
     undo_manager := undo_manager g;
     options := options g;
     players := players g;
     board := board g;
     robber := robber g;
     catanlog := catanlog g;
     state := state g;
     dev_card_state := v;
     _cur_player := _cur_player g;
     last_roll := last_roll g;
     last_player_to_roll := last_player_to_roll g;
     _cur_turn := _cur_turn g;
     robber_tile := robber_tile g;
     terrain_to_tiles := terrain_to_tiles g;
     player_to_resources := player_to_resources g |}.

Definition with_cur_player (v : option Player) (g : Game) : Game :=
  {| observers := observers g;
     undo_manager := undo_manager g;
     options := options g;
     players := players g;
     board := board g;
     robber := robber g;
     catanlog := catanlog g;
     state := state g;
     dev_card_state := dev_card_state g;
     _cur_player := v;
     last_roll := last_roll g;
     last_player_to_roll := last_player_to_roll g;
     _cur_turn := _cur_turn g;
     robber_tile := robber_tile g;
     terrain_to_tiles := terrain_to_tiles g;
     player_to_resources := player_to_resources g |}.

Definition with_last_roll (v : option Z) (g : Game) : Game :=
  {| observers := observers g;
     undo_manager := undo_manager g;
     options := options g;
     players := players g;
     board := board g;
     robber := robber g;
     catanlog := catanlog g;
     state := state g;
     dev_card_state := dev_card_state g;
     _cur_player := _cur_player g;
     last_roll := v;
     last_player_to_roll := last_player_to_roll g;
     _cur_turn := _cur_turn g;
     robber_tile := robber_tile g;
     terrain_to_tiles := terrain_to_tiles g;
     player_to_resources := player_to_resources g |}.

Definition with_last_player_to_roll (v : option Player) (g : Game) : Game :=
  {| observers := observers g;
     undo_manager := undo_manager g;
     options := options g;
     players := players g;
     board := board g;
     robber := robber g;
     catanlog := catanlog g;
     state := state g;
     dev_card_state := dev_card_state g;
     _cur_player := _cur_player g;
     last_roll := last_roll g;
     last_player_to_roll := v;
     _cur_turn := _cur_turn g;
     robber_tile := robber_tile g;
     terrain_to_tiles := terrain_to_tiles g;
     player_to_resources := player_to_resources g |}.

Definition with_cur_turn (v : Z) (g : Game) : Game :=
  {| observers := observers g;
     undo_manager := undo_manager g;
     options := options g;
     players := players g;
     board := board g;
     robber := robber g;
     catanlog := catanlog g;
     state := state g;
     dev_card_state := dev_card_state g;
     _cur_player := _cur_player g;
     last_roll := last_roll g;
     last_player_to_roll := last_player_to_roll g;
     _cur_turn := v;
     robber_tile := robber_tile g;
     terrain_to_tiles := terrain_to_tiles g;
     player_to_resources := player_to_resources g |}.

Definition with_robber_tile (v : option Z) (g : Game) : Game :=
  {| observers := observers g;
     undo_manager := undo_manager g;
     options := options g;
     players := players g;
     board := board g;
     robber := robber g;
     catanlog := catanlog g;
     state := state g;
     dev_card_state := dev_card_state g;
     _cur_player := _cur_player g;
     last_roll := last_roll g;
     last_player_to_roll := last_player_to_roll g;
     _cur_turn := _cur_turn g;
     robber_tile := v;
     terrain_to_tiles := terrain_to_tiles g;
     player_to_resources := player_to_resources g |}.

Definition with_player_to_resources (v : loc) (g : Game) : Game :=
  {| observers := observers g;
     undo_manager := undo_manager g;
     options := options g;
     players := players g;
     board := board g;
     robber := robber g;
     catanlog := catanlog g;
     state := state g;
     dev_card_state := dev_card_state g;
     _cur_player := _cur_player g;
     last_roll := last_roll g;
     last_player_to_roll := last_player_to_roll g;
     _cur_turn := _cur_turn g;
     robber_tile := robber_tile g;
     terrain_to_tiles := terrain_to_tiles g;
     player_to_resources := v |}.

(** ** What [game.py] consumes from modules that are not among the sources *)

(** The Board methods [game.py] calls. *)
Inductive board_op : Type := op_lock | op_unlock | op_place_piece | op_restore.

(** The functions of hexgrid, catan.states, catan.board and random that the
    Game calls, taken as parameters.  The state queries read the Game
    through the state's back-reference, so they receive the heap and that
    reference; the random choices are oracle functions. *)
Record Externals : Type := mkExternals {
  (* hexgrid *)
  nodes_touching_tile : Z -> list Z;
  tile_id_from_coord : Z -> Z;
  location : coord_kind -> Z -> string;
  (* catan.states: GameState.next_player, can_end_game, place_settlement, place_road *)
  next_player : list obj -> loc -> GameState -> Player;
  can_end_game : list obj -> loc -> GameState -> bool;
  state_place_settlement : loc -> Z -> M unit;
  state_place_road : loc -> Z -> M unit;
  (* catan.board: the lock-state and coordinate-kind conditions of
     place_piece, and how many times each Board method calls back
     [Game.notify] (the Game registers itself among the board's observers
     in [__init__]) *)
  placement_allowed : Board -> Piece -> Z -> bool;
  board_callbacks : board_op -> nat;
  (* the tally of [Game.evaluate_final] (lines 241-282) and the choices of
     [get_random_assignment] and [get_best_assignment] (lines 550-582) *)
  tally_resources : Board -> Resources;
  get_random_assignment : list (coord_key * Piece) -> Z * Z;
  get_best_assignment : list obj -> loc -> Z * Z
}.

(** ** Board (modelled from the spec) *)

Definition coord_kind_eqb (a b : coord_kind) : bool :=
  match a, b with
  | TILE, TILE | NODE, NODE | EDGE, EDGE => true
  | _, _ => false
  end.

Definition coord_key_eqb (a b : coord_key) : bool :=
  coord_kind_eqb (fst a) (fst b) && Z.eqb (snd a) (snd b).

(** The coordinate kind a piece type is placed on. *)
Definition coord_kind_of (t : PieceType.t) : coord_kind :=
  match t with
  | PieceType.settlement | PieceType.city => NODE
  | PieceType.road => EDGE
  | PieceType.robber => TILE
  end.

Definition with_locked (v : bool) (b : Board) : Board :=
  {| tiles := tiles b; ports := ports b; pieces := pieces b;
     locked := v; opts_debug := opts_debug b |}.

Definition with_pieces (v : list (coord_key * Piece)) (b : Board) : Board :=
  {| tiles := tiles b; ports := ports b; pieces := v;
     locked := locked b; opts_debug := opts_debug b |}.

(** [key in d] *)
Definition dict_mem (k : coord_key) (d : list (coord_key * Piece)) : bool :=
  existsb (fun e => coord_key_eqb (fst e) k) d.

(** [d[key] = v] on an insertion-ordered dict. *)
Fixpoint dict_set (k : coord_key) (v : Piece) (d : list (coord_key * Piece))
  : list (coord_key * Piece) :=
  match d with
  | [] => [(k, v)]
  | e :: d' => if coord_key_eqb (fst e) k then (k, v) :: d' else e :: dict_set k v d'
  end.

(** Modelled from the spec: [Board.get_pieces(types, coord)] (catan/board.py
    is not among the sources): the pieces at [coord] whose kind is in
    [types]; zero or one on a board that keeps one piece per slot. *)
Definition Board_get_pieces (b : Board) (types : list PieceType.t) (coord : Z) : list Piece :=
  map snd
    (List.filter (fun e : coord_key * Piece =>
               existsb (fun t => PieceType.eqb t (ptype (snd e))
                                 && coord_key_eqb (fst e) (coord_kind_of t, coord)) types)
            (pieces b)).

(** Modelled from the spec: [Board.place_piece(piece, coord)] (catan/board.py
    is not among the sources): records the piece at the slot of its kind;
    fails with IllegalPlacement if the slot is occupied (a city replaces the
    record of the settlement it upgrades) or if the lock state or the
    coordinate does not allow the placement. *)
Definition Board_place_piece (E : Externals) (b : Board) (piece : Piece) (coord : Z)
  : res Board :=
  let key := (coord_kind_of (ptype piece), coord) in
  if negb (placement_allowed E b piece coord) then Err IllegalPlacement
  else if negb (PieceType.eqb (ptype piece) PieceType.city) && dict_mem key (pieces b)
  then Err IllegalPlacement
  else Ok (with_pieces (dict_set key piece (pieces b)) b).

(** One piece per slot, stored under the coordinate kind of its type. *)
Definition board_ok (b : Board) : Prop :=
  NoDup (map fst (pieces b)) /\
  forall k c pc, In ((k, c), pc) (pieces b) -> k = coord_kind_of (ptype pc).

(** ** Python sets of owners, compared with [==] *)

Definition owner_eqb (a b : option Player) : bool :=
  match a, b with
  | None, None => true
  | Some p, Some q => Player_eq p (PyPlayer q)
  | _, _ => false
  end.

(** [x in s] *)
Definition set_mem (x : option Player) (s : list (option Player)) : bool :=
  existsb (owner_eqb x) s.

(** [s.add(x)] *)
Definition set_add (x : option Player) (s : list (option Player)) : list (option Player) :=
  if set_mem x s then s else s ++ [x].

(** [s.remove(x)] for an [x] in [s] *)
Definition set_remove (x : option Player) (s : list (option Player)) : list (option Player) :=
  List.filter (fun y => negb (owner_eqb x y)) s.

(** The loop of [Game.stealable_players] over the nodes touching the
    robber's tile: the owner of the first piece found on each node. *)
Definition collect_owners (b : Board) (nodes : list Z) (acc : list (option Player))
  : list (option Player) :=
  fold_left
    (fun acc node =>
       match Board_get_pieces b [PieceType.settlement; PieceType.city] node with
       | [] => acc
       | piece :: _ => set_add (owner piece) acc
       end)
    nodes acc.

(** [Game.get_debug_players] *)
Definition get_debug_players : list Player :=
  [ {| seat := 1; name := normalize "abdur"; color := normalize "green" |};
    {| seat := 2; name := normalize "Qlearn"; color := normalize "blue" |};
    {| seat := 3; name := normalize "vitor"; color := normalize "orange" |};
    {| seat := 4; name := normalize "brian"; color := normalize "red" |} ].

(** ** class Game *)

Section GameMethods.

Variable E : Externals.

(** [catan.states.GameStateX(self)]: a new state object holding the Game. *)
Definition new_state (s : GameState) (game : loc) : M loc :=
  alloc (OState s game).

(** [catan.states.DevCardXState(self)] *)
Definition new_dev_card_state (s : DevCardState) : M loc :=
  alloc (ODevCard s).

(** [Game.notify_observers]: [for obs in self.observers.copy(): obs.notify(self)] *)
Definition notify_observers (self : loc) : M unit :=
  g <- get_game self ;;
  obs <- get_set (observers g) ;;
  emit (map (fun o => Notified o self) obs).

(** [Game.notify(observable)] *)
Definition notify (self : loc) : M unit :=
  notify_observers self.

(** The callbacks of a Board method into the Game observing the board. *)
Definition board_changed (self : loc) (op : board_op) : M unit :=
  times (board_callbacks E op) (notify self).

(** [self.board.lock()] *)
Definition Board_lock (self bl : loc) : M unit :=
  b <- get_board bl ;;
  store bl (OBoard (with_locked true b)) ;;;
  board_changed self op_lock.

(** [self.board.unlock()] *)
Definition Board_unlock (self bl : loc) : M unit :=
  b <- get_board bl ;;
  store bl (OBoard (with_locked false b)) ;;;
  board_changed self op_unlock.

(** [self.board.place_piece(piece, coord)] *)
Definition place_piece (self bl : loc) (piece : Piece) (coord : Z) : M unit :=
  b <- get_board bl ;;
  b' <- lift (Board_place_piece E b piece coord) ;;
  store bl (OBoard b') ;;;
  board_changed self op_place_piece.

(** Modelled from the spec: [self.board.restore(other)] (catan/board.py is
    not among the sources) makes the live board match the snapshot's. *)
Definition Board_restore (self bl other : loc) : M unit :=
  b <- get_board other ;;
  _ <- get_board bl ;;
  store bl (OBoard b) ;;;
  board_changed self op_restore.

(** [copy.deepcopy(v, memo)] of an attribute object that holds no
    reference to another object: a new object with equal contents. *)
Definition deepcopy (l : loc) : M loc :=
  o <- load l ;;
  match o with
  | OGame _ | OSet _ | OManager _ | OState _ _ => raise AttributeError
  | _ => alloc o
  end.

Definition deepcopy_opt (r : option loc) : M (option loc) :=
  match r with
  | None => ret None
  | Some l => l' <- deepcopy l ;; ret (Some l')
  end.

(** [Game.__deepcopy__(memo)]: one branch per attribute, in the order of
    [self.__dict__]. *)
Definition __deepcopy__ (self : loc) : M loc :=
  g <- get_game self ;;
  result <- alloc (OGame g) ;;                 (* cls.__new__(cls) *)
  obs <- get_set (observers g) ;;
  observers' <- alloc (OSet obs) ;;            (* k == 'observers': set(v) *)
  let undo_manager' := undo_manager g in       (* k == 'undo_manager': v *)
  options' <- deepcopy (options g) ;;
  players' <- deepcopy (players g) ;;
  board' <- deepcopy (board g) ;;
  robber' <- deepcopy (robber g) ;;
  catanlog' <- deepcopy (catanlog g) ;;
  let state' := state g in                     (* k == 'state': v *)
  dev_card_state' <- deepcopy_opt (dev_card_state g) ;;
  terrain_to_tiles' <- deepcopy (terrain_to_tiles g) ;;
  player_to_resources' <- deepcopy (player_to_resources g) ;;
  store result
    (OGame {| observers := observers';
              undo_manager := undo_manager';
              options := options';
              players := players';
              board := board';
              robber := robber';
              catanlog := catanlog';
              state := state';
              dev_card_state := dev_card_state';
              _cur_player := _cur_player g;
              last_roll := last_roll g;
              last_player_to_roll := last_player_to_roll g;
              _cur_turn := _cur_turn g;
              robber_tile := robber_tile g;
              terrain_to_tiles := terrain_to_tiles';
              player_to_resources := player_to_resources' |}) ;;;
  ret result.

(** [Game.copy]: [copy.deepcopy(self)] *)
Definition copy (self : loc) : M loc :=
  __deepcopy__ self.

(** [Game.restore(game)] *)
Definition restore (self game : loc) : M unit :=
  s <- get_game game ;;
  setattr self (with_observers (observers s)) ;;;
  (* self.undo_manager = game.undo_manager is commented out *)
  setattr self (with_options (options s)) ;;;
  setattr self (with_players (players s)) ;;;
  g <- get_game self ;;
  Board_restore self (board g) (board s) ;;;
  setattr self (with_robber (robber s)) ;;;
  setattr self (with_catanlog (catanlog s)) ;;;
  setattr self (with_state (state s)) ;;;
  sg <- get_state (state s) ;;                 (* self.state.game = self *)
  match state s with
  | Some l => store l (OState (fst sg) self)
  | None => raise AttributeError
  end ;;;
  setattr self (with_dev_card_state (dev_card_state s)) ;;;
  setattr self (with_cur_player (_cur_player s)) ;;;
  setattr self (with_last_roll (last_roll s)) ;;;
  setattr self (with_last_player_to_roll (last_player_to_roll s)) ;;;
  setattr self (with_cur_turn (_cur_turn s)) ;;;
  setattr self (with_robber_tile (robber_tile s)) ;;;
  notify_observers self.

(** Modelled from the spec: [UndoManager.do(command)] (the undoredo package
    is not among the sources) executes the action against the live Game,
    then pushes a command pairing a snapshot taken before execution with
    one taken after, and clears the redo history. *)
Definition UndoManager_do (um obj : loc) (action : M unit) : M unit :=
  before <- copy obj ;;
  action ;;;
  after <- copy obj ;;
  m <- get_manager um ;;
  store um (OManager {| undo_stack := mkCommand obj before after :: undo_stack m;
                        redo_stack := [] |}).

(** Modelled from the spec: [UndoManager.undo()] fails with NothingToUndo
    if the undo history is empty; otherwise it restores the Game to the
    command's before-snapshot and moves the command to the redo history. *)
Definition UndoManager_undo (um : loc) : M unit :=
  m <- get_manager um ;;
  match undo_stack m with
  | [] => raise NothingToUndo
  | c :: rest =>
      store um (OManager {| undo_stack := rest; redo_stack := redo_stack m |}) ;;;
      restore (cmd_obj c) (cmd_before c) ;;;
      m' <- get_manager um ;;
      store um (OManager {| undo_stack := undo_stack m';
                            redo_stack := c :: redo_stack m' |})
  end.

(** Modelled from the spec: [UndoManager.redo()] fails with NothingToRedo
    if the redo history is empty; otherwise it restores the Game to the
    command's after-snapshot and moves the command back to the undo
    history. *)
Definition UndoManager_redo (um : loc) : M unit :=
  m <- get_manager um ;;
  match redo_stack m with
  | [] => raise NothingToRedo
  | c :: rest =>
      store um (OManager {| undo_stack := undo_stack m; redo_stack := rest |}) ;;;
      restore (cmd_obj c) (cmd_after c) ;;;
      m' <- get_manager um ;;
      store um (OManager {| undo_stack := c :: undo_stack m';
                            redo_stack := redo_stack m' |})
  end.

(** [Game.do(command)] *)
Definition do (self : loc) (command : M unit) : M unit :=
  g <- get_game self ;;
  UndoManager_do (undo_manager g) self command ;;;
  notify_observers self.

(** [@undoredo.undoable]: the method runs as a command of [Game.do]. *)
Definition undoable (method : loc -> M unit) (self : loc) : M unit :=
  do self (method self).

(** [Game.undo] *)
Definition undo (self : loc) : M unit :=
  g <- get_game self ;;
  UndoManager_undo (undo_manager g) ;;;
  notify_observers self.

(** [Game.redo] *)
Definition redo (self : loc) : M unit :=
  g <- get_game self ;;
  UndoManager_redo (undo_manager g) ;;;
  notify_observers self.

(** [self.game.observers.add(obs)], how an observer registers itself. *)
Definition observers_add (self : loc) (o : observer) : M unit :=
  g <- get_game self ;;
  ms <- get_set (observers g) ;;
  store (observers g) (OSet (if existsb (Nat.eqb o) ms then ms else ms ++ [o])).

(** [Game.set_state(game_state)] *)
Definition set_state (self game_state : loc) : M unit :=
  setattr self (with_state (Some game_state)) ;;;
  sg <- get_state (Some game_state) ;;
  g <- get_game self ;;
  (if is_in_game (fst sg)
   then Board_lock self (board g)
   else Board_unlock self (board g)) ;;;
  notify_observers self.

(** [Game.set_dev_card_state(dev_state)] *)
Definition set_dev_card_state (self dev_state : loc) : M unit :=
  setattr self (with_dev_card_state (Some dev_state)) ;;;
  notify_observers self.

(** [Game.get_cur_player] *)
Definition get_cur_player (self : loc) : M Player :=
  g <- get_game self ;;
  match _cur_player g with
  | None => lift (Player_init 1 "nobody" "nobody")
  | Some p => lift (Player_init (seat p) (name p) (color p))
  end.

(** [Game.set_cur_player(player)] *)
Definition set_cur_player (self : loc) (player : Player) : M unit :=
  p <- lift (Player_init (seat player) (name player) (color player)) ;;
  setattr self (with_cur_player (Some p)).

(** [Game.set_players(players)] *)
Definition set_players (self : loc) (ps : list Player) : M unit :=
  l <- alloc (OList ps) ;;                     (* list(players) *)
  setattr self (with_players l) ;;;
  g <- get_game self ;;
  ps' <- get_list (players g) ;;
  match ps' with                               (* self.players[0] *)
  | [] => raise IndexError
  | p :: _ => set_cur_player self p
  end ;;;
  notify_observers self.

(** [Game.reset] *)
Definition reset (self : loc) : M unit :=
  l <- alloc (OList []) ;;
  setattr self (with_players l) ;;;
  st <- new_state GameStateNotInGame self ;;
  setattr self (with_state (Some st)) ;;;
  setattr self (with_last_roll None) ;;;
  setattr self (with_last_player_to_roll None) ;;;
  setattr self (with_cur_player None) ;;;
  setattr self (with_cur_turn 0) ;;;
  notify_observers self.

(** [Game.evaluate_final(pieces)]: the tally itself is [tally_resources]. *)
Definition evaluate_final (self : loc) : M unit :=
  g <- get_game self ;;
  b <- get_board (board g) ;;
  r <- alloc (OResources (tally_resources E b)) ;;
  setattr self (with_player_to_resources r).

(** [Game.end] *)
Definition end_ (self : loc) : M unit :=
  p <- get_cur_player self ;;
  emit [Logged (log_wins p)] ;;;
  evaluate_final self ;;;
  st <- new_state GameStateNotInGame self ;;
  set_state self st ;;;
  notify_observers self.

(** The loop of [Game.start] that finds the robber on the board. *)
Fixpoint find_robber (self : loc) (d : list (coord_key * Piece)) : M unit :=
  match d with
  | [] => ret tt
  | ((_, coord), piece) :: d' =>
      (if PieceType.eqb (ptype piece) PieceType.robber
       then setattr self (with_robber_tile (Some (tile_id_from_coord E coord)))
       else ret tt) ;;;
      find_robber self d'
  end.

(** [Game.start(players)], before the [@undoredo.undoable] wrapping. *)
Definition start_body (ps : list Player) (self : loc) : M unit :=
  reset self ;;;
  g <- get_game self ;;
  b <- get_board (board g) ;;
  let ps := if opts_debug b then get_debug_players else ps in
  set_players self ps ;;;
  g <- get_game self ;;
  pregame <- get_options (options g) ;;
  match pregame with
  | None =>
      st <- new_state (GameStatePreGamePlacingPiece PieceType.settlement) self ;;
      set_state self st
  | Some v =>
      if String.eqb v "on" then
        st <- new_state (GameStatePreGamePlacingPiece PieceType.settlement) self ;;
        set_state self st
      else if String.eqb v "off" then
        st <- new_state GameStateBeginTurn self ;;
        set_state self st
      else ret tt
  end ;;;
  g <- get_game self ;;
  b <- get_board (board g) ;;
  find_robber self (pieces b) ;;;
  g <- get_game self ;;
  ps' <- get_list (players g) ;;
  emit [Logged (log_game_start ps' (map terrain (tiles b)) (map number (tiles b)) (ports b))] ;;;
  notify_observers self.

Definition start (self : loc) (ps : list Player) : M unit :=
  undoable (start_body ps) self.

(** [Game.roll(roll)], before the [@undoredo.undoable] wrapping; the roll
    is an integer, on which [int(roll)] is the identity. *)
Definition roll_body (roll : Z) (self : loc) : M unit :=
  p <- get_cur_player self ;;
  emit [Logged (log_roll p roll)] ;;;
  setattr self (with_last_roll (Some roll)) ;;;
  p' <- get_cur_player self ;;
  setattr self (with_last_player_to_roll (Some p')) ;;;
  if Z.eqb roll 7 then
    st <- new_state GameStateMoveRobber self ;;
    set_state self st
  else
    st <- new_state GameStateDuringTurnAfterRoll self ;;
    set_state self st.

Definition roll (self : loc) (r : Z) : M unit :=
  undoable (roll_body r) self.

(** [Game.play_knight] *)
Definition play_knight_body (self : loc) : M unit :=
  d <- new_dev_card_state DevCardPlayedState ;;
  set_dev_card_state self d ;;;
  st <- new_state GameStateMoveRobberUsingKnight self ;;
  set_state self st.

Definition play_knight (self : loc) : M unit :=
  undoable play_knight_body self.

(** [Game.stealable_players]: the result is a Python set of piece owners
    (the empty list when there is no robber tile). *)
Definition stealable_players (self : loc) : M (list (option Player)) :=
  g <- get_game self ;;
  match robber_tile g with
  | None => ret []
  | Some tile =>
      b <- get_board (board g) ;;
      let stealable := collect_owners b (nodes_touching_tile E tile) [] in
      cur <- get_cur_player self ;;
      if set_mem (Some cur) stealable
      then ret (set_remove (Some cur) stealable)
      else ret stealable
  end.

(** [Game.place_settlement(node_coord)] *)
Definition place_settlement (self : loc) (node_coord : Z) : M unit :=
  undoable (fun self => state_place_settlement E self node_coord) self.

(** [Game.place_road(edge_coord)] *)
Definition place_road (self : loc) (edge_coord : Z) : M unit :=
  undoable (fun self => state_place_road E self edge_coord) self.

Definition get_heap : M (list obj) :=
  fun w => (Ok (heap w), w).

(** Lines 535-544 of [Game.end_turn]: the automated players place a
    settlement and a road when the turn comes to them in pregame. *)
Definition agent_turn (self : loc) : M unit :=
  g <- get_game self ;;
  match _cur_player g with
  | None => raise AttributeError
  | Some cp =>
      if PyStr.contains "agent1" (name cp) then
        sg <- get_state (state g) ;;
        if is_in_pregame (fst sg) then
          b <- get_board (board g) ;;
          let ne := get_random_assignment E (pieces b) in
          place_settlement self (fst ne) ;;;
          place_road self (snd ne)
        else ret tt
      else if PyStr.contains "agent2" (name cp) then
        sg <- get_state (state g) ;;
        if is_in_pregame (fst sg) then
          h <- get_heap ;;
          let ne := get_best_assignment E h self in
          place_settlement self (fst ne) ;;;
          place_road self (snd ne)
        else ret tt
      else ret tt
  end.

(** [Game.end_turn], before the [@undoredo.undoable] wrapping. *)
Definition end_turn_body (self : loc) : M unit :=
  p <- get_cur_player self ;;
  emit [Logged (log_ends_turn p)] ;;;
  g <- get_game self ;;
  sg <- get_state (state g) ;;
  h <- get_heap ;;
  set_cur_player self (next_player E h (snd sg) (fst sg)) ;;;
  g <- get_game self ;;
  sg <- get_state (state g) ;;
  h <- get_heap ;;
  (if can_end_game E h (snd sg) (fst sg) then end_ self else ret tt) ;;;
  g <- get_game self ;;
  setattr self (with_cur_turn (_cur_turn g + 1)) ;;;
  d <- new_dev_card_state DevCardNotPlayedState ;;
  set_dev_card_state self d ;;;
  g <- get_game self ;;
  sg <- get_state (state g) ;;
  (if is_in_pregame (fst sg) then
     st <- new_state (GameStatePreGamePlacingPiece PieceType.settlement) self ;;
     set_state self st
   else
     end_ self) ;;;
  agent_turn self.

Definition end_turn (self : loc) : M unit :=
  undoable end_turn_body self.

(** [Game.buy_road(edge)] *)
Definition buy_road (self : loc) (edge : Z) : M unit :=
  p <- get_cur_player self ;;
  let piece := {| ptype := PieceType.road; owner := Some p |} in
  g <- get_game self ;;
  place_piece self (board g) piece edge ;;;
  p' <- get_cur_player self ;;
  emit [Logged (log_buys_road p' (location E EDGE edge))] ;;;
  g <- get_game self ;;
  sg <- get_state (state g) ;;
  if is_in_pregame (fst sg) then
    end_turn self
  else
    st <- new_state GameStateDuringTurnAfterRoll self ;;
    set_state self st.

(** [Game.buy_settlement(node)] *)
Definition buy_settlement (self : loc) (node : Z) : M unit :=
  p <- get_cur_player self ;;
  let piece := {| ptype := PieceType.settlement; owner := Some p |} in
  g <- get_game self ;;
  place_piece self (board g) piece node ;;;
  p' <- get_cur_player self ;;
  emit [Logged (log_buys_settlement p' (location E NODE node))] ;;;
  g <- get_game self ;;
  sg <- get_state (state g) ;;
  if is_in_pregame (fst sg) then
    st <- new_state (GameStatePreGamePlacingPiece PieceType.road) self ;;
    set_state self st
  else
    st <- new_state GameStateDuringTurnAfterRoll self ;;
    set_state self st.

(** [Game.__init__(players, board, logging, pregame, use_stdout)]; the
    board is given by the caller. *)
Definition __init__ (ps : list Player) (b : Board) (logging : string)
    (pregame : option string) (use_stdout : bool) : M loc :=
  observers0 <- alloc (OSet []) ;;
  undo_manager0 <- alloc (OManager {| undo_stack := []; redo_stack := [] |}) ;;
  options0 <- alloc (OOptions pregame) ;;
  players0 <- alloc (OList ps) ;;
  board0 <- alloc (OBoard b) ;;
  robber0 <- alloc (OPiece {| ptype := PieceType.robber; owner := None |}) ;;
  catanlog0 <- alloc (OLog (if String.eqb logging "on"
                            then CatanLog use_stdout else NoopCatanLog)) ;;
  terrain_to_tiles0 <- alloc (OTerrain []) ;;
  player_to_resources0 <- alloc (OResources []) ;;
  self <- alloc (OGame {| observers := observers0;
                          undo_manager := undo_manager0;
                          options := options0;
                          players := players0;
                          board := board0;
                          robber := robber0;
                          catanlog := catanlog0;
                          state := None;
                          dev_card_state := None;
                          _cur_player := None;
                          last_roll := None;
                          last_player_to_roll := None;
                          _cur_turn := 0;
                          robber_tile := None;
                          terrain_to_tiles := terrain_to_tiles0;
                          player_to_resources := player_to_resources0 |}) ;;
  st <- new_state GameStateNotInGame self ;;
  set_state self st ;;;
  d <- new_dev_card_state DevCardNotPlayedState ;;
  set_dev_card_state self d ;;;
  ret self.

End GameMethods.

(** ** Reading a Game out of the heap *)

(** The Game at a reference together with the contents of the objects its
    attributes point to. *)
Record View : Type := mkView {
  v_game : Game;
  v_observers : list observer;
  v_manager : UndoManager;
  v_options : option string;
  v_players : list Player;
  v_board : Board;
  v_robber : Piece;
  v_catanlog : LogSink;
  v_state_ref : loc;
  v_state : GameState;
  v_state_game : loc;
  v_dev_ref : loc;
  v_dev_card_state : DevCardState;
  v_terrain_to_tiles : list (string * list Z);
  v_player_to_resources : Resources
}.

Definition view (h : list obj) (self : loc) : option View :=
  match h !! self with
  | Some (OGame g) =>
    match h !! observers g, h !! undo_manager g, h !! options g, h !! players g with
    | Some (OSet ms), Some (OManager m), Some (OOptions op), Some (OList ps) =>
      match h !! board g, h !! robber g, h !! catanlog g with
      | Some (OBoard b), Some (OPiece rb), Some (OLog lg) =>
        match state g, dev_card_state g with
        | Some st, Some dv =>
          match h !! st, h !! dv, h !! terrain_to_tiles g, h !! player_to_resources g with
          | Some (OState s bk), Some (ODevCard d), Some (OTerrain tr), Some (OResources rs) =>
              Some {| v_game := g; v_observers := ms; v_manager := m; v_options := op;
                      v_players := ps; v_board := b; v_robber := rb; v_catanlog := lg;
                      v_state_ref := st; v_state := s; v_state_game := bk;
                      v_dev_ref := dv; v_dev_card_state := d;
                      v_terrain_to_tiles := tr; v_player_to_resources := rs |}
          | _, _, _, _ => None
          end
        | _, _ => None
        end
      | _, _, _ => None
      end
    | _, _, _, _ => None
    end
  | _ => None
  end.

(** The current player is None or a Player that [__init__] built. *)
Definition cur_ok (g : Game) : Prop :=
  match _cur_player g with
  | None => True
  | Some p => valid_player p
  end.

(** What [get_cur_player] returns on such a Game. *)
Definition cur_player_of (g : Game) : Player :=
  match _cur_player g with
  | None => nobody
  | Some p => p
  end.

(** The cells [__deepcopy__] allocates for a Game seen as [v], the first of
    them at reference [n]. *)
Definition snapshot_game (v : View) (n : nat) : Game :=
  {| observers := n + 1;
     undo_manager := undo_manager (v_game v);
     options := n + 2;
     players := n + 3;
     board := n + 4;
     robber := n + 5;
     catanlog := n + 6;
     state := state (v_game v);
     dev_card_state := Some (n + 7);
     _cur_player := _cur_player (v_game v);
     last_roll := last_roll (v_game v);
     last_player_to_roll := last_player_to_roll (v_game v);
     _cur_turn := _cur_turn (v_game v);
     robber_tile := robber_tile (v_game v);
     terrain_to_tiles := n + 8;
     player_to_resources := n + 9 |}%nat.

Definition snapshot_cells (v : View) (n : nat) : list obj :=
  [ OGame (snapshot_game v n);
    OSet (v_observers v);
    OOptions (v_options v);
    OList (v_players v);
    OBoard (v_board v);
    OPiece (v_robber v);
    OLog (v_catanlog v);
    ODevCard (v_dev_card_state v);
    OTerrain (v_terrain_to_tiles v);
    OResources (v_player_to_resources v) ].

(** The attributes of a Game that hold objects. *)
Inductive attr : Type :=
| a_observers | a_undo_manager | a_options | a_players | a_board | a_robber
| a_catanlog | a_state | a_dev_card_state | a_terrain_to_tiles | a_player_to_resources.

(** The identity of the object an attribute holds. *)
Definition attr_ref (a : attr) (g : Game) : option loc :=
  match a with
  | a_observers => Some (observers g)
  | a_undo_manager => Some (undo_manager g)
  | a_options => Some (options g)
  | a_players => Some (players g)
  | a_board => Some (board g)
  | a_robber => Some (robber g)
  | a_catanlog => Some (catanlog g)
  | a_state => state g
  | a_dev_card_state => dev_card_state g
  | a_terrain_to_tiles => Some (terrain_to_tiles g)
  | a_player_to_resources => Some (player_to_resources g)
  end.

(** The contents of the object an attribute holds. *)
Definition attr_obj (h : list obj) (a : attr) (g : Game) : option obj :=
  match attr_ref a g with
  | Some l => h !! l
  | None => None
  end.

(** ** Reading the trace *)

Definition is_notified (o : observer) (g : loc) (e : event) : bool :=
  match e with
  | Notified o' g' => Nat.eqb o o' && Nat.eqb g g'
  | Logged _ => false
  end.

(** How many times observer [o] was notified by Game [g]. *)
Definition notifications (o : observer) (g : loc) (t : list event) : nat :=
  length (List.filter (is_notified o g) t).

Definition is_log_wins (e : event) : bool :=
  match e with
  | Logged (log_wins _) => true
  | _ => false
  end.

(** How many times [Game.end] ran: each run makes one [log_wins] call. *)
Definition end_runs (t : list event) : nat :=
  length (List.filter is_log_wins t).

(** One round of [notify_observers]. *)
Definition notify_events (self : loc) (ms : list observer) : list event :=
  map (fun o => Notified o self) ms.

(** [n] rounds of [notify_observers]. *)
Fixpoint notify_rounds (n : nat) (self : loc) (ms : list observer) : list event :=
  match n with
  | O => []
  | S n' => notify_events self ms ++ notify_rounds n' self ms
  end.

(** The world a method leaves, whether it returned or raised. *)
Definition after {A} (m : M A) (w : World) : World := snd (m w).

(** The world, when the method returned. *)
Definition returns {A} (m : M A) (w : World) : option World :=
  match m w with
  | (Ok _, w') => Some w'
  | (Err _, _) => None
  end.

(** ** Views of the heap and of its changes *)

(** The kind of an object: the class it is an instance of. *)
Definition kind (o : obj) : nat :=
  match o with
  | OGame _ => 0 | OSet _ => 1 | OManager _ => 2 | OOptions _ => 3
  | OList _ => 4 | OBoard _ => 5 | OPiece _ => 6 | OLog _ => 7
  | OState _ _ => 8 | ODevCard _ => 9 | OTerrain _ => 10 | OResources _ => 11
  end%nat.

(** The objects [deepcopy] copies cell by cell. *)
Definition leaf (o : obj) : Prop :=
  match o with
  | OGame _ | OSet _ | OManager _ | OState _ _ => False
  | _ => True
  end.

(** [view h self = Some v], attribute by attribute. *)
Record Viewed (h : list obj) (self : loc) (v : View) : Prop := mkViewed {
  vw_game : h !! self = Some (OGame (v_game v));
  vw_observers : h !! observers (v_game v) = Some (OSet (v_observers v));
  vw_manager : h !! undo_manager (v_game v) = Some (OManager (v_manager v));
  vw_options : h !! options (v_game v) = Some (OOptions (v_options v));
  vw_players : h !! players (v_game v) = Some (OList (v_players v));
  vw_board : h !! board (v_game v) = Some (OBoard (v_board v));
  vw_robber : h !! robber (v_game v) = Some (OPiece (v_robber v));
  vw_catanlog : h !! catanlog (v_game v) = Some (OLog (v_catanlog v));
  vw_state_ref : state (v_game v) = Some (v_state_ref v);
  vw_state : h !! v_state_ref v = Some (OState (v_state v) (v_state_game v));
  vw_dev_ref : dev_card_state (v_game v) = Some (v_dev_ref v);
  vw_dev : h !! v_dev_ref v = Some (ODevCard (v_dev_card_state v));
  vw_terrain : h !! terrain_to_tiles (v_game v) = Some (OTerrain (v_terrain_to_tiles v));
  vw_resources :
    h !! player_to_resources (v_game v) = Some (OResources (v_player_to_resources v))
}.

Definition with_v_manager (m : UndoManager) (v : View) : View :=
  {| v_game := v_game v; v_observers := v_observers v; v_manager := m;
     v_options := v_options v; v_players := v_players v; v_board := v_board v;
     v_robber := v_robber v; v_catanlog := v_catanlog v;
     v_state_ref := v_state_ref v; v_state := v_state v;
     v_state_game := v_state_game v; v_dev_ref := v_dev_ref v;
     v_dev_card_state := v_dev_card_state v;
     v_terrain_to_tiles := v_terrain_to_tiles v;
     v_player_to_resources := v_player_to_resources v |}.

Definition with_v_board (b : Board) (v : View) : View :=
  {| v_game := v_game v; v_observers := v_observers v; v_manager := v_manager v;
     v_options := v_options v; v_players := v_players v; v_board := b;
     v_robber := v_robber v; v_catanlog := v_catanlog v;
     v_state_ref := v_state_ref v; v_state := v_state v;
     v_state_game := v_state_game v; v_dev_ref := v_dev_ref v;
     v_dev_card_state := v_dev_card_state v;
     v_terrain_to_tiles := v_terrain_to_tiles v;
     v_player_to_resources := v_player_to_resources v |}.

(** The view of the snapshot [__deepcopy__] builds at reference [n]. *)
Definition snapshot_view (v : View) (n : nat) : View :=
  {| v_game := snapshot_game v n; v_observers := v_observers v;
     v_manager := v_manager v;
     v_options := v_options v; v_players := v_players v; v_board := v_board v;
     v_robber := v_robber v; v_catanlog := v_catanlog v;
     v_state_ref := v_state_ref v; v_state := v_state v;
     v_state_game := v_state_game v; v_dev_ref := (n + 7)%nat;
     v_dev_card_state := v_dev_card_state v;
     v_terrain_to_tiles := v_terrain_to_tiles v;
     v_player_to_resources := v_player_to_resources v |}.

(** The Game [restore] leaves: [g] restored from the snapshot [s]. *)
Definition restored_game (g s : Game) : Game :=
  {| observers := observers s;
     undo_manager := undo_manager g;
     options := options s;
     players := players s;
     board := board g;
     robber := robber s;
     catanlog := catanlog s;
     state := state s;
     dev_card_state := dev_card_state s;
     _cur_player := _cur_player s;
     last_roll := last_roll s;
     last_player_to_roll := last_player_to_roll s;
     _cur_turn := _cur_turn s;
     robber_tile := robber_tile s;
     terrain_to_tiles := terrain_to_tiles g;
     player_to_resources := player_to_resources g |}.

Definition restored_view (self : loc) (v vs : View) : View :=
  {| v_game := restored_game (v_game v) (v_game vs);
     v_observers := v_observers vs;
     v_manager := v_manager v;
     v_options := v_options vs; v_players := v_players vs; v_board := v_board vs;
     v_robber := v_robber vs; v_catanlog := v_catanlog vs;
     v_state_ref := v_state_ref vs; v_state := v_state vs;
     v_state_game := self; v_dev_ref := v_dev_ref vs;
     v_dev_card_state := v_dev_card_state vs;
     v_terrain_to_tiles := v_terrain_to_tiles v;
     v_player_to_resources := v_player_to_resources v |}.

(** The view [Game.end] leaves, [n] being the size of the heap before. *)
Definition end_view (E : Externals) (self : loc) (n : nat) (v : View) : View :=
  {| v_game := with_state (Some (n + 1)%nat) (with_player_to_resources n (v_game v));
     v_observers := v_observers v;
     v_manager := v_manager v;
     v_options := v_options v;
     v_players := v_players v;
     v_board := with_locked false (v_board v);
     v_robber := v_robber v;
     v_catanlog := v_catanlog v;
     v_state_ref := (n + 1)%nat;
     v_state := GameStateNotInGame;
     v_state_game := self;
     v_dev_ref := v_dev_ref v;
     v_dev_card_state := v_dev_card_state v;
     v_terrain_to_tiles := v_terrain_to_tiles v;
     v_player_to_resources := tally_resources E (v_board v) |}.

(** What one run of [Game.end] adds to the trace. *)
Definition end_trace (E : Externals) (self : loc) (v : View) : list event :=
  [Logged (log_wins (cur_player_of (v_game v)))]
  ++ notify_rounds (board_callbacks E op_unlock) self (v_observers v)
  ++ notify_events self (v_observers v)
  ++ notify_events self (v_observers v).

(** The heap in which the body of an undoable method starts: [Game.do] has
    taken the before-snapshot of the Game seen as [v]. *)
Definition body_heap (h : list obj) (v : View) : list obj :=
  h ++ snapshot_cells v (length h).

(** Player [p] owns a settlement or a city on node [node]. *)
Definition owns_building_at (b : Board) (p : Player) (node : Z) : Prop :=
  exists piece,
    In ((NODE, node), piece) (pieces b) /\
    (ptype piece = PieceType.settlement \/ ptype piece = PieceType.city) /\
    owner piece = Some p.

(** The state variant, the dev-card state and the registered observers of
    the Game at [self]. *)
Definition state_of (w : World) (self : loc) : option GameState :=
  match view (heap w) self with
  | Some v => Some (v_state v)
  | None => None
  end.

Definition dev_card_of (w : World) (self : loc) : option DevCardState :=
  match view (heap w) self with
  | Some v => Some (v_dev_card_state v)
  | None => None
  end.

Definition registered (w : World) (self : loc) : list observer :=
  match view (heap w) self with
  | Some v => v_observers v
  | None => []
  end.

(** ** Example games *)

Module Sample.

(** Clockwise rotation: the player after [cur] in [ps]. *)
Fixpoint player_after (cur : Player) (ps : list Player) (first : Player) : Player :=
  match ps with
  | [] => first
  | p :: rest =>
      if Player_eq p (PyPlayer cur)
      then match rest with
           | [] => first
           | q :: _ => q
           end
      else player_after cur rest first
  end.

Definition rotate (h : list obj) (game : loc) (s : GameState) : Player :=
  match view h game with
  | Some v =>
      match v_players v with
      | [] => nobody
      | first :: _ => player_after (cur_player_of (v_game v)) (v_players v) first
      end
  | None => nobody
  end.

(** A toy geometry (tile [t] touches nodes [t], [t+1], [t+2]), clockwise
    rotation, a game that never ends by itself, a board that allows every
    free slot and does not call back. *)
Definition externals : Externals :=
  {| nodes_touching_tile := fun t => [t; t + 1; t + 2];
     tile_id_from_coord := fun c => c;
     location := fun _ _ => "(1 NW)"%string;
     next_player := rotate;
     can_end_game := fun _ _ _ => false;
     state_place_settlement := fun _ _ => ret tt;
     state_place_road := fun _ _ => ret tt;
     placement_allowed := fun _ _ _ => true;
     board_callbacks := fun _ => 0%nat;
     tally_resources := fun _ => [];
     get_random_assignment := fun _ => (0, 0);
     get_best_assignment := fun _ _ => (0, 0) |}.

Definition board0 : Board :=
  {| tiles := [ {| tile_id := 1; terrain := Terrain.wood; number := 5 |} ];
     ports := [];
     pieces := [ ((TILE, 1), {| ptype := PieceType.robber; owner := None |}) ];
     locked := false;
     opts_debug := false |}.

(** The reference [__init__] returns in an empty heap. *)
Definition self : loc := 9%nat.

(** A Game built by [__init__] (pregame on), with one observer. *)
Definition created : World :=
  Eval vm_compute in
  after (__init__ externals [] board0 "on" (Some "on"%string) false ;;;
         observers_add self 100%nat)
        {| heap := []; trace := [] |}.

(** The same with pregame off. *)
Definition created_no_pregame : World :=
  Eval vm_compute in
  after (__init__ externals [] board0 "on" (Some "off"%string) false ;;;
         observers_add self 100%nat)
        {| heap := []; trace := [] |}.

(** A game in progress: started without pregame, first roll made. *)
Definition in_turn : World :=
  Eval vm_compute in
  after (start externals self get_debug_players ;;; roll externals self 4)
        created_no_pregame.

(** A knight has just been played. *)
Definition knight_played : World :=
  Eval vm_compute in
  after (play_knight externals self) in_turn.

(** A pregame in progress: seat 1 is to place a settlement. *)
Definition in_pregame : World :=
  Eval vm_compute in
  after (start externals self get_debug_players) created.

(** Seat 1 has placed a settlement on node 2 and is to place a road. *)
Definition settled : World :=
  Eval vm_compute in
  after (buy_settlement externals self 2) in_pregame.

(** Seat 1 has placed a road on edge 6: the turn went to seat 2. *)
Definition road_built : World :=
  Eval vm_compute in
  after (buy_road externals self 6) settled.

End Sample.

(** ** More of class Game: placing, ports, the final tally *)

(** [str(n)] for an integer, as ['{}'.format(n)] prints it. *)
Definition str_of_int (n : Z) : string :=
  NilZero.string_of_int (Z.to_int n).

Section PortsAndPlacing.

Variable E : Externals.

(** [hexgrid.edge_coord_in_direction] and [hexgrid.nodes_touching_edge]
    (hexgrid is not among the sources). *)
Variable edge_coord_in_direction : Z -> string -> Z.
Variable nodes_touching_edge : Z -> list Z.

(** [Game.begin_placing(piece_type)], before the [@undoredo.undoable]
    wrapping. *)
Definition begin_placing_body (piece_type : PieceType.t) (self : loc) : M unit :=
  g <- get_game self ;;
  sg <- get_state (state g) ;;
  if is_in_pregame (fst sg) then
    st <- new_state (GameStatePreGamePlacingPiece piece_type) self ;;
    set_state E self st
  else
    st <- new_state (GameStatePlacingPiece piece_type) self ;;
    set_state E self st.

Definition begin_placing (self : loc) (piece_type : PieceType.t) : M unit :=
  undoable (begin_placing_body piece_type) self.

(** The loop of [Game._player_has_port] over the nodes touching the port's
    edge. *)
Fixpoint _player_has_port_loop (self : loc) (player : Player) (nodes : list Z)
  : M bool :=
  match nodes with
  | [] => ret false
  | node :: rest =>
      g <- get_game self ;;
      b <- get_board (board g) ;;
      match Board_get_pieces b [PieceType.settlement; PieceType.city] node with
      | [] => _player_has_port_loop self player rest          (* continue *)
      | [piece] =>
          if owner_eqb (owner piece) (Some player) then ret true
          else _player_has_port_loop self player rest
      | ps =>
          raise (PyException
                   ("Probably a bug, num=" ++ str_of_int (Z.of_nat (length ps))
                    ++ " pieces found on node=" ++ str_of_int node))
      end
  end.

(** [Game._player_has_port(player, port)] *)
Definition _player_has_port (self : loc) (player : Player) (port : Port) : M bool :=
  let edge_coord := edge_coord_in_direction (port_tile port) (port_direction port) in
  _player_has_port_loop self player (nodes_touching_edge edge_coord).

(** The loop of [Game.player_has_port_type] over [self.board.ports]. *)
Fixpoint player_has_port_type_loop (self : loc) (player : Player) (type : string)
    (ps : list Port) : M bool :=
  match ps with
  | [] => ret false
  | port :: rest =>
      if String.eqb (port_type port) type then
        has <- _player_has_port self player port ;;
        if has then ret true else player_has_port_type_loop self player type rest
      else player_has_port_type_loop self player type rest
  end.

(** [Game.player_has_port_type(player, port_type)] *)
Definition player_has_port_type (self : loc) (player : Player) (type : string) : M bool :=
  g <- get_game self ;;
  b <- get_board (board g) ;;
  player_has_port_type_loop self player type (ports b).

(** [Game.cur_player_has_port_type(port_type)] *)
Definition cur_player_has_port_type (self : loc) (type : string) : M bool :=
  p <- get_cur_player self ;;
  player_has_port_type self p type.

End PortsAndPlacing.

(** The robber tile [Game.start] ends with: its loop over the pieces of the
    board keeps the tile of the last robber it meets. *)
Definition found_robber_tile (E : Externals) (d : list (coord_key * Piece))
    (old : option Z) : option Z :=
  fold_left
    (fun acc e =>
       if PieceType.eqb (ptype (snd e)) PieceType.robber
       then Some (tile_id_from_coord E (snd (fst e)))
       else acc)
    d old.

(** The state [Game.start] installs for a value of the option 'pregame';
    it installs none for a value other than None, 'on' and 'off'. *)
Definition start_state (pregame : option string) : option GameState :=
  match pregame with
  | None => Some (GameStatePreGamePlacingPiece PieceType.settlement)
  | Some v =>
      if String.eqb v "on" then Some (GameStatePreGamePlacingPiece PieceType.settlement)
      else if String.eqb v "off" then Some GameStateBeginTurn
      else None
  end.

(** *** [Game.evaluate_final]: the tally of lines 241-282 *)

Section FinalTally.

(** [hexgrid.legal_tile_ids()], a set, in the order it is iterated, and
    [hexgrid.adjacent_tiles_to_node] (hexgrid is not among the sources). *)
Variable legal_tile_ids : list Z.
Variable adjacent_tiles_to_node : Z -> list Z.

(** The dict [vocab] of line 245. *)
Definition vocab (t : Terrain.t) : string :=
  match t with
  | Terrain.desert => "Desert"
  | Terrain.wheat => "Wheat"
  | Terrain.ore => "Ore"
  | Terrain.sheep => "Sheep"
  | Terrain.brick => "Brick"
  | Terrain.wood => "Wood"
  end.

(** Lines 254-259: [terrain_to_tiles[name].append(tile_id)], or a new entry
    [[tile_id]] for a name that is not a key yet. *)
Fixpoint terrain_add (name : string) (id : Z) (d : list (string * list Z))
  : list (string * list Z) :=
  match d with
  | [] => [(name, [id])]
  | e :: d' =>
      if String.eqb (fst e) name then (fst e, snd e ++ [id]) :: d'
      else e :: terrain_add name id d'
  end.

(** Lines 252-260: the loop over [self.board.tiles]. *)
Definition build_terrain_to_tiles (ts : list Tile) : list (string * list Z) :=
  fold_left (fun d t => terrain_add (vocab (terrain t)) (tile_id t) d) ts [].

(** [tile_id_to_terrain_type[tile].append(terrain)] for a key [tile]. *)
Fixpoint tile_append (tile : Z) (terrain : string) (d : list (Z * list string))
  : list (Z * list string) :=
  match d with
  | [] => []
  | e :: d' =>
      if Z.eqb (fst e) tile then (fst e, snd e ++ [terrain]) :: d'
      else e :: tile_append tile terrain d'
  end.

(** Lines 262-268: one empty list per legal tile id, then for each terrain
    name and each legal tile id listed under it, the name is appended to
    the list of the tile. *)
Definition build_tile_id_to_terrain_type (tt : list (string * list Z))
  : list (Z * list string) :=
  fold_left
    (fun acc e =>
       fold_left
         (fun acc tile =>
            if existsb (Z.eqb tile) (snd e) then tile_append tile (fst e) acc else acc)
         legal_tile_ids acc)
    tt (map (fun tile => (tile, [])) legal_tile_ids).

(** [d[tile]]; None stands for KeyError. *)
Fixpoint tile_get (tile : Z) (d : list (Z * list string)) : option (list string) :=
  match d with
  | [] => None
  | e :: d' => if Z.eqb (fst e) tile then Some (snd e) else tile_get tile d'
  end.

(** [self.player_to_resources[player].append(x)] for a key [player]. *)
Fixpoint resources_append (player : Player) (x : list string) (d : Resources)
  : Resources :=
  match d with
  | [] => []
  | e :: d' =>
      if Player_eq (fst e) (PyPlayer player) then (fst e, snd e ++ [x]) :: d'
      else e :: resources_append player x d'
  end.

(** A [for] loop whose body may raise. *)
Fixpoint for_each {A S : Type} (body : S -> A -> option S) (l : list A) (s : S)
  : option S :=
  match l with
  | [] => Some s
  | x :: l' =>
      match body s x with
      | Some s' => for_each body l' s'
      | None => None
      end
  end.

(** [Game.evaluate_final(pieces)]: the value it leaves in
    [self.player_to_resources], for the tiles of the board and the dict
    [pieces] (the board's player_to_pieces: for each player the list of
    its (coordinate, piece type) items); None when the lookup of an
    adjacent tile raises KeyError. *)
Definition evaluate_final_tally (ts : list Tile)
    (pcs : list (Player * list (Z * PieceType.t))) : option Resources :=
  let tile_id_to_terrain_type :=
    build_tile_id_to_terrain_type (build_terrain_to_tiles ts) in
  for_each
    (fun r pl =>                                    (* for player in pieces *)
       for_each
         (fun r item =>                             (* for item in pieces[player] *)
            if PieceType.eqb (snd item) PieceType.settlement then
              for_each
                (fun r adj_tile =>                  (* for adj_tile in adjacent_tiles *)
                   match tile_get adj_tile tile_id_to_terrain_type with
                   | Some names => Some (resources_append (fst pl) names r)
                   | None => None
                   end)
                (adjacent_tiles_to_node (fst item)) r
            else Some r)
         (snd pl) r)
    pcs (map (fun pl => (fst pl, [])) pcs).

(** The terrain names of the tiles of [ts] whose id is [tile], each name
    once, in the order the names first occur among the tiles. *)
Definition terrain_names (ts : list Tile) (tile : Z) : list string :=
  map fst
    (List.filter (fun e : string * list Z => existsb (Z.eqb tile) (snd e))
       (build_terrain_to_tiles ts)).

(** What the settlements among [items] contribute: one list of terrain
    names per tile adjacent to each settlement. *)
Definition settlement_resources (ts : list Tile) (items : list (Z * PieceType.t))
  : list (list string) :=
  flat_map
    (fun item : Z * PieceType.t =>
       if PieceType.eqb (snd item) PieceType.settlement
       then map (terrain_names ts) (adjacent_tiles_to_node (fst item))
       else [])
    items.

(** The adjacent tiles of a settlement [item] are all legal tile ids: its
    lookups raise no KeyError. *)
Definition legal_item (item : Z * PieceType.t) : bool :=
  negb (PieceType.eqb (snd item) PieceType.settlement)
  || forallb (fun adj => existsb (Z.eqb adj) legal_tile_ids)
       (adjacent_tiles_to_node (fst item)).

End FinalTally.

(** A game on a board with two ports, in a toy geometry: the port of tile
    [t] lies on edge [10 t], which touches the nodes [10 t] and [10 t + 1].
    Seat 1 has placed its first settlement on node 11. *)
Module Harbour.

Definition edge_coord_in_direction (tile : Z) (direction : string) : Z := 10 * tile.

Definition nodes_touching_edge (edge : Z) : list Z := [edge; edge + 1].

Definition board : Board :=
  {| tiles := [ {| tile_id := 1; terrain := Terrain.wood; number := 5 |};
                {| tile_id := 2; terrain := Terrain.ore; number := 8 |} ];
     ports := [ {| port_tile := 1; port_direction := "NW"; port_type := "3:1" |};
                {| port_tile := 2; port_direction := "W"; port_type := "ore" |} ];
     pieces := [ ((TILE, 1), {| ptype := PieceType.robber; owner := None |}) ];
     locked := false;
     opts_debug := true |}.

Definition settled : World :=
  Eval vm_compute in
  after (__init__ Sample.externals [] board "on" (Some "on"%string) false ;;;
         start Sample.externals Sample.self [] ;;;
         buy_settlement Sample.externals Sample.self 11)
        {| heap := []; trace := [] |}.

End Harbour.

(** A Game created with a value of the option 'pregame' that [start] does
    not know, on the board of the example games. *)
Module Unusual.

Definition created : World :=
  Eval vm_compute in
  after (__init__ Sample.externals [] Sample.board0 "on" (Some "maybe"%string) false)
        {| heap := []; trace := [] |}.

End Unusual.

(** *** Cities and development cards *)

(** A call that returns and leaves the heap as it is: what a call on the
    log sink does to the Game. *)
Definition quiet (m : M unit) : Prop :=
  forall w, exists t, m w = (Ok tt, {| heap := heap w; trace := trace w ++ t |}).

(** What a card method other than the knight's does to the Game seen as
    [v]: it returns, the dev-card state is Played, the state of the game,
    the board, the current player and the turn counter are kept, and one
    command is added to the undo history, the redo history being emptied. *)
Definition plays_card (self : loc) (w : World) (v : View) (m : M unit) : Prop :=
  exists w' v' c,
    m w = (Ok tt, w') /\
    view (heap w') self = Some v' /\
    v_dev_card_state v' = DevCardPlayedState /\
    v_state v' = v_state v /\
    v_board v' = v_board v /\
    _cur_player (v_game v') = _cur_player (v_game v) /\
    _cur_turn (v_game v') = _cur_turn (v_game v) /\
    undo_stack (v_manager v') = c :: undo_stack (v_manager v) /\
    redo_stack (v_manager v') = [].

Section CitiesAndCards.

Variable E : Externals.

(** The resources a card names, and the calls on the log sink
    [self.catanlog] these methods make (catanlog is not among the
    sources). *)
Variable Resource : Type.
Variable log_buys_city : Player -> string -> M unit.
Variable log_buys_dev_card : Player -> M unit.
Variable log_plays_monopoly : Player -> Resource -> M unit.
Variable log_plays_year_of_plenty : Player -> Resource -> Resource -> M unit.
Variable log_plays_road_builder : Player -> string -> string -> M unit.
Variable log_plays_victory_point : Player -> M unit.

(** [Game.buy_city(node)] *)
Definition buy_city (self : loc) (node : Z) : M unit :=
  p <- get_cur_player self ;;
  let piece := {| ptype := PieceType.city; owner := Some p |} in
  g <- get_game self ;;
  place_piece E self (board g) piece node ;;;
  p' <- get_cur_player self ;;
  log_buys_city p' (location E NODE node) ;;;
  st <- new_state GameStateDuringTurnAfterRoll self ;;
  set_state E self st.



(** [Game.play_monopoly(resource)], before the wrapping. *)
Definition play_monopoly_body (resource : Resource) (self : loc) : M unit :=
  p <- get_cur_player self ;;
  log_plays_monopoly p resource ;;;
  d <- new_dev_card_state DevCardPlayedState ;;
  set_dev_card_state self d.

Definition play_monopoly (self : loc) (resource : Resource) : M unit :=
  undoable (play_monopoly_body resource) self.

(** [Game.play_year_of_plenty(resource1, resource2)], before the wrapping. *)
Definition play_year_of_plenty_body (resource1 resource2 : Resource) (self : loc)
  : M unit :=
  p <- get_cur_player self ;;
  log_plays_year_of_plenty p resource1 resource2 ;;;
  d <- new_dev_card_state DevCardPlayedState ;;
  set_dev_card_state self d.

Definition play_year_of_plenty (self : loc) (resource1 resource2 : Resource) : M unit :=
  undoable (play_year_of_plenty_body resource1 resource2) self.

(** [Game.play_road_builder(edge1, edge2)], before the wrapping. *)
Definition play_road_builder_body (edge1 edge2 : Z) (self : loc) : M unit :=
  p <- get_cur_player self ;;
  log_plays_road_builder p (location E EDGE edge1) (location E EDGE edge2) ;;;
  d <- new_dev_card_state DevCardPlayedState ;;
  set_dev_card_state self d.

Definition play_road_builder (self : loc) (edge1 edge2 : Z) : M unit :=
  undoable (play_road_builder_body edge1 edge2) self.

(** [Game.play_victory_point], before the wrapping. *)
Definition play_victory_point_body (self : loc) : M unit :=
  p <- get_cur_player self ;;
  log_plays_victory_point p ;;;
  d <- new_dev_card_state DevCardPlayedState ;;
  set_dev_card_state self d.

Definition play_victory_point (self : loc) : M unit :=
  undoable play_victory_point_body self.

End CitiesAndCards.

(** The example externals with a board that refuses negative coordinates,
    and a log sink that records nothing. *)
Module Strict.

Definition externals : Externals :=
  {| nodes_touching_tile := nodes_touching_tile Sample.externals;
     tile_id_from_coord := tile_id_from_coord Sample.externals;
     location := location Sample.externals;
     next_player := next_player Sample.externals;
     can_end_game := can_end_game Sample.externals;
     state_place_settlement := state_place_settlement Sample.externals;
     state_place_road := state_place_road Sample.externals;
     placement_allowed := fun _ _ coord => 0 <=? coord;
     board_callbacks := board_callbacks Sample.externals;
     tally_resources := tally_resources Sample.externals;
     get_random_assignment := get_random_assignment Sample.externals;
     get_best_assignment := get_best_assignment Sample.externals |}.

Definition silent {A : Type} (_ : A) : M unit := emit [].

Definition silent2 {A B : Type} (_ : A) (_ : B) : M unit := emit [].

Definition silent3 {A B C : Type} (_ : A) (_ : B) (_ : C) : M unit := emit [].

End Strict.

(** * Proofs *)

(** ** Strings and players *)

Lemma lower_char_not_upper (c : ascii) : PyStr.is_upper (PyStr.lower_char c) = false.
Proof. destruct c as [[] [] [] [] [] [] [] []]; reflexivity. Qed.

Lemma lower_char_idem (c : ascii) :
  PyStr.lower_char (PyStr.lower_char c) = PyStr.lower_char c.
Proof. destruct c as [[] [] [] [] [] [] [] []]; reflexivity. Qed.

Lemma lower_char_space (c : ascii) :
  PyStr.lower_char c = " "%char -> c = " "%char.
Proof. destruct c as [[] [] [] [] [] [] [] []]; vm_compute; congruence. Qed.

Lemma occurs_remove_spaces (c : ascii) (s : string) :
  PyStr.occurs c (PyStr.remove_spaces s) <-> PyStr.occurs c s /\ c <> " "%char.
Proof.
  induction s as [|d s IH]; simpl.
  - tauto.
  - destruct (Ascii.eqb_spec d " "%char) as [->|Hd]; simpl.
    + rewrite IH. split.
      * intros [H1 H2]. auto.
      * intros [[H1|H1] H2]; [congruence | auto].
    + rewrite IH. split.
      * intros [->|[H1 H2]]; auto.
      * intros [[H1|H1] H2]; auto.
Qed.

Lemma occurs_lower (c : ascii) (s : string) :
  PyStr.occurs c (PyStr.lower s) -> PyStr.is_upper c = false.
Proof.
  induction s as [|d s IH]; simpl.
  - tauto.
  - intros [->|H]; [apply lower_char_not_upper | auto].
Qed.

Lemma lower_idem (s : string) : PyStr.lower (PyStr.lower s) = PyStr.lower s.
Proof.
  induction s as [|d s IH]; simpl; [reflexivity|].
  now rewrite lower_char_idem, IH.
Qed.

Lemma lower_remove_spaces (s : string) :
  PyStr.lower (PyStr.remove_spaces s) = PyStr.remove_spaces (PyStr.lower s).
Proof.
  induction s as [|d s IH]; simpl; [reflexivity|].
  destruct (Ascii.eqb_spec d " "%char) as [->|Hd]; simpl.
  - exact IH.
  - destruct (Ascii.eqb_spec (PyStr.lower_char d) " "%char) as [He|He].
    + apply lower_char_space in He. contradiction.
    + simpl. now rewrite IH.
Qed.

Lemma remove_spaces_idem (s : string) :
  PyStr.remove_spaces (PyStr.remove_spaces s) = PyStr.remove_spaces s.
Proof.
  induction s as [|d s IH]; simpl; [reflexivity|].
  destruct (Ascii.eqb d " "%char) eqn:Hd; simpl; [exact IH|].
  now rewrite Hd, IH.
Qed.

Lemma normalize_idem (s : string) : normalize (normalize s) = normalize s.
Proof.
  unfold normalize.
  now rewrite lower_remove_spaces, lower_idem, remove_spaces_idem.
Qed.

Lemma normalize_chars (c : ascii) (s : string) :
  PyStr.occurs c (normalize s) -> c <> " "%char /\ PyStr.is_upper c = false.
Proof.
  unfold normalize. rewrite occurs_remove_spaces.
  intros [H1 H2]. split; [exact H2 | eapply occurs_lower; eauto].
Qed.

Lemma seat_in_range (s : Z) : 1 <= s <= 4 -> (1 <=? s) && (s <=? 4) = true.
Proof. intros H. apply andb_true_iff. split; apply Z.leb_le; lia. Qed.

Lemma seat_out_of_range (s : Z) : ~ 1 <= s <= 4 -> (1 <=? s) && (s <=? 4) = false.
Proof.
  intros H. apply andb_false_iff.
  destruct (Z.leb_spec 1 s), (Z.leb_spec s 4); auto; lia.
Qed.

(** A Player that [__init__] built is rebuilt unchanged from its attributes. *)
Lemma Player_init_valid (p : Player) :
  valid_player p -> Player_init (seat p) (name p) (color p) = Ok p.
Proof.
  intros (Hs & Hn & Hc). unfold Player_init.
  rewrite (seat_in_range _ Hs). simpl. rewrite Hn, Hc. now destruct p.
Qed.

Lemma Player_init_Ok (s : Z) (n c : string) (p : Player) :
  Player_init s n c = Ok p ->
  valid_player p /\ seat p = s /\ name p = normalize n /\ color p = normalize c.
Proof.
  unfold Player_init.
  destruct ((1 <=? s) && (s <=? 4)) eqn:Hs; simpl; [|discriminate].
  intros [= <-]. apply andb_true_iff in Hs as [H1 H2].
  apply Z.leb_le in H1, H2.
  repeat split; simpl; try lia; apply normalize_idem.
Qed.

Lemma Player_eq_triple (p q : Player) :
  Player_eq p (PyPlayer q) = true <->
  seat p = seat q /\ name p = name q /\ color p = color q.
Proof.
  unfold Player_eq. rewrite !andb_true_iff, !String.eqb_eq, Z.eqb_eq. tauto.
Qed.

Lemma Player_eq_true (p q : Player) : Player_eq p (PyPlayer q) = true <-> p = q.
Proof.
  rewrite Player_eq_triple. split.
  - intros (Hs & Hn & Hc). destruct p, q; simpl in *; congruence.
  - intros ->. auto.
Qed.

Lemma nobody_valid : valid_player nobody.
Proof. repeat split; simpl; try lia; reflexivity. Qed.

Lemma cur_player_of_valid (g : Game) : cur_ok g -> valid_player (cur_player_of g).
Proof.
  unfold cur_ok, cur_player_of. destruct (_cur_player g); [auto|].
  intros _. apply nobody_valid.
Qed.

(** C8: constructing a Player with a seat outside 1..4 fails with the
    exception of line 603 (InvalidPlayer in the design's taxonomy);
    with a seat in 1..4 it succeeds, keeps the seat, and stores the name
    and the color lowercased with the spaces removed, so that no space and
    no upper-case letter is left in them. *)
Theorem Player_init_seat_range (s : Z) (n c : string) :
  (~ 1 <= s <= 4 -> Player_init s n c = Err InvalidPlayer) /\
  (1 <= s <= 4 ->
   exists p, Player_init s n c = Ok p /\
     seat p = s /\
     name p = PyStr.remove_spaces (PyStr.lower n) /\
     color p = PyStr.remove_spaces (PyStr.lower c) /\
     (forall x, PyStr.occurs x (name p) \/ PyStr.occurs x (color p) ->
                x <> " "%char /\ PyStr.is_upper x = false)).
Proof.
  unfold Player_init. split.
  - intros H. now rewrite (seat_out_of_range _ H).
  - intros H. rewrite (seat_in_range _ H). simpl.
    eexists. split; [reflexivity|]. simpl.
    split; [reflexivity|]. split; [reflexivity|]. split; [reflexivity|].
    intros x [Hx|Hx]; apply normalize_chars in Hx; exact Hx.
Qed.

Lemma Player_init_seat_range_witness :
  Player_init 5 "Abdur" "Green" = Err InvalidPlayer /\
  Player_init 0 "Abdur" "Green" = Err InvalidPlayer /\
  exists p, Player_init 2 "Q Learn" "Blue" = Ok p /\
     seat p = 2 /\
     name p = PyStr.remove_spaces (PyStr.lower "Q Learn") /\
     color p = PyStr.remove_spaces (PyStr.lower "Blue") /\
     (forall x, PyStr.occurs x (name p) \/ PyStr.occurs x (color p) ->
                x <> " "%char /\ PyStr.is_upper x = false).
Proof.
  split; [| split].
  - apply (proj1 (Player_init_seat_range 5 "Abdur" "Green")). lia.
  - apply (proj1 (Player_init_seat_range 0 "Abdur" "Green")). lia.
  - apply (proj2 (Player_init_seat_range 2 "Q Learn" "Blue")). lia.
Defined.

Example Player_init_debug_player :
  Player_init 2 "Qlearn" "blue" = Ok {| seat := 2; name := "qlearn"; color := "blue" |}.
Proof. reflexivity. Qed.

(** C9: two Players are equal exactly when their seats, names and colors
    are equal (for Players built by [__init__]: the seats given and the
    normalized names and colors); a Player equals neither None nor an
    object of another class; equal Players have equal hashes, and the hash
    is determined by the triple (seat, name, color). *)
Theorem Player_eq_hash_by_triple (p q : Player) :
  (Player_eq p (PyPlayer q) = true <->
     seat p = seat q /\ name p = name q /\ color p = color q) /\
  (forall s1 n1 c1 s2 n2 c2,
     Player_init s1 n1 c1 = Ok p -> Player_init s2 n2 c2 = Ok q ->
     (Player_eq p (PyPlayer q) = true <->
        s1 = s2 /\ normalize n1 = normalize n2 /\ normalize c1 = normalize c2)) /\
  (Player_eq p (PyPlayer q) = true -> Player_hash p = Player_hash q) /\
  (seat p = seat q -> name p = name q -> color p = color q ->
     Player_hash p = Player_hash q) /\
  Player_eq p PyNone = false /\ Player_eq p PyOther = false.
Proof.
  split; [apply Player_eq_triple|]. split; [| split; [| split; [| split]]].
  - intros s1 n1 c1 s2 n2 c2 Hp Hq.
    apply Player_init_Ok in Hp as (_ & <- & Hn1 & Hc1).
    apply Player_init_Ok in Hq as (_ & <- & Hn2 & Hc2).
    rewrite Player_eq_triple, Hn1, Hc1, Hn2, Hc2. tauto.
  - intros H. apply Player_eq_triple in H as (_ & Hn & Hc).
    unfold Player_hash, Player_repr. now rewrite Hn, Hc.
  - intros _ Hn Hc. unfold Player_hash, Player_repr. now rewrite Hn, Hc.
  - reflexivity.
  - reflexivity.
Qed.

Lemma Player_eq_hash_by_triple_witness :
  Player_eq (mkPlayer 2 "qlearn" "blue") (PyPlayer (mkPlayer 2 "qlearn" "blue")) = true /\
  Player_hash (mkPlayer 2 "qlearn" "blue") = Player_hash (mkPlayer 2 "qlearn" "blue") /\
  (Player_eq (mkPlayer 2 "qlearn" "blue") (PyPlayer (mkPlayer 2 "qlearn" "blue")) = true <->
   2 = 2 /\ normalize "Q learn" = normalize "QLearn" /\ normalize "Blue" = normalize "blue").
Proof.
  pose proof (Player_eq_hash_by_triple (mkPlayer 2 "qlearn" "blue")
                (mkPlayer 2 "qlearn" "blue")) as (Heq & Hinit & Hhash & _).
  assert (He : Player_eq (mkPlayer 2 "qlearn" "blue")
                 (PyPlayer (mkPlayer 2 "qlearn" "blue")) = true).
  { apply Heq. simpl. repeat split; reflexivity. }
  split; [exact He|]. split; [exact (Hhash He)|].
  apply (Hinit 2 "Q learn"%string "Blue"%string 2 "QLearn"%string "blue"%string);
    reflexivity.
Defined.

(** The hash does not read the seat, and a hash says nothing of the seat. *)
Example Player_hash_ignores_seat :
  Player_hash (mkPlayer 1 "abdur" "green") = Player_hash (mkPlayer 3 "abdur" "green") /\
  Player_eq (mkPlayer 1 "abdur" "green") (PyPlayer (mkPlayer 3 "abdur" "green")) = false /\
  Player_hash (mkPlayer 1 "abdur" "green") = 1168.
Proof. repeat split; reflexivity. Qed.

(** ** The monad and the heap *)

Lemma bind_ok {A B} (m : M A) (k : A -> M B) (w w' : World) (a : A) :
  m w = (Ok a, w') -> bind m k w = k a w'.
Proof. intros H. unfold bind. now rewrite H. Qed.

Lemma bind_err {A B} (m : M A) (k : A -> M B) (w w' : World) (e : exn) :
  m w = (Err e, w') -> bind m k w = (Err e, w').
Proof. intros H. unfold bind. now rewrite H. Qed.

(** Two references that hold objects of different classes are different. *)
Lemma kind_ne (h : list obj) (a b : loc) (oa ob : obj) :
  h !! a = Some oa -> h !! b = Some ob -> kind oa <> kind ob -> a <> b.
Proof. intros Ha Hb Hk ->. congruence. Qed.

Lemma load_eq (l : loc) (w : World) (o : obj) :
  heap w !! l = Some o -> load l w = (Ok o, w).
Proof. intros H. unfold load. now rewrite H. Qed.

Lemma get_game_eq (l : loc) (w : World) (g : Game) :
  heap w !! l = Some (OGame g) -> get_game l w = (Ok g, w).
Proof. intros H. unfold get_game. now rewrite (bind_ok _ _ _ _ _ (load_eq _ _ _ H)). Qed.

Lemma get_set_eq (l : loc) (w : World) (ms : list observer) :
  heap w !! l = Some (OSet ms) -> get_set l w = (Ok ms, w).
Proof. intros H. unfold get_set. now rewrite (bind_ok _ _ _ _ _ (load_eq _ _ _ H)). Qed.

Lemma get_manager_eq (l : loc) (w : World) (m : UndoManager) :
  heap w !! l = Some (OManager m) -> get_manager l w = (Ok m, w).
Proof. intros H. unfold get_manager. now rewrite (bind_ok _ _ _ _ _ (load_eq _ _ _ H)). Qed.

Lemma get_board_eq (l : loc) (w : World) (b : Board) :
  heap w !! l = Some (OBoard b) -> get_board l w = (Ok b, w).
Proof. intros H. unfold get_board. now rewrite (bind_ok _ _ _ _ _ (load_eq _ _ _ H)). Qed.

Lemma get_list_eq (l : loc) (w : World) (ps : list Player) :
  heap w !! l = Some (OList ps) -> get_list l w = (Ok ps, w).
Proof. intros H. unfold get_list. now rewrite (bind_ok _ _ _ _ _ (load_eq _ _ _ H)). Qed.

Lemma get_options_eq (l : loc) (w : World) (v : option string) :
  heap w !! l = Some (OOptions v) -> get_options l w = (Ok v, w).
Proof. intros H. unfold get_options. now rewrite (bind_ok _ _ _ _ _ (load_eq _ _ _ H)). Qed.

Lemma get_state_eq (r : option loc) (l : loc) (w : World) (s : GameState) (bk : loc) :
  r = Some l ->
  heap w !! l = Some (OState s bk) -> get_state r w = (Ok (s, bk), w).
Proof.
  intros -> H. unfold get_state. now rewrite (bind_ok _ _ _ _ _ (load_eq _ _ _ H)).
Qed.

Lemma setattr_eq (self : loc) (upd : Game -> Game) (w : World) (g : Game) :
  heap w !! self = Some (OGame g) ->
  setattr self upd w =
    (Ok tt, {| heap := <[self := OGame (upd g)]> (heap w); trace := trace w |}).
Proof.
  intros H. unfold setattr. now rewrite (bind_ok _ _ _ _ _ (get_game_eq _ _ _ H)).
Qed.

Lemma deepcopy_eq (l : loc) (w : World) (o : obj) :
  heap w !! l = Some o -> leaf o ->
  deepcopy l w = (Ok (length (heap w)), {| heap := heap w ++ [o]; trace := trace w |}).
Proof.
  intros H Hl. unfold deepcopy.
  rewrite (bind_ok _ _ _ _ _ (load_eq _ _ _ H)).
  destruct o; simpl in Hl; try contradiction; reflexivity.
Qed.

Lemma deepcopy_opt_eq (l : loc) (w : World) (o : obj) :
  heap w !! l = Some o -> leaf o ->
  deepcopy_opt (Some l) w =
    (Ok (Some (length (heap w))), {| heap := heap w ++ [o]; trace := trace w |}).
Proof.
  intros H Hl. unfold deepcopy_opt.
  now rewrite (bind_ok _ _ _ _ _ (deepcopy_eq _ _ _ H Hl)).
Qed.

Lemma notify_observers_eq (self : loc) (w : World) (g : Game) (ms : list observer) :
  heap w !! self = Some (OGame g) ->
  heap w !! observers g = Some (OSet ms) ->
  notify_observers self w =
    (Ok tt, {| heap := heap w; trace := trace w ++ notify_events self ms |}).
Proof.
  intros Hg Hs. unfold notify_observers.
  rewrite (bind_ok _ _ _ _ _ (get_game_eq _ _ _ Hg)).
  now rewrite (bind_ok _ _ _ _ _ (get_set_eq _ _ _ Hs)).
Qed.

Lemma times_notify_eq (n : nat) (self : loc) (w : World) (g : Game) (ms : list observer) :
  heap w !! self = Some (OGame g) ->
  heap w !! observers g = Some (OSet ms) ->
  times n (notify self) w =
    (Ok tt, {| heap := heap w; trace := trace w ++ notify_rounds n self ms |}).
Proof.
  revert w. induction n as [|n IH]; intros w Hg Hs; simpl.
  - unfold ret. rewrite app_nil_r. now destruct w.
  - unfold notify.
    rewrite (bind_ok _ _ _ _ _ (notify_observers_eq _ _ _ _ Hg Hs)).
    rewrite IH by assumption. simpl. now rewrite app_assoc.
Qed.

Lemma board_changed_eq E (op : board_op) (self : loc) (w : World)
    (g : Game) (ms : list observer) :
  heap w !! self = Some (OGame g) ->
  heap w !! observers g = Some (OSet ms) ->
  board_changed E self op w =
    (Ok tt, {| heap := heap w;
               trace := trace w ++ notify_rounds (board_callbacks E op) self ms |}).
Proof. apply times_notify_eq. Qed.

Lemma get_cur_player_eq (self : loc) (w : World) (g : Game) :
  heap w !! self = Some (OGame g) -> cur_ok g ->
  get_cur_player self w = (Ok (cur_player_of g), w).
Proof.
  intros Hg Hok. unfold get_cur_player.
  rewrite (bind_ok _ _ _ _ _ (get_game_eq _ _ _ Hg)).
  unfold cur_ok, cur_player_of in *. destruct (_cur_player g) as [p|].
  - now rewrite (Player_init_valid p Hok).
  - reflexivity.
Qed.

Lemma set_cur_player_eq (self : loc) (p : Player) (w : World) (g : Game) :
  heap w !! self = Some (OGame g) ->
  valid_player p ->
  set_cur_player self p w =
    (Ok tt,
     {| heap := <[self := OGame (with_cur_player (Some p) g)]> (heap w);
        trace := trace w |}).
Proof.
  intros Hg Hp. unfold set_cur_player.
  rewrite (Player_init_valid p Hp). unfold lift.
  erewrite bind_ok by reflexivity.
  now apply setattr_eq.
Qed.

(** ** Views *)

Lemma view_Viewed (h : list obj) (self : loc) (v : View) :
  view h self = Some v -> Viewed h self v.
Proof.
  unfold view. intros H.
  repeat match type of H with
         | match ?x with _ => _ end = _ => destruct x eqn:?; try discriminate H
         end.
  injection H as <-. constructor; simpl; assumption.
Qed.

Lemma Viewed_view (h : list obj) (self : loc) (v : View) :
  Viewed h self v -> view h self = Some v.
Proof.
  intros [H1 H2 H3 H4 H5 H6 H7 H8 H9 H10 H11 H12 H13 H14]. unfold view.
  rewrite H1, H2, H3, H4, H5, H6, H7, H8, H9, H11, H10, H12, H13, H14.
  now destruct v.
Qed.

(** ** Symbolic execution of methods

    A method is run on a heap written as updates and extensions of a heap
    [h] about which the context holds the facts [h !! l = Some o] of a
    view.  [heap_lookup] reads such a heap, [mstep] runs the first call of
    a method body and [view_intro] rebuilds the view afterwards. *)

Ltac proj_simpl :=
  cbn [heap trace fst snd
       observers undo_manager options players board robber catanlog state
       dev_card_state _cur_player last_roll last_player_to_roll _cur_turn
       robber_tile terrain_to_tiles player_to_resources
       with_observers with_options with_players with_robber with_catanlog
       with_state with_dev_card_state with_cur_player with_last_roll
       with_last_player_to_roll with_cur_turn with_robber_tile
       with_player_to_resources
       v_game v_observers v_manager v_options v_players v_board v_robber
       v_catanlog v_state_ref v_state v_state_game v_dev_ref v_dev_card_state
       v_terrain_to_tiles v_player_to_resources
       snapshot_game snapshot_view restored_game restored_view
       with_v_manager with_v_board end_view].

Ltac proj_simpl_all :=
  cbn [heap trace fst snd
       observers undo_manager options players board robber catanlog state
       dev_card_state _cur_player last_roll last_player_to_roll _cur_turn
       robber_tile terrain_to_tiles player_to_resources
       with_observers with_options with_players with_robber with_catanlog
       with_state with_dev_card_state with_cur_player with_last_roll
       with_last_player_to_roll with_cur_turn with_robber_tile
       with_player_to_resources
       v_game v_observers v_manager v_options v_players v_board v_robber
       v_catanlog v_state_ref v_state v_state_game v_dev_ref v_dev_card_state
       v_terrain_to_tiles v_player_to_resources
       snapshot_game snapshot_view restored_game restored_view
       with_v_manager with_v_board end_view] in *.

(** The facts of a view, attribute by attribute. *)
Ltac view_inv H :=
  let HV := fresh "HV" in
  pose proof (view_Viewed _ _ _ H) as HV;
  destruct HV as [? ? ? ? ? ? ? ? ? ? ? ? ? ?];
  proj_simpl_all.

(** Bounds on references: every reference read in [h] is below its length. *)
Ltac heap_len :=
  repeat match goal with
         | H : _ !! _ = Some _ |- _ => apply lookup_lt_Some in H
         end;
  repeat match goal with
         | H : context [length (<[_ := _]> _)] |- _ => rewrite length_insert in H
         | H : context [length (_ ++ _)] |- _ => rewrite length_app in H
         end;
  repeat (rewrite length_insert || rewrite length_app); simpl length in *; lia.

Ltac heap_ne :=
  first
    [ assumption
    | apply not_eq_sym; assumption
    | eapply kind_ne; [eassumption | eassumption | simpl; discriminate]
    | heap_len ].

Ltac heap_lookup :=
  proj_simpl;
  lazymatch goal with
  | |- (<[?l1 := ?o1]> ?h1) !! ?l = _ =>
      first
        [ rewrite (list_lookup_insert_eq h1 l1 o1) by heap_len; reflexivity
        | rewrite (list_lookup_insert_ne h1 l1 l o1) by heap_ne; heap_lookup ]
  | |- (?h1 ++ ?ext) !! ?l = _ =>
      first
        [ rewrite (lookup_app_l h1 ext l) by heap_len; heap_lookup
        | rewrite (lookup_app_r h1 ext l) by heap_len;
          first [ replace (l - length h1)%nat with 0%nat by heap_len
                | replace (l - length h1)%nat with 1%nat by heap_len
                | replace (l - length h1)%nat with 2%nat by heap_len
                | replace (l - length h1)%nat with 3%nat by heap_len
                | replace (l - length h1)%nat with 4%nat by heap_len
                | replace (l - length h1)%nat with 5%nat by heap_len
                | replace (l - length h1)%nat with 6%nat by heap_len
                | replace (l - length h1)%nat with 7%nat by heap_len
                | replace (l - length h1)%nat with 8%nat by heap_len
                | replace (l - length h1)%nat with 9%nat by heap_len ];
          reflexivity ]
  | |- _ => eassumption
  end.

(** Calls of methods that have an equation of their own; extended below. *)
Ltac solve_method := fail.

Ltac solve_call :=
  first [ solve_method | solve_prim ]
with solve_prim :=
  lazymatch goal with
  | |- get_game _ _ = _ => eapply get_game_eq; heap_lookup
  | |- get_set _ _ = _ => eapply get_set_eq; heap_lookup
  | |- get_manager _ _ = _ => eapply get_manager_eq; heap_lookup
  | |- get_board _ _ = _ => eapply get_board_eq; heap_lookup
  | |- get_list _ _ = _ => eapply get_list_eq; heap_lookup
  | |- get_options _ _ = _ => eapply get_options_eq; heap_lookup
  | |- get_state _ _ = _ =>
      eapply get_state_eq; [first [reflexivity | eassumption] | heap_lookup]
  | |- setattr _ _ _ = _ => eapply setattr_eq; heap_lookup
  | |- deepcopy _ _ = _ => eapply deepcopy_eq; [heap_lookup | exact I]
  | |- deepcopy_opt _ _ = _ => eapply deepcopy_opt_eq; [heap_lookup | exact I]
  | |- notify_observers _ _ = _ =>
      eapply notify_observers_eq; [heap_lookup | heap_lookup]
  | |- board_changed _ _ _ _ = _ =>
      eapply board_changed_eq; [heap_lookup | heap_lookup]
  | |- get_cur_player _ _ = _ =>
      eapply get_cur_player_eq; [heap_lookup | proj_simpl; assumption]
  | |- bind _ _ _ = _ =>
      erewrite bind_ok; [ | solve_call ]; cbv beta; proj_simpl; solve_call
  | |- _ => reflexivity
  end.

(** Run the first call of the method body in the goal. *)
Ltac mstep :=
  erewrite bind_ok; [ | solve_call ]; cbv beta; proj_simpl.

Ltac view_intro :=
  apply Viewed_view; constructor;
  (proj_simpl;
   lazymatch goal with
   | |- _ !! _ = _ => heap_lookup
   | |- _ => first [ reflexivity | eassumption ]
   end).

(** A view to be found by [view_intro]. *)
Ltac view_exists :=
  eexists; refine (ex_intro _ (mkView _ _ _ _ _ _ _ _ _ _ _ _ _ _ _) _).

Ltac get_view W self H :=
  eassert (H : view (heap W) self = Some (mkView _ _ _ _ _ _ _ _ _ _ _ _ _ _ _))
    by (proj_simpl; view_intro).

(** ** set_state, set_dev_card_state *)

Lemma set_state_eq E (self st : loc) (w : World) (g : Game) (s : GameState)
    (bk : loc) (b : Board) (ms : list observer) :
  heap w !! self = Some (OGame g) ->
  heap w !! st = Some (OState s bk) ->
  heap w !! board g = Some (OBoard b) ->
  heap w !! observers g = Some (OSet ms) ->
  set_state E self st w =
    (Ok tt,
     {| heap := <[board g := OBoard (with_locked (is_in_game s) b)]>
                  (<[self := OGame (with_state (Some st) g)]> (heap w));
        trace := trace w
                 ++ notify_rounds
                      (board_callbacks E (if is_in_game s then op_lock else op_unlock))
                      self ms
                 ++ notify_events self ms |}).
Proof.
  intros Hg Hst Hb Hms. unfold set_state.
  do 3 mstep.
  destruct (is_in_game s); unfold Board_lock, Board_unlock.
  - mstep.
    erewrite notify_observers_eq by heap_lookup. simpl. now rewrite <- app_assoc.
  - mstep.
    erewrite notify_observers_eq by heap_lookup. simpl. now rewrite <- app_assoc.
Qed.

Lemma set_dev_card_state_eq (self d : loc) (w : World) (g : Game) (ms : list observer) :
  heap w !! self = Some (OGame g) ->
  heap w !! observers g = Some (OSet ms) ->
  set_dev_card_state self d w =
    (Ok tt,
     {| heap := <[self := OGame (with_dev_card_state (Some d) g)]> (heap w);
        trace := trace w ++ notify_events self ms |}).
Proof.
  intros Hg Hms. unfold set_dev_card_state.
  mstep. erewrite notify_observers_eq by heap_lookup. reflexivity.
Qed.

Ltac solve_method ::=
  lazymatch goal with
  | |- set_state _ _ _ _ = _ =>
      eapply set_state_eq; [heap_lookup | heap_lookup | heap_lookup | heap_lookup]
  | |- set_dev_card_state _ _ _ = _ =>
      eapply set_dev_card_state_eq; [heap_lookup | heap_lookup]
  end.

(** ** Snapshots: copy and restore *)

(** [copy] extends the heap with the snapshot cells and changes nothing else. *)
Lemma copy_eq (self : loc) (w : World) (v : View) :
  view (heap w) self = Some v ->
  copy self w =
    (Ok (length (heap w)),
     {| heap := heap w ++ snapshot_cells v (length (heap w)); trace := trace w |}).
Proof.
  intros Hv. view_inv Hv. unfold copy, __deepcopy__.
  do 9 mstep.
  match goal with H : dev_card_state _ = Some _ |- _ => rewrite H end.
  do 4 mstep.
  unfold ret. f_equal. f_equal.
  rewrite !length_app. simpl length.
  rewrite <- !app_assoc. simpl app.
  rewrite insert_app_r_alt by lia. rewrite Nat.sub_diag. simpl.
  unfold snapshot_cells, snapshot_game.
  repeat (f_equal; try lia).
Qed.

Lemma view_app (h ext : list obj) (self : loc) (v : View) :
  view h self = Some v -> view (h ++ ext) self = Some v.
Proof. intros Hv. view_inv Hv. view_intro. Qed.

Lemma view_snapshot (h : list obj) (self : loc) (v : View) :
  view h self = Some v ->
  view (h ++ snapshot_cells v (length h)) (length h) = Some (snapshot_view v (length h)).
Proof. intros Hv. view_inv Hv. unfold snapshot_cells. view_intro. Qed.

(** The references of a snapshot: those of [state] and [undo_manager] are
    the live Game's, every other one is new. *)
Lemma attr_ref_snapshot (h : list obj) (self : loc) (v : View) (a : attr) :
  view h self = Some v ->
  attr_ref a (snapshot_game v (length h)) = attr_ref a (v_game v)
  <-> a = a_state \/ a = a_undo_manager.
Proof.
  intros Hv. view_inv Hv.
  repeat match goal with
         | H : _ !! _ = Some _ |- _ => apply lookup_lt_Some in H
         end.
  split.
  - destruct a; simpl; auto; intros [= Heq]; try lia.
    match goal with H : dev_card_state _ = Some _ |- _ => rewrite H in Heq end.
    injection Heq as Heq. lia.
  - intros [->| ->]; reflexivity.
Qed.

Lemma attr_obj_snapshot (h : list obj) (self : loc) (v : View) (a : attr) :
  view h self = Some v ->
  a <> a_state -> a <> a_undo_manager ->
  exists l,
    attr_ref a (snapshot_game v (length h)) = Some l /\
    (length h <= l)%nat /\
    attr_obj (h ++ snapshot_cells v (length h)) a (snapshot_game v (length h))
      = attr_obj h a (v_game v).
Proof.
  intros Hv Hs Hu. view_inv Hv.
  destruct a; try contradiction; unfold attr_obj; simpl;
    (eexists; split; [reflexivity|]; split; [lia|]);
    try match goal with H : dev_card_state _ = Some _ |- _ => rewrite H end;
    rewrite lookup_app_r by lia;
    match goal with
    | |- _ !! ?i = _ =>
        first [ replace i with 1%nat by lia | replace i with 2%nat by lia
              | replace i with 3%nat by lia | replace i with 4%nat by lia
              | replace i with 5%nat by lia | replace i with 6%nat by lia
              | replace i with 7%nat by lia | replace i with 8%nat by lia
              | replace i with 9%nat by lia ]
    end;
    simpl; symmetry; assumption.
Qed.

Lemma restore_spec E (self snap : loc) (w : World) (v vs : View) :
  view (heap w) self = Some v ->
  view (heap w) snap = Some vs ->
  exists w',
    restore E self snap w = (Ok tt, w') /\
    view (heap w') self = Some (restored_view self v vs) /\
    trace w' = trace w
               ++ notify_rounds (board_callbacks E op_restore) self (v_observers vs)
               ++ notify_events self (v_observers vs).
Proof.
  intros Hv Hs. view_inv Hv. view_inv Hs. unfold restore, Board_restore.
  eexists. split.
  - do 8 mstep.
    match goal with H : state (v_game vs) = Some _ |- _ => rewrite H end.
    do 9 mstep.
    erewrite notify_observers_eq by heap_lookup. reflexivity.
  - proj_simpl. split; [| now rewrite <- app_assoc].
    match goal with H : state (v_game vs) = Some _ |- _ => rewrite <- H end.
    view_intro.
Qed.

(** ** The undo/redo engine *)

Lemma UndoManager_do_eq (um self : loc) (action : M unit) (w w2 : World) (v v2 : View) :
  view (heap w) self = Some v ->
  action {| heap := body_heap (heap w) v; trace := trace w |} = (Ok tt, w2) ->
  view (heap w2) self = Some v2 ->
  um = undo_manager (v_game v2) ->
  UndoManager_do um self action w =
    (Ok tt,
     {| heap := <[um := OManager
                          {| undo_stack :=
                               mkCommand self (length (heap w)) (length (heap w2))
                               :: undo_stack (v_manager v2);
                             redo_stack := [] |}]>
                  (heap w2 ++ snapshot_cells v2 (length (heap w2)));
        trace := trace w2 |}).
Proof.
  intros Hv Hact Hv2 ->. unfold UndoManager_do.
  erewrite bind_ok by (apply copy_eq; eassumption). cbv beta.
  erewrite bind_ok by (exact Hact). cbv beta.
  erewrite bind_ok by (apply copy_eq; eassumption). cbv beta.
  view_inv Hv2.
  mstep. reflexivity.
Qed.

(** A method wrapped by [undoable] leaves the Game as its body left it,
    pushes one command and notifies the observers once more. *)
Lemma do_spec (self : loc) (action : M unit) (w w2 : World) (v v2 : View) :
  view (heap w) self = Some v ->
  action {| heap := body_heap (heap w) v; trace := trace w |} = (Ok tt, w2) ->
  view (heap w2) self = Some v2 ->
  undo_manager (v_game v2) = undo_manager (v_game v) ->
  exists w3,
    do self action w = (Ok tt, w3) /\
    view (heap w3) self =
      Some (with_v_manager
              {| undo_stack := mkCommand self (length (heap w)) (length (heap w2))
                               :: undo_stack (v_manager v2);
                 redo_stack := [] |} v2) /\
    trace w3 = trace w2 ++ notify_events self (v_observers v2).
Proof.
  intros Hv Hact Hv2 Hum. unfold do.
  pose proof Hv as Hv'. view_inv Hv'.
  mstep. rewrite <- Hum.
  erewrite bind_ok
    by (eapply UndoManager_do_eq; [exact Hv | exact Hact | exact Hv2 | reflexivity]).
  cbv beta. clear - Hv2. view_inv Hv2.
  erewrite notify_observers_eq by heap_lookup.
  eexists. split; [reflexivity|]. split; [|reflexivity].
  proj_simpl. view_intro.
Qed.

(** An exception of the body propagates through the wrapper. *)
Lemma do_err (self : loc) (action : M unit) (w w2 : World) (v : View) (e : exn) :
  view (heap w) self = Some v ->
  action {| heap := body_heap (heap w) v; trace := trace w |} = (Err e, w2) ->
  do self action w = (Err e, w2).
Proof.
  intros Hv Hact. pose proof Hv as Hv'. view_inv Hv'.
  unfold do, UndoManager_do. mstep.
  erewrite bind_err; [reflexivity|].
  erewrite bind_ok by (apply copy_eq; eassumption). cbv beta.
  erewrite bind_err by exact Hact. reflexivity.
Qed.

Lemma view_store_manager (h : list obj) (l um : loc) (v : View) (m0 m : UndoManager) :
  view h l = Some v ->
  h !! um = Some (OManager m0) ->
  exists m', view (<[um := OManager m]> h) l = Some (with_v_manager m' v) /\
             (um = undo_manager (v_game v) -> m' = m).
Proof.
  intros Hv Hum. view_inv Hv.
  destruct (decide (um = undo_manager (v_game v))) as [->|Hne].
  - exists m. split; [view_intro | auto].
  - exists (v_manager v). split; [view_intro | contradiction].
Qed.

Lemma UndoManager_undo_spec E (self : loc) (w : World) (v vs : View)
    (c : Command) (rest : list Command) :
  view (heap w) self = Some v ->
  undo_stack (v_manager v) = c :: rest ->
  cmd_obj c = self ->
  view (heap w) (cmd_before c) = Some vs ->
  exists w',
    UndoManager_undo E (undo_manager (v_game v)) w = (Ok tt, w') /\
    view (heap w') self =
      Some (with_v_manager
              {| undo_stack := rest; redo_stack := c :: redo_stack (v_manager v) |}
              (restored_view self v vs)) /\
    trace w' = trace w
               ++ notify_rounds (board_callbacks E op_restore) self (v_observers vs)
               ++ notify_events self (v_observers vs).
Proof.
  intros Hv Hstack Hobj Hs.
  pose proof Hv as Hv'. view_inv Hv'.
  unfold UndoManager_undo.
  mstep. rewrite Hstack, Hobj.
  set (popped := {| undo_stack := rest; redo_stack := redo_stack (v_manager v) |}).
  set (w1 := {| heap := <[undo_manager (v_game v) := OManager popped]> (heap w);
                trace := trace w |}).
  destruct (view_store_manager (heap w) self (undo_manager (v_game v)) v
              (v_manager v) popped Hv ltac:(assumption)) as (m1 & Hv1 & Hm1).
  destruct (view_store_manager (heap w) (cmd_before c) (undo_manager (v_game v)) vs
              (v_manager v) popped Hs ltac:(assumption)) as (m2 & Hs1 & _).
  specialize (Hm1 eq_refl). subst m1.
  destruct (restore_spec E self (cmd_before c) w1 _ _ Hv1 Hs1) as (w2 & Hres & Hv2 & Htr).
  erewrite bind_ok by reflexivity. cbv beta. fold w1.
  erewrite bind_ok by exact Hres. cbv beta.
  clear - Hv2 Htr. view_inv Hv2.
  mstep.
  eexists. split; [reflexivity|]. split; [view_intro | exact Htr].
Qed.

Lemma undo_spec E (self : loc) (w : World) (v vs : View)
    (c : Command) (rest : list Command) :
  view (heap w) self = Some v ->
  undo_stack (v_manager v) = c :: rest ->
  cmd_obj c = self ->
  view (heap w) (cmd_before c) = Some vs ->
  exists w',
    undo E self w = (Ok tt, w') /\
    view (heap w') self =
      Some (with_v_manager
              {| undo_stack := rest; redo_stack := c :: redo_stack (v_manager v) |}
              (restored_view self v vs)) /\
    trace w' = trace w
               ++ notify_rounds (board_callbacks E op_restore) self (v_observers vs)
               ++ notify_events self (v_observers vs)
               ++ notify_events self (v_observers vs).
Proof.
  intros Hv Hstack Hobj Hs.
  destruct (UndoManager_undo_spec E self w v vs c rest Hv Hstack Hobj Hs)
    as (w2 & Hrun & Hv2 & Htr).
  pose proof Hv as Hv'. view_inv Hv'.
  unfold undo. mstep.
  erewrite bind_ok by exact Hrun. cbv beta.
  pose proof Hv2 as Hv2'. view_inv Hv2'.
  erewrite notify_observers_eq by eassumption.
  eexists. split; [reflexivity|]. split; [exact Hv2|].
  simpl. rewrite Htr. now rewrite <- !app_assoc.
Qed.

(** With an empty undo history [undo] fails and notifies nobody. *)
Lemma undo_nothing E (self : loc) (w : World) (v : View) :
  view (heap w) self = Some v ->
  undo_stack (v_manager v) = [] ->
  undo E self w = (Err NothingToUndo, w).
Proof.
  intros Hv Hstack. view_inv Hv. unfold undo, UndoManager_undo.
  mstep. erewrite bind_err; [reflexivity|].
  mstep. rewrite Hstack. now destruct w.
Qed.

(** C1, as the code has it: [Game.copy] returns a new Game object and
    leaves the live Game and the trace untouched.  The snapshot keeps by
    reference exactly the state object and the undo/redo engine; every
    other attribute object (the observer registry, options, players,
    board, robber, log, dev-card state and the two dicts) is a new object
    with equal contents, so the registry is a new set with the same
    members; the current player, the last roll and its roller, the turn
    counter and the robber tile are copied by value.  [Game.restore] keeps
    the restored Game's own undo engine and installs the snapshot's
    observer set: the observers registered afterwards are those of the
    snapshot. *)
Theorem snapshot_policy E (self : loc) :
  (forall (w : World) (v : View),
     view (heap w) self = Some v ->
     exists w' r vs,
       copy self w = (Ok r, w') /\
       trace w' = trace w /\
       view (heap w') self = Some v /\
       view (heap w') r = Some vs /\
       (forall a, attr_ref a (v_game vs) = attr_ref a (v_game v)
                  <-> a = a_state \/ a = a_undo_manager) /\
       (forall a, a <> a_state -> a <> a_undo_manager ->
          exists l, attr_ref a (v_game vs) = Some l /\
                    (length (heap w) <= l)%nat /\
                    attr_obj (heap w') a (v_game vs) = attr_obj (heap w) a (v_game v)) /\
       v_observers vs = v_observers v /\
       v_board vs = v_board v /\
       v_players vs = v_players v /\
       _cur_player (v_game vs) = _cur_player (v_game v) /\
       last_roll (v_game vs) = last_roll (v_game v) /\
       last_player_to_roll (v_game vs) = last_player_to_roll (v_game v) /\
       _cur_turn (v_game vs) = _cur_turn (v_game v) /\
       robber_tile (v_game vs) = robber_tile (v_game v)) /\
  (forall (w : World) (snap : loc) (v vs : View),
     view (heap w) self = Some v ->
     view (heap w) snap = Some vs ->
     exists w' v',
       restore E self snap w = (Ok tt, w') /\
       view (heap w') self = Some v' /\
       undo_manager (v_game v') = undo_manager (v_game v) /\
       v_manager v' = v_manager v /\
       observers (v_game v') = observers (v_game vs) /\
       v_observers v' = v_observers vs).
Proof.
  split.
  - intros w v Hv.
    exists {| heap := heap w ++ snapshot_cells v (length (heap w)); trace := trace w |},
           (length (heap w)), (snapshot_view v (length (heap w))).
    split; [now apply copy_eq|]. split; [reflexivity|].
    split; [now apply view_app|]. split; [now apply (view_snapshot _ self)|].
    split; [intros a; now apply (attr_ref_snapshot _ self)|].
    split; [intros a; now apply (attr_obj_snapshot _ self)|].
    simpl. repeat split; reflexivity.
  - intros w snap v vs Hv Hs.
    destruct (restore_spec E self snap w v vs Hv Hs) as (w' & Hrun & Hv' & _).
    exists w', (restored_view self v vs).
    split; [exact Hrun|]. split; [exact Hv'|]. simpl. tauto.
Qed.

Lemma snapshot_policy_witness :
  (exists v,
     view (heap Sample.in_turn) Sample.self = Some v /\
     exists w' r vs,
       copy Sample.self Sample.in_turn = (Ok r, w') /\
       view (heap w') r = Some vs /\
       attr_ref a_state (v_game vs) = attr_ref a_state (v_game v) /\
       attr_ref a_board (v_game vs) <> attr_ref a_board (v_game v) /\
       v_board vs = v_board v) /\
  (exists v vs,
     view (heap Sample.in_turn) Sample.self = Some v /\
     view (heap Sample.in_turn) 36%nat = Some vs /\
     exists w' v',
       restore Sample.externals Sample.self 36%nat Sample.in_turn = (Ok tt, w') /\
       view (heap w') Sample.self = Some v' /\
       undo_manager (v_game v') = undo_manager (v_game v) /\
       v_observers v' = v_observers vs).
Proof.
  split.
  - eexists. split; [reflexivity|].
    edestruct (proj1 (snapshot_policy Sample.externals Sample.self) Sample.in_turn)
      as (w' & r & vs & Hrun & _ & _ & Hvs & Href & _ & _ & Hb & _);
      [reflexivity|].
    exists w', r, vs. split; [exact Hrun|]. split; [exact Hvs|].
    split; [apply Href; now left|]. split; [| exact Hb].
    intros H. apply Href in H. destruct H; discriminate.
  - eexists. eexists. split; [reflexivity|]. split; [reflexivity|].
    edestruct (proj2 (snapshot_policy Sample.externals Sample.self)
                 Sample.in_turn 36%nat)
      as (w' & v' & Hrun & Hv' & Hum & _ & _ & Hobs);
      [reflexivity | reflexivity |].
    exists w', v'. auto.
Defined.

(** C1 as stated fails on a Game in progress: the snapshot shares the state
    object with the live Game and has a registry of its own, so the
    attributes kept by reference are not the observer registry and the undo
    engine; and an observer registered after the snapshot was taken is no
    longer registered once the snapshot is restored. *)
Lemma snapshot_policy_counterexample :
  exists r w' g s,
    copy Sample.self Sample.in_turn = (Ok r, w') /\
    heap w' !! Sample.self = Some (OGame g) /\
    heap w' !! r = Some (OGame s) /\
    state s = state g /\
    observers s <> observers g /\
    ~ (forall a, attr_ref a s = attr_ref a g <-> a = a_observers \/ a = a_undo_manager) /\
    let w1 := after (observers_add Sample.self 200%nat) w' in
    let w2 := after (restore Sample.externals Sample.self r) w1 in
    registered w1 Sample.self = [100%nat; 200%nat] /\
    registered w2 Sample.self = [100%nat].
Proof.
  do 4 eexists.
  split; [vm_compute; reflexivity|].
  split; [vm_compute; reflexivity|].
  split; [vm_compute; reflexivity|].
  split; [reflexivity|].
  split; [vm_compute; discriminate|].
  split.
  - intros H. specialize (H a_state). destruct H as [H _].
    specialize (H eq_refl). destruct H; discriminate.
  - split; vm_compute; reflexivity.
Qed.

(** ** roll *)

Lemma roll_body_spec E (r : Z) (self : loc) (w : World) (v : View) :
  view (heap w) self = Some v ->
  cur_ok (v_game v) ->
  exists w' v',
    roll_body E r self w = (Ok tt, w') /\
    view (heap w') self = Some v' /\
    v_state v' = (if r =? 7 then GameStateMoveRobber else GameStateDuringTurnAfterRoll) /\
    last_roll (v_game v') = Some r /\
    last_player_to_roll (v_game v') = Some (cur_player_of (v_game v)) /\
    _cur_player (v_game v') = _cur_player (v_game v) /\
    v_dev_card_state v' = v_dev_card_state v /\
    undo_manager (v_game v') = undo_manager (v_game v).
Proof.
  intros Hv Hok. view_inv Hv. unfold roll_body, new_state.
  do 5 mstep.
  destruct (r =? 7).
  - mstep. erewrite set_state_eq by heap_lookup.
    view_exists. split; [reflexivity|]. split; [view_intro|].
    proj_simpl. repeat split; reflexivity.
  - mstep. erewrite set_state_eq by heap_lookup.
    view_exists. split; [reflexivity|]. split; [view_intro|].
    proj_simpl. repeat split; reflexivity.
Qed.

(** C4, as the code has it: every call of [Game.roll] on a Game succeeds;
    a roll of 7 installs MoveRobber whatever the prior state was, also when
    a knight has just been played (MoveRobberUsingKnight is installed by
    play_knight only); every other roll installs DuringTurnAfterRoll;
    last_roll is the roll and last_player_to_roll the current player (the
    nobody sentinel when there is none).  The dev-card state is not
    touched. *)
Theorem roll_installs_state E (self : loc) (r : Z) (w : World) (v : View) :
  view (heap w) self = Some v ->
  cur_ok (v_game v) ->
  exists w' v',
    roll E self r w = (Ok tt, w') /\
    view (heap w') self = Some v' /\
    (r = 7 -> v_state v' = GameStateMoveRobber) /\
    (r <> 7 -> v_state v' = GameStateDuringTurnAfterRoll) /\
    last_roll (v_game v') = Some r /\
    last_player_to_roll (v_game v') = Some (cur_player_of (v_game v)) /\
    v_dev_card_state v' = v_dev_card_state v.
Proof.
  intros Hv Hok.
  destruct (roll_body_spec E r self
              {| heap := body_heap (heap w) v; trace := trace w |} v)
    as (w2 & v2 & Hrun & Hv2 & Hst & Hlr & Hlp & _ & Hdev & Hum).
  { simpl. now apply view_app. }
  { assumption. }
  destruct (do_spec self (roll_body E r self) w w2 v v2 Hv Hrun Hv2 Hum)
    as (w3 & Hdo & Hv3 & _).
  exists w3. eexists. split; [exact Hdo|]. split; [exact Hv3|].
  simpl. rewrite Hst. repeat split; try assumption.
  - intros ->. reflexivity.
  - intros Hne. apply Z.eqb_neq in Hne. now rewrite Hne.
Qed.

Lemma roll_installs_state_witness :
  exists v,
    view (heap Sample.knight_played) Sample.self = Some v /\
    cur_ok (v_game v) /\
    v_state v = GameStateMoveRobberUsingKnight /\
    exists w' v',
      roll Sample.externals Sample.self 7 Sample.knight_played = (Ok tt, w') /\
      view (heap w') Sample.self = Some v' /\
      v_state v' = GameStateMoveRobber /\
      last_roll (v_game v') = Some 7 /\
      last_player_to_roll (v_game v') = Some (mkPlayer 1 "abdur" "green").
Proof.
  eexists. split; [reflexivity|].
  assert (Hok : valid_player (mkPlayer 1 "abdur" "green"))
    by (repeat split; simpl; try lia; reflexivity).
  split; [exact Hok|]. split; [reflexivity|].
  edestruct (roll_installs_state Sample.externals Sample.self 7 Sample.knight_played)
    as (w' & v' & Hrun & Hv' & H7 & _ & Hlr & Hlp & _);
    [reflexivity | exact Hok |].
  exists w', v'. split; [exact Hrun|]. split; [exact Hv'|].
  split; [now apply H7|]. split; [exact Hlr | exact Hlp].
Defined.

(** C4 as stated fails when a knight has just been played (the state is
    MoveRobberUsingKnight, the dev card is played): a roll of 7 installs
    MoveRobber, not MoveRobberUsingKnight. *)
Lemma roll_after_knight_counterexample :
  state_of Sample.knight_played Sample.self = Some GameStateMoveRobberUsingKnight /\
  dev_card_of Sample.knight_played Sample.self = Some DevCardPlayedState /\
  fst (roll Sample.externals Sample.self 7 Sample.knight_played) = Ok tt /\
  state_of (after (roll Sample.externals Sample.self 7) Sample.knight_played) Sample.self
    = Some GameStateMoveRobber /\
  state_of (after (roll Sample.externals Sample.self 7) Sample.knight_played) Sample.self
    <> Some GameStateMoveRobberUsingKnight.
Proof.
  repeat split; try (vm_compute; reflexivity).
  vm_compute. discriminate.
Qed.

(** ** Counting notifications *)

Lemma notifications_app (o : observer) (g : loc) (t1 t2 : list event) :
  notifications o g (t1 ++ t2) = (notifications o g t1 + notifications o g t2)%nat.
Proof. unfold notifications. now rewrite List.filter_app, length_app. Qed.

Lemma notifications_events (o : observer) (self : loc) (ms : list observer) :
  NoDup ms ->
  notifications o self (notify_events self ms) = if decide (o ∈ ms) then 1%nat else 0%nat.
Proof.
  unfold notifications, notify_events.
  induction ms as [|m ms IH]; intros Hnd.
  - reflexivity.
  - apply NoDup_cons in Hnd as [Hm Hnd]. simpl.
    rewrite Nat.eqb_refl, andb_true_r. specialize (IH Hnd).
    destruct (Nat.eqb_spec o m) as [->|Hne]; simpl; rewrite IH;
      destruct (decide (_ ∈ ms)) as [Hin|Hin];
      destruct (decide (_ ∈ m :: ms)) as [Hin'|Hin'];
      try reflexivity; try contradiction.
    + exfalso. apply Hin'. left.
    + exfalso. apply Hin'. now right.
    + exfalso. apply elem_of_cons in Hin' as [?|?]; contradiction.
Qed.

Lemma notifications_rounds (n : nat) (o : observer) (self : loc) (ms : list observer) :
  NoDup ms ->
  notifications o self (notify_rounds n self ms) = if decide (o ∈ ms) then n else 0%nat.
Proof.
  intros Hnd. induction n as [|n IH]; simpl.
  - now destruct (decide (o ∈ ms)).
  - rewrite notifications_app, IH, notifications_events by assumption.
    now destruct (decide (o ∈ ms)).
Qed.

(** C3, as the code has it: an [undo] on a Game with a non-empty undo
    history notifies every observer of the restored snapshot's registry
    twice, once at the end of [Game.restore] and once more in [Game.undo]
    itself, plus once for every callback of [Board.restore]; an observer
    that is not in that registry is not notified at all. *)
Theorem undo_notifies_twice E (self : loc) (w : World) (v vs : View)
    (c : Command) (rest : list Command) :
  view (heap w) self = Some v ->
  undo_stack (v_manager v) = c :: rest ->
  cmd_obj c = self ->
  view (heap w) (cmd_before c) = Some vs ->
  NoDup (v_observers vs) ->
  exists w' t,
    undo E self w = (Ok tt, w') /\
    trace w' = trace w ++ t /\
    forall o,
      notifications o self t =
        if decide (o ∈ v_observers vs)
        then (2 + board_callbacks E op_restore)%nat else 0%nat.
Proof.
  intros Hv Hstack Hobj Hs Hnd.
  destruct (undo_spec E self w v vs c rest Hv Hstack Hobj Hs) as (w' & Hrun & _ & Htr).
  exists w'. eexists. split; [exact Hrun|]. split; [exact Htr|].
  intros o. rewrite !notifications_app, notifications_rounds by assumption.
  rewrite notifications_events by assumption.
  destruct (decide (o ∈ v_observers vs)); lia.
Qed.

Lemma undo_notifies_twice_witness :
  exists v vs,
    view (heap Sample.in_turn) Sample.self = Some v /\
    undo_stack (v_manager v) =
      [mkCommand Sample.self 36 47; mkCommand Sample.self 12 26] /\
    view (heap Sample.in_turn) 36%nat = Some vs /\
    v_observers vs = [100%nat] /\
    exists w' t,
      undo Sample.externals Sample.self Sample.in_turn = (Ok tt, w') /\
      trace w' = trace Sample.in_turn ++ t /\
      notifications 100 Sample.self t = 2%nat.
Proof.
  eexists. eexists. split; [reflexivity|]. split; [reflexivity|].
  split; [reflexivity|]. split; [reflexivity|].
  edestruct (undo_notifies_twice Sample.externals Sample.self Sample.in_turn)
    as (w' & t & Hrun & Htr & Hn);
    [reflexivity | reflexivity | reflexivity | reflexivity | |].
  - simpl. apply NoDup_singleton.
  - exists w', t. split; [exact Hrun|]. split; [exact Htr|].
    exact (Hn 100%nat).
Defined.

(** C3 as stated fails: undoing the roll of a game in progress notifies the
    registered observer twice, not once. *)
Lemma undo_notifies_once_counterexample :
  registered Sample.in_turn Sample.self = [100%nat] /\
  fst (undo Sample.externals Sample.self Sample.in_turn) = Ok tt /\
  trace (after (undo Sample.externals Sample.self) Sample.in_turn)
    = trace Sample.in_turn
      ++ [Notified 100 Sample.self; Notified 100 Sample.self] /\
  notifications 100 Sample.self
    [Notified 100 Sample.self; Notified 100 Sample.self] <> 1%nat.
Proof.
  repeat split; try (vm_compute; reflexivity).
  vm_compute. discriminate.
Qed.

(** ** reset and set_state: the board lock *)

Lemma reset_spec (self : loc) (w : World) (v : View) :
  view (heap w) self = Some v ->
  exists w' v',
    reset self w = (Ok tt, w') /\
    view (heap w') self = Some v' /\
    v_state v' = GameStateNotInGame /\
    v_board v' = v_board v /\
    v_players v' = [] /\
    _cur_player (v_game v') = None /\
    _cur_turn (v_game v') = 0 /\
    trace w' = trace w ++ notify_events self (v_observers v).
Proof.
  intros Hv. view_inv Hv. unfold reset, new_state.
  do 8 mstep.
  erewrite notify_observers_eq by heap_lookup.
  view_exists. split; [reflexivity|]. split; [view_intro|].
  proj_simpl. repeat split; reflexivity.
Qed.

(** Every state installed through [set_state] re-derives the board lock:
    afterwards the board is locked exactly when the state is in game. *)
Lemma set_state_rederives_lock E (self st : loc) (w : World) (v : View)
    (s : GameState) (bk : loc) :
  view (heap w) self = Some v ->
  heap w !! st = Some (OState s bk) ->
  exists w' v',
    set_state E self st w = (Ok tt, w') /\
    view (heap w') self = Some v' /\
    v_state v' = s /\
    locked (v_board v') = is_in_game (v_state v').
Proof.
  intros Hv Hst. view_inv Hv.
  erewrite set_state_eq by eassumption.
  view_exists. split; [reflexivity|]. split; [view_intro|].
  proj_simpl. split; reflexivity.
Qed.

(** C6, where the code departs from it: [Game.reset] assigns the state
    attribute directly, without [set_state]; on a Game whose board is
    locked it leaves the state NotInGame, which is not in game, and the
    board still locked, and it notifies the observers of that Game. *)
Theorem reset_leaves_board_locked (self : loc) (w : World) (v : View) :
  view (heap w) self = Some v ->
  locked (v_board v) = true ->
  exists w' v',
    reset self w = (Ok tt, w') /\
    view (heap w') self = Some v' /\
    v_state v' = GameStateNotInGame /\
    is_in_game (v_state v') = false /\
    locked (v_board v') = true /\
    trace w' = trace w ++ notify_events self (v_observers v).
Proof.
  intros Hv Hl.
  destruct (reset_spec self w v Hv) as (w' & v' & Hrun & Hv' & Hs & Hb & _ & _ & _ & Htr).
  exists w', v'. rewrite Hs, Hb. auto 10.
Qed.

Lemma reset_leaves_board_locked_witness :
  exists v,
    view (heap Sample.in_turn) Sample.self = Some v /\
    v_state v = GameStateDuringTurnAfterRoll /\
    locked (v_board v) = true /\
    exists w' v',
      reset Sample.self Sample.in_turn = (Ok tt, w') /\
      view (heap w') Sample.self = Some v' /\
      is_in_game (v_state v') = false /\
      locked (v_board v') = true.
Proof.
  eexists. split; [reflexivity|]. split; [reflexivity|]. split; [reflexivity|].
  edestruct (reset_leaves_board_locked Sample.self Sample.in_turn)
    as (w' & v' & Hrun & Hv' & _ & Hs & Hl & _);
    [reflexivity | reflexivity |].
  exists w', v'. auto.
Defined.

(** ** set_players and start *)

Lemma set_players_nonempty (self : loc) (p : Player) (ps : list Player)
    (w : World) (v : View) :
  view (heap w) self = Some v ->
  valid_player p ->
  exists w0 v',
    view (heap w0) self = Some v' /\
    v_players v' = p :: ps /\
    _cur_player (v_game v') = Some p /\
    v_observers v' = v_observers v /\
    trace w0 = trace w /\
    set_players self (p :: ps) w = notify_observers self w0 /\
    notify_observers self w0 =
      (Ok tt, {| heap := heap w0; trace := trace w ++ notify_events self (v_observers v) |}).
Proof.
  intros Hv Hp. view_inv Hv. unfold set_players.
  do 4 mstep.
  erewrite bind_ok by (eapply set_cur_player_eq; [heap_lookup | exact Hp]).
  cbv beta.
  view_exists. split; [| split; [| split; [| split; [| split; [| split; [reflexivity |]]]]]].
  - view_intro.
  - reflexivity.
  - reflexivity.
  - reflexivity.
  - reflexivity.
  - proj_simpl. erewrite notify_observers_eq by heap_lookup. reflexivity.
Qed.

Lemma set_players_empty (self : loc) (w : World) (v : View) :
  view (heap w) self = Some v ->
  exists w' v',
    set_players self [] w = (Err IndexError, w') /\
    view (heap w') self = Some v' /\
    v_players v' = [] /\
    _cur_player (v_game v') = _cur_player (v_game v) /\
    trace w' = trace w.
Proof.
  intros Hv. view_inv Hv. unfold set_players.
  do 4 mstep.
  erewrite bind_err by reflexivity.
  view_exists. split; [reflexivity|]. split; [view_intro|].
  proj_simpl. repeat split; reflexivity.
Qed.

Lemma start_body_empty E (self : loc) (w : World) (v : View) :
  view (heap w) self = Some v ->
  opts_debug (v_board v) = false ->
  exists w', start_body E [] self w = (Err IndexError, w').
Proof.
  intros Hv Hd.
  destruct (reset_spec self w v Hv) as (w1 & v1 & Hrun & Hv1 & _ & Hb & _).
  destruct (set_players_empty self w1 v1 Hv1) as (w2 & v2 & Hsp & _).
  unfold start_body.
  erewrite bind_ok by exact Hrun. cbv beta.
  pose proof Hv1 as Hv1'. view_inv Hv1'.
  do 2 mstep. rewrite Hb, Hd.
  erewrite bind_err by exact Hsp.
  eauto.
Qed.

(** C10: on a Game, [set_players] given a non-empty list of Players
    installs the list and makes its first element the current player, and
    only then notifies the observers (the call is the notification of a
    Game that already holds the list and the player); given the empty list
    it raises IndexError on [players[0]]: the empty list is installed, the
    current player is left as it was (no sentinel is installed) and nobody
    is notified.  [start] passes its list to [set_players] unless the board
    asks for the debug players, and fails the same way on the empty list. *)
Theorem set_players_needs_first_player E (self : loc) (w : World) (v : View) :
  view (heap w) self = Some v ->
  (forall p ps, valid_player p ->
     exists w0 v',
       view (heap w0) self = Some v' /\
       v_players v' = p :: ps /\
       _cur_player (v_game v') = Some p /\
       trace w0 = trace w /\
       set_players self (p :: ps) w = notify_observers self w0 /\
       notify_observers self w0 =
         (Ok tt, {| heap := heap w0;
                    trace := trace w ++ notify_events self (v_observers v) |})) /\
  (exists w' v',
     set_players self [] w = (Err IndexError, w') /\
     view (heap w') self = Some v' /\
     v_players v' = [] /\
     _cur_player (v_game v') = _cur_player (v_game v) /\
     trace w' = trace w) /\
  (opts_debug (v_board v) = false ->
   exists w', start E self [] w = (Err IndexError, w')).
Proof.
  intros Hv. split; [| split].
  - intros p ps Hp.
    destruct (set_players_nonempty self p ps w v Hv Hp)
      as (w0 & v' & H1 & H2 & H3 & _ & H5 & H6 & H7).
    exists w0, v'. auto 10.
  - exact (set_players_empty self w v Hv).
  - intros Hd.
    destruct (start_body_empty E self
                {| heap := body_heap (heap w) v; trace := trace w |} v)
      as (w' & Hrun).
    { simpl. now apply view_app. }
    { exact Hd. }
    exists w'. unfold start, undoable. eapply do_err; eassumption.
Qed.

Lemma set_players_needs_first_player_witness :
  exists v,
    view (heap Sample.created) Sample.self = Some v /\
    _cur_player (v_game v) = None /\
    (exists w' v',
       set_players Sample.self get_debug_players Sample.created = (Ok tt, w') /\
       view (heap w') Sample.self = Some v' /\
       v_players v' = get_debug_players /\
       _cur_player (v_game v') = Some (mkPlayer 1 "abdur" "green") /\
       trace w' = trace Sample.created ++ [Notified 100 Sample.self]) /\
    (exists w' v',
       set_players Sample.self [] Sample.created = (Err IndexError, w') /\
       view (heap w') Sample.self = Some v' /\
       _cur_player (v_game v') = None /\
       trace w' = trace Sample.created) /\
    (exists w', start Sample.externals Sample.self [] Sample.created
                = (Err IndexError, w')).
Proof.
  eexists. split; [reflexivity|]. split; [reflexivity|].
  edestruct (set_players_needs_first_player Sample.externals Sample.self Sample.created)
    as (Hne & Hempty & Hstart); [reflexivity|].
  split; [| split].
  - edestruct (Hne (mkPlayer 1 "abdur" "green") (tl get_debug_players))
      as (w0 & v' & Hv' & Hps & Hcp & _ & Hcall & Hnot).
    { repeat split; simpl; try lia; reflexivity. }
    eexists. exists v'. split; [etransitivity; [exact Hcall | exact Hnot]|].
    split; [exact Hv'|]. split; [exact Hps|]. split; [exact Hcp | reflexivity].
  - destruct Hempty as (w' & v' & Hrun & Hv' & _ & Hcp & Htr).
    exists w', v'. auto.
  - apply Hstart. reflexivity.
Defined.

(** ** end and end_turn *)

Lemma end_runs_app (t1 t2 : list event) :
  end_runs (t1 ++ t2) = (end_runs t1 + end_runs t2)%nat.
Proof. unfold end_runs. now rewrite List.filter_app, length_app. Qed.

Lemma end_runs_events (self : loc) (ms : list observer) :
  end_runs (notify_events self ms) = 0%nat.
Proof. unfold end_runs, notify_events. induction ms; simpl; auto. Qed.

Lemma end_runs_rounds (n : nat) (self : loc) (ms : list observer) :
  end_runs (notify_rounds n self ms) = 0%nat.
Proof.
  induction n as [|n IH]; simpl; [reflexivity|].
  now rewrite end_runs_app, end_runs_events, IH.
Qed.

Lemma end_runs_end_trace E (self : loc) (v : View) :
  end_runs (end_trace E self v) = 1%nat.
Proof.
  unfold end_trace.
  now rewrite !end_runs_app, end_runs_rounds, !end_runs_events.
Qed.

Lemma end_spec E (self : loc) (w : World) (v : View) :
  view (heap w) self = Some v ->
  cur_ok (v_game v) ->
  exists w',
    end_ E self w = (Ok tt, w') /\
    view (heap w') self = Some (end_view E self (length (heap w)) v) /\
    trace w' = trace w ++ end_trace E self v.
Proof.
  intros Hv Hok. view_inv Hv. unfold end_, evaluate_final, new_state.
  do 5 mstep.
  erewrite notify_observers_eq by heap_lookup.
  eexists. split; [reflexivity|]. proj_simpl. split.
  - repeat (rewrite length_insert || rewrite length_app); simpl length.
    view_intro.
  - unfold end_trace. simpl. now rewrite <- !app_assoc.
Qed.

(** A player whose name holds neither 'agent1' nor 'agent2' makes no move
    of its own at the end of [end_turn]. *)
Lemma agent_turn_human E (self : loc) (w : World) (g : Game) (p : Player) :
  heap w !! self = Some (OGame g) ->
  _cur_player g = Some p ->
  PyStr.contains "agent1" (name p) = false ->
  PyStr.contains "agent2" (name p) = false ->
  agent_turn E self w = (Ok tt, w).
Proof.
  intros Hg Hp H1 H2. unfold agent_turn.
  erewrite bind_ok by (eapply get_game_eq; eassumption). cbv beta.
  now rewrite Hp, H1, H2.
Qed.

Lemma end_turn_body_spec E (self : loc) (w : World) (v : View) :
  let np := next_player E (heap w) (v_state_game v) (v_state v) in
  let ce := can_end_game E
              (<[self := OGame (with_cur_player (Some np) (v_game v))]> (heap w))
              (v_state_game v) (v_state v) in
  view (heap w) self = Some v ->
  cur_ok (v_game v) ->
  valid_player np ->
  PyStr.contains "agent1" (name np) = false ->
  PyStr.contains "agent2" (name np) = false ->
  exists w' v',
    end_turn_body E self w = (Ok tt, w') /\
    view (heap w') self = Some v' /\
    _cur_player (v_game v') = Some np /\
    _cur_turn (v_game v') = _cur_turn (v_game v) + 1 /\
    v_dev_card_state v' = DevCardNotPlayedState /\
    v_state v' =
      (if ce then GameStateNotInGame
       else if is_in_pregame (v_state v)
            then GameStatePreGamePlacingPiece PieceType.settlement
            else GameStateNotInGame) /\
    undo_manager (v_game v') = undo_manager (v_game v) /\
    pieces (v_board v') = pieces (v_board v) /\
    end_runs (trace w') =
      (end_runs (trace w)
       + (if ce then 2 else if is_in_pregame (v_state v) then 0 else 1))%nat.
Proof.
  intros np ce Hv Hok Hnp Ha1 Ha2.
  pose proof Hv as Hv'. view_inv Hv'.
  unfold end_turn_body, get_heap, new_dev_card_state, new_state.
  do 5 mstep. fold np.
  erewrite bind_ok by (eapply set_cur_player_eq; [heap_lookup | exact Hnp]).
  cbv beta. proj_simpl.
  do 3 mstep. fold ce.
  destruct ce.
  - (* can_end_game(): end() runs here, and again below *)
    cbv iota.
    match goal with |- context [bind (end_ E self) _ ?W] => get_view W self HvA end.
    destruct (end_spec E self _ _ HvA Hnp) as (w2 & Hrun2 & Hv2 & Htr2).
    erewrite bind_ok by exact Hrun2. cbv beta.
    clear - Hv2 Htr2 Hnp Ha1 Ha2.
    pose proof Hv2 as Hv2'. view_inv Hv2'.
    do 6 mstep.
    cbn [fst snd is_in_pregame].
    match goal with |- context [bind (end_ E self) _ ?W] => get_view W self HvB end.
    destruct (end_spec E self _ _ HvB Hnp) as (w3 & Hrun3 & Hv3 & Htr3).
    erewrite bind_ok by exact Hrun3. cbv beta.
    clear - Hv3 Htr3 Htr2 Hnp Ha1 Ha2.
    pose proof Hv3 as Hv3'. view_inv Hv3'.
    erewrite agent_turn_human by (try eassumption; reflexivity).
    eexists. eexists. split; [reflexivity|]. split; [exact Hv3|].
    proj_simpl. repeat split; try reflexivity.
    rewrite Htr3. proj_simpl. rewrite Htr2. proj_simpl.
    rewrite !end_runs_app, !end_runs_end_trace, !end_runs_events.
    unfold end_runs. simpl. lia.
  - destruct (is_in_pregame (v_state v)) eqn:Hpre.
    + (* pregame goes on with the next settlement *)
      do 7 mstep. cbn [fst snd]. rewrite Hpre. mstep.
      erewrite agent_turn_human; [ | heap_lookup | reflexivity | assumption | assumption ].
      view_exists. split; [reflexivity|]. split; [view_intro|].
      proj_simpl. repeat split; try reflexivity.
      rewrite !end_runs_app, !end_runs_events, !end_runs_rounds.
      unfold end_runs. simpl. lia.
    + (* outside pregame end() runs, whatever can_end_game() said *)
      do 7 mstep.
      cbn [fst snd is_in_pregame]; rewrite ?Hpre; cbv iota.
      match goal with |- context [bind (end_ E self) _ ?W] => get_view W self HvB end.
      destruct (end_spec E self _ _ HvB Hnp) as (w3 & Hrun3 & Hv3 & Htr3).
      erewrite bind_ok by exact Hrun3. cbv beta.
      clear - Hv3 Htr3 Hnp Ha1 Ha2.
      pose proof Hv3 as Hv3'. view_inv Hv3'.
      erewrite agent_turn_human by (try eassumption; reflexivity).
      eexists. eexists. split; [reflexivity|]. split; [exact Hv3|].
      proj_simpl. repeat split; try reflexivity.
      rewrite Htr3. proj_simpl.
      rewrite !end_runs_app, !end_runs_end_trace, !end_runs_events.
      unfold end_runs. simpl. lia.
Qed.

Lemma end_turn_spec E (self : loc) (w : World) (v : View) :
  let h0 := body_heap (heap w) v in
  let np := next_player E h0 (v_state_game v) (v_state v) in
  let ce := can_end_game E
              (<[self := OGame (with_cur_player (Some np) (v_game v))]> h0)
              (v_state_game v) (v_state v) in
  view (heap w) self = Some v ->
  cur_ok (v_game v) ->
  valid_player np ->
  PyStr.contains "agent1" (name np) = false ->
  PyStr.contains "agent2" (name np) = false ->
  exists w' v',
    end_turn E self w = (Ok tt, w') /\
    view (heap w') self = Some v' /\
    _cur_player (v_game v') = Some np /\
    _cur_turn (v_game v') = _cur_turn (v_game v) + 1 /\
    v_state v' =
      (if ce then GameStateNotInGame
       else if is_in_pregame (v_state v)
            then GameStatePreGamePlacingPiece PieceType.settlement
            else GameStateNotInGame) /\
    pieces (v_board v') = pieces (v_board v) /\
    end_runs (trace w') =
      (end_runs (trace w)
       + (if ce then 2 else if is_in_pregame (v_state v) then 0 else 1))%nat.
Proof.
  intros h0 np ce Hv Hok Hnp Ha1 Ha2.
  destruct (end_turn_body_spec E self {| heap := h0; trace := trace w |} v)
    as (w2 & v2 & Hrun & Hv2 & Hcp & Hct & _ & Hst & Hum & Hpc & Hends);
    try assumption.
  { simpl. now apply view_app. }
  destruct (do_spec self (end_turn_body E self) w w2 v v2 Hv Hrun Hv2 Hum)
    as (w3 & Hdo & Hv3 & Htr3).
  exists w3. eexists. split; [exact Hdo|]. split; [exact Hv3|].
  simpl. repeat split; try assumption.
  rewrite Htr3, end_runs_app, end_runs_events, Nat.add_0_r. exact Hends.
Qed.

(** C2, where the code departs from it: in [end_turn], [can_end_game()] is
    asked once, of the heap in which the current player has been advanced
    to [next_player()], and [Game.end] runs when it answers true; but
    [Game.end] also runs, unconditionally, whenever the state is then not
    in pregame.  So, for a turn that passes to a player who is not
    automated, [Game.end] runs twice when [can_end_game()] is true, once
    when it is false outside pregame, and not at all when it is false in
    pregame: outside pregame the game is ended whatever [can_end_game()]
    says. *)
Theorem end_turn_runs_end E (self : loc) (w : World) (v : View) :
  let h0 := body_heap (heap w) v in
  let np := next_player E h0 (v_state_game v) (v_state v) in
  let ce := can_end_game E
              (<[self := OGame (with_cur_player (Some np) (v_game v))]> h0)
              (v_state_game v) (v_state v) in
  view (heap w) self = Some v ->
  cur_ok (v_game v) ->
  valid_player np ->
  PyStr.contains "agent1" (name np) = false ->
  PyStr.contains "agent2" (name np) = false ->
  exists w' v',
    end_turn E self w = (Ok tt, w') /\
    view (heap w') self = Some v' /\
    _cur_player (v_game v') = Some np /\
    end_runs (trace w') =
      (end_runs (trace w)
       + (if ce then 2 else if is_in_pregame (v_state v) then 0 else 1))%nat /\
    (is_in_pregame (v_state v) = false -> v_state v' = GameStateNotInGame).
Proof.
  intros h0 np ce Hv Hok Hnp Ha1 Ha2.
  destruct (end_turn_spec E self w v Hv Hok Hnp Ha1 Ha2)
    as (w' & v' & Hrun & Hv' & Hcp & _ & Hst & _ & Hends).
  exists w', v'. repeat split; try assumption.
  intros Hpre. rewrite Hst, Hpre. fold h0 np ce. now destruct ce.
Qed.

Lemma end_turn_runs_end_witness :
  exists v,
    view (heap Sample.in_turn) Sample.self = Some v /\
    v_state v = GameStateDuringTurnAfterRoll /\
    (forall h, can_end_game Sample.externals h (v_state_game v) (v_state v) = false) /\
    exists w' v',
      end_turn Sample.externals Sample.self Sample.in_turn = (Ok tt, w') /\
      view (heap w') Sample.self = Some v' /\
      _cur_player (v_game v') = Some (mkPlayer 2 "qlearn" "blue") /\
      end_runs (trace w') = (end_runs (trace Sample.in_turn) + 1)%nat /\
      v_state v' = GameStateNotInGame.
Proof.
  eexists. split; [reflexivity|]. split; [reflexivity|]. split; [reflexivity|].
  edestruct (end_turn_runs_end Sample.externals Sample.self Sample.in_turn)
    as (w' & v' & Hrun & Hv' & Hcp & Hends & Hst).
  - reflexivity.
  - repeat split; simpl; try lia; reflexivity.
  - repeat split; simpl; try lia; reflexivity.
  - reflexivity.
  - reflexivity.
  - exists w', v'. split; [exact Hrun|]. split; [exact Hv'|].
    split; [exact Hcp|]. split; [exact Hends|]. apply Hst. reflexivity.
Defined.

(** ** Buying a settlement and a road *)

Lemma dict_set_In (k : coord_key) (pc : Piece) (d : list (coord_key * Piece)) :
  In (k, pc) (dict_set k pc d).
Proof.
  induction d as [|e d IH]; simpl; [auto|].
  destruct (coord_key_eqb (fst e) k); simpl; auto.
Qed.

(** A placement that succeeds records the piece at the slot of its kind. *)
Lemma Board_place_piece_In E (b b' : Board) (piece : Piece) (coord : Z) :
  Board_place_piece E b piece coord = Ok b' ->
  In ((coord_kind_of (ptype piece), coord), piece) (pieces b').
Proof.
  unfold Board_place_piece.
  destruct (negb (placement_allowed E b piece coord)); [discriminate|].
  destruct (negb (PieceType.eqb (ptype piece) PieceType.city)
            && dict_mem (coord_kind_of (ptype piece), coord) (pieces b));
    [discriminate|].
  intros [= <-]. simpl. apply dict_set_In.
Qed.

Lemma place_piece_spec E (self : loc) (piece : Piece) (coord : Z)
    (w : World) (v : View) (b' : Board) :
  view (heap w) self = Some v ->
  Board_place_piece E (v_board v) piece coord = Ok b' ->
  exists w',
    place_piece E self (board (v_game v)) piece coord w = (Ok tt, w') /\
    heap w' = <[board (v_game v) := OBoard b']> (heap w) /\
    view (heap w') self = Some (with_v_board b' v).
Proof.
  intros Hv Hp. view_inv Hv. unfold place_piece.
  mstep. rewrite Hp. unfold lift.
  erewrite bind_ok by reflexivity. cbv beta.
  mstep.
  erewrite board_changed_eq by heap_lookup.
  eexists. split; [reflexivity|]. split; [reflexivity|].
  view_intro.
Qed.

Lemma buy_settlement_spec E (self : loc) (node : Z) (w : World) (v : View) (b' : Board) :
  view (heap w) self = Some v ->
  cur_ok (v_game v) ->
  Board_place_piece E (v_board v)
    {| ptype := PieceType.settlement; owner := Some (cur_player_of (v_game v)) |} node
    = Ok b' ->
  exists w' v',
    buy_settlement E self node w = (Ok tt, w') /\
    view (heap w') self = Some v' /\
    v_state v' =
      (if is_in_pregame (v_state v)
       then GameStatePreGamePlacingPiece PieceType.road
       else GameStateDuringTurnAfterRoll) /\
    _cur_player (v_game v') = _cur_player (v_game v) /\
    _cur_turn (v_game v') = _cur_turn (v_game v) /\
    pieces (v_board v') = pieces b'.
Proof.
  intros Hv Hok Hp.
  destruct (place_piece_spec E self _ node w v b' Hv Hp) as (w1 & Hrun & _ & Hv1).
  pose proof Hv as Hv'. view_inv Hv'.
  unfold buy_settlement, new_state.
  do 2 mstep.
  erewrite bind_ok by exact Hrun. cbv beta.
  clear - Hv1 Hok. view_inv Hv1.
  do 4 mstep. cbn [fst snd].
  destruct (is_in_pregame (v_state v)).
  - mstep. erewrite set_state_eq by heap_lookup.
    view_exists. split; [reflexivity|]. split; [view_intro|].
    proj_simpl. repeat split; reflexivity.
  - mstep. erewrite set_state_eq by heap_lookup.
    view_exists. split; [reflexivity|]. split; [view_intro|].
    proj_simpl. repeat split; reflexivity.
Qed.

Lemma buy_road_spec_in_turn E (self : loc) (edge : Z) (w : World) (v : View) (b' : Board) :
  view (heap w) self = Some v ->
  cur_ok (v_game v) ->
  Board_place_piece E (v_board v)
    {| ptype := PieceType.road; owner := Some (cur_player_of (v_game v)) |} edge
    = Ok b' ->
  is_in_pregame (v_state v) = false ->
  exists w' v',
    buy_road E self edge w = (Ok tt, w') /\
    view (heap w') self = Some v' /\
    v_state v' = GameStateDuringTurnAfterRoll /\
    _cur_player (v_game v') = _cur_player (v_game v) /\
    _cur_turn (v_game v') = _cur_turn (v_game v) /\
    pieces (v_board v') = pieces b'.
Proof.
  intros Hv Hok Hp Hpre.
  destruct (place_piece_spec E self _ edge w v b' Hv Hp) as (w1 & Hrun & _ & Hv1).
  pose proof Hv as Hv'. view_inv Hv'.
  unfold buy_road, new_state.
  do 2 mstep.
  erewrite bind_ok by exact Hrun. cbv beta.
  clear - Hv1 Hok Hpre. view_inv Hv1.
  do 4 mstep. cbn [fst snd]. rewrite Hpre.
  mstep. erewrite set_state_eq by heap_lookup.
  view_exists. split; [reflexivity|]. split; [view_intro|].
  proj_simpl. repeat split; reflexivity.
Qed.

Lemma buy_road_spec_pregame E (self : loc) (edge : Z) (w : World) (v : View) (b' : Board) :
  let h0 := body_heap (<[board (v_game v) := OBoard b']> (heap w)) (with_v_board b' v) in
  let np := next_player E h0 (v_state_game v) (v_state v) in
  view (heap w) self = Some v ->
  cur_ok (v_game v) ->
  Board_place_piece E (v_board v)
    {| ptype := PieceType.road; owner := Some (cur_player_of (v_game v)) |} edge
    = Ok b' ->
  is_in_pregame (v_state v) = true ->
  valid_player np ->
  PyStr.contains "agent1" (name np) = false ->
  PyStr.contains "agent2" (name np) = false ->
  exists w' v',
    buy_road E self edge w = (Ok tt, w') /\
    view (heap w') self = Some v' /\
    _cur_player (v_game v') = Some np /\
    _cur_turn (v_game v') = _cur_turn (v_game v) + 1 /\
    pieces (v_board v') = pieces b'.
Proof.
  intros h0 np Hv Hok Hp Hpre Hn1 Hn2 Hn3.
  destruct (place_piece_spec E self _ edge w v b' Hv Hp) as (w1 & Hrun & Hh1 & Hv1).
  pose proof Hv as Hv'. view_inv Hv'.
  unfold buy_road.
  do 2 mstep.
  erewrite bind_ok by exact Hrun. cbv beta.
  clear - Hv1 Hh1 Hok Hpre Hn1 Hn2 Hn3.
  pose proof Hv1 as Hv1'. view_inv Hv1'.
  do 4 mstep. cbn [fst snd]. rewrite Hpre.
  match goal with |- context [end_turn E self ?W] => get_view W self HvW end.
  subst h0 np. rewrite <- Hh1 in Hn1, Hn2, Hn3.
  edestruct (end_turn_spec E self _ _ HvW)
    as (w3 & v3 & Hrun3 & Hv3 & Hcp & Hct & _ & Hpc & _);
    [exact Hok | exact Hn1 | exact Hn2 | exact Hn3 |].
  exists w3, v3. rewrite <- Hh1.
  repeat split; assumption.
Qed.

(** C5: a purchase whose placement the board accepts records the piece.
    In pregame [buy_settlement] then installs PreGamePlacingPiece(road)
    and leaves the current player and the turn counter as they were,
    while [buy_road] ends the turn by itself: the current player becomes
    the one [next_player()] designates (here a player who is not
    automated) and the turn counter moves on by one.  Outside pregame
    both install DuringTurnAfterRoll and keep player and turn. *)
Theorem pregame_purchases E (self : loc) (w : World) (v : View) :
  view (heap w) self = Some v ->
  cur_ok (v_game v) ->
  (forall node b',
     Board_place_piece E (v_board v)
       {| ptype := PieceType.settlement; owner := Some (cur_player_of (v_game v)) |} node
       = Ok b' ->
     exists w' v',
       buy_settlement E self node w = (Ok tt, w') /\
       view (heap w') self = Some v' /\
       v_state v' =
         (if is_in_pregame (v_state v)
          then GameStatePreGamePlacingPiece PieceType.road
          else GameStateDuringTurnAfterRoll) /\
       _cur_player (v_game v') = _cur_player (v_game v) /\
       _cur_turn (v_game v') = _cur_turn (v_game v) /\
       In ((NODE, node),
           {| ptype := PieceType.settlement; owner := Some (cur_player_of (v_game v)) |})
          (pieces (v_board v'))) /\
  (forall edge b',
     Board_place_piece E (v_board v)
       {| ptype := PieceType.road; owner := Some (cur_player_of (v_game v)) |} edge
       = Ok b' ->
     is_in_pregame (v_state v) = false ->
     exists w' v',
       buy_road E self edge w = (Ok tt, w') /\
       view (heap w') self = Some v' /\
       v_state v' = GameStateDuringTurnAfterRoll /\
       _cur_player (v_game v') = _cur_player (v_game v) /\
       _cur_turn (v_game v') = _cur_turn (v_game v) /\
       In ((EDGE, edge),
           {| ptype := PieceType.road; owner := Some (cur_player_of (v_game v)) |})
          (pieces (v_board v'))) /\
  (forall edge b',
     let h0 := body_heap (<[board (v_game v) := OBoard b']> (heap w))
                         (with_v_board b' v) in
     let np := next_player E h0 (v_state_game v) (v_state v) in
     Board_place_piece E (v_board v)
       {| ptype := PieceType.road; owner := Some (cur_player_of (v_game v)) |} edge
       = Ok b' ->
     is_in_pregame (v_state v) = true ->
     valid_player np ->
     PyStr.contains "agent1" (name np) = false ->
     PyStr.contains "agent2" (name np) = false ->
     exists w' v',
       buy_road E self edge w = (Ok tt, w') /\
       view (heap w') self = Some v' /\
       _cur_player (v_game v') = Some np /\
       _cur_turn (v_game v') = _cur_turn (v_game v) + 1 /\
       In ((EDGE, edge),
           {| ptype := PieceType.road; owner := Some (cur_player_of (v_game v)) |})
          (pieces (v_board v'))).
Proof.
  intros Hv Hok. split; [| split].
  - intros node b' Hp.
    destruct (buy_settlement_spec E self node w v b' Hv Hok Hp)
      as (w' & v' & Hrun & Hv' & Hst & Hcp & Hct & Hpc).
    exists w', v'. repeat split; try assumption.
    rewrite Hpc. exact (Board_place_piece_In E _ _ _ _ Hp).
  - intros edge b' Hp Hpre.
    destruct (buy_road_spec_in_turn E self edge w v b' Hv Hok Hp Hpre)
      as (w' & v' & Hrun & Hv' & Hst & Hcp & Hct & Hpc).
    exists w', v'. repeat split; try assumption.
    rewrite Hpc. exact (Board_place_piece_In E _ _ _ _ Hp).
  - intros edge b' h0 np Hp Hpre Hn1 Hn2 Hn3.
    destruct (buy_road_spec_pregame E self edge w v b' Hv Hok Hp Hpre Hn1 Hn2 Hn3)
      as (w' & v' & Hrun & Hv' & Hcp & Hct & Hpc).
    exists w', v'. repeat split; try assumption.
    rewrite Hpc. exact (Board_place_piece_In E _ _ _ _ Hp).
Qed.

Lemma pregame_purchases_witness :
  (exists w' v',
     buy_settlement Sample.externals Sample.self 2 Sample.in_pregame = (Ok tt, w') /\
     view (heap w') Sample.self = Some v' /\
     v_state v' = GameStatePreGamePlacingPiece PieceType.road /\
     _cur_player (v_game v') = Some (mkPlayer 1 "abdur" "green") /\
     _cur_turn (v_game v') = 0) /\
  (exists w' v',
     buy_road Sample.externals Sample.self 6 Sample.settled = (Ok tt, w') /\
     view (heap w') Sample.self = Some v' /\
     _cur_player (v_game v') = Some (mkPlayer 2 "qlearn" "blue") /\
     _cur_turn (v_game v') = 1 /\
     In ((EDGE, 6),
         {| ptype := PieceType.road; owner := Some (mkPlayer 1 "abdur" "green") |})
        (pieces (v_board v'))) /\
  (exists w' v',
     buy_road Sample.externals Sample.self 6 Sample.in_turn = (Ok tt, w') /\
     view (heap w') Sample.self = Some v' /\
     v_state v' = GameStateDuringTurnAfterRoll /\
     _cur_player (v_game v') = Some (mkPlayer 1 "abdur" "green") /\
     _cur_turn (v_game v') = 0).
Proof.
  split; [| split].
  - edestruct (pregame_purchases Sample.externals Sample.self Sample.in_pregame)
      as (H1 & _ & _).
    + reflexivity.
    + repeat split; simpl; try lia; reflexivity.
    + edestruct (H1 2) as (w' & v' & Hrun & Hv' & Hst & Hcp & Hct & _);
        [reflexivity|].
      exists w', v'. split; [exact Hrun|]. split; [exact Hv'|].
      split; [exact Hst|]. split; [exact Hcp|]. exact Hct.
  - edestruct (pregame_purchases Sample.externals Sample.self Sample.settled)
      as (_ & _ & H3).
    + reflexivity.
    + repeat split; simpl; try lia; reflexivity.
    + edestruct (H3 6) as (w' & v' & Hrun & Hv' & Hcp & Hct & Hin).
      * reflexivity.
      * reflexivity.
      * repeat split; simpl; try lia; reflexivity.
      * reflexivity.
      * reflexivity.
      * exists w', v'. split; [exact Hrun|]. split; [exact Hv'|].
        split; [exact Hcp|]. split; [exact Hct|]. exact Hin.
  - edestruct (pregame_purchases Sample.externals Sample.self Sample.in_turn)
      as (_ & H2 & _).
    + reflexivity.
    + repeat split; simpl; try lia; reflexivity.
    + edestruct (H2 6) as (w' & v' & Hrun & Hv' & Hst & Hcp & Hct & _).
      * reflexivity.
      * reflexivity.
      * exists w', v'. split; [exact Hrun|]. split; [exact Hv'|].
        split; [exact Hst|]. split; [exact Hcp|]. exact Hct.
Defined.

(** ** Stealable players *)

Lemma owner_eqb_true (a b : option Player) : owner_eqb a b = true <-> a = b.
Proof.
  destruct a as [p|], b as [q|]; unfold owner_eqb;
    try (split; [discriminate|congruence]).
  - rewrite Player_eq_true. split; congruence.
  - tauto.
Qed.

Lemma set_mem_In (x : option Player) (s : list (option Player)) :
  set_mem x s = true <-> In x s.
Proof.
  unfold set_mem. rewrite existsb_exists. split.
  - intros (y & Hy & Heq). apply owner_eqb_true in Heq. now subst.
  - intros H. exists x. split; [assumption | now apply owner_eqb_true].
Qed.

Lemma set_add_In (x y : option Player) (s : list (option Player)) :
  In y (set_add x s) <-> In y s \/ y = x.
Proof.
  unfold set_add. destruct (set_mem x s) eqn:Hm.
  - apply set_mem_In in Hm. split; [auto|]. intros [H| ->]; assumption.
  - rewrite in_app_iff. simpl. split; intros [H|H]; auto.
    + destruct H as [<-|[]]. auto.
Qed.

Lemma set_add_NoDup (x : option Player) (s : list (option Player)) :
  List.NoDup s -> List.NoDup (set_add x s).
Proof.
  intros Hnd. unfold set_add. destruct (set_mem x s) eqn:Hm; [assumption|].
  apply NoDup_ListNoDup. apply NoDup_app. repeat split.
  - now apply NoDup_ListNoDup.
  - intros y Hy [->|[]]%list_elem_of_In.
    apply list_elem_of_In, set_mem_In in Hy. congruence.
  - apply NoDup_ListNoDup. repeat constructor. simpl. tauto.
Qed.

Lemma set_remove_In (x y : option Player) (s : list (option Player)) :
  In y (set_remove x s) <-> In y s /\ y <> x.
Proof.
  unfold set_remove. rewrite filter_In, negb_true_iff. split.
  - intros [H1 H2]. split; [assumption|]. intros ->.
    assert (owner_eqb x x = true) by now apply owner_eqb_true. congruence.
  - intros [H1 H2]. split; [assumption|].
    destruct (owner_eqb x y) eqn:He; [|reflexivity].
    apply owner_eqb_true in He. congruence.
Qed.

Lemma collect_owners_In (b : Board) (nodes : list Z) (acc : list (option Player))
    (x : option Player) :
  In x (collect_owners b nodes acc) <->
  In x acc \/
  exists node piece,
    In node nodes /\
    hd_error (Board_get_pieces b [PieceType.settlement; PieceType.city] node) = Some piece /\
    owner piece = x.
Proof.
  unfold collect_owners. revert acc.
  induction nodes as [|n nodes IH]; intros acc; simpl.
  - split; [auto|]. intros [H|(node & piece & [] & _)]. assumption.
  - rewrite IH.
    destruct (Board_get_pieces b [PieceType.settlement; PieceType.city] n)
      as [|pc rest] eqn:Hg.
    + split.
      * intros [H|(node & piece & Hin & Hhd & Ho)]; [auto|].
        right. exists node, piece. auto.
      * intros [H|(node & piece & [<-|Hin] & Hhd & Ho)]; [auto| |].
        -- rewrite Hg in Hhd. discriminate.
        -- right. exists node, piece. auto.
    + rewrite set_add_In. split.
      * intros [[H| ->]|(node & piece & Hin & Hhd & Ho)]; [auto| |].
        -- right. exists n, pc. rewrite Hg. auto.
        -- right. exists node, piece. auto.
      * intros [H|(node & piece & [<-|Hin] & Hhd & Ho)]; [auto| |].
        -- rewrite Hg in Hhd. injection Hhd as ->. auto.
        -- right. exists node, piece. auto.
Qed.

Lemma collect_owners_NoDup (b : Board) (nodes : list Z) (acc : list (option Player)) :
  List.NoDup acc -> List.NoDup (collect_owners b nodes acc).
Proof.
  unfold collect_owners. revert acc.
  induction nodes as [|n nodes IH]; intros acc Hnd; simpl; [assumption|].
  apply IH.
  destruct (Board_get_pieces b [PieceType.settlement; PieceType.city] n);
    [assumption | now apply set_add_NoDup].
Qed.

Lemma coord_key_eqb_true (a b : coord_key) : coord_key_eqb a b = true <-> a = b.
Proof.
  destruct a as [ka ca], b as [kb cb]. unfold coord_key_eqb. simpl.
  rewrite andb_true_iff, Z.eqb_eq.
  destruct ka, kb; simpl; split; intros H; try (destruct H; discriminate);
    try discriminate; try (destruct H; congruence); try (split; congruence).
Qed.

Lemma PieceType_eqb_true (a b : PieceType.t) : PieceType.eqb a b = true <-> a = b.
Proof. destruct a, b; simpl; split; congruence. Qed.

(** The test [Board_get_pieces] applies to an entry, for settlements and cities. *)
Lemma building_filter (e : coord_key * Piece) (node : Z) :
  existsb (fun t => PieceType.eqb t (ptype (snd e))
                    && coord_key_eqb (fst e) (coord_kind_of t, node))
          [PieceType.settlement; PieceType.city] = true
  <-> fst e = (NODE, node) /\
      (ptype (snd e) = PieceType.settlement \/ ptype (snd e) = PieceType.city).
Proof.
  cbn [existsb].
  rewrite !orb_true_iff, !andb_true_iff, !PieceType_eqb_true, !coord_key_eqb_true.
  cbn [coord_kind_of]. split.
  - intros [[H1 H2]|[[H1 H2]|H]]; [auto | auto | discriminate].
  - intros [H [H1|H1]]; auto.
Qed.

Lemma get_pieces_building (b : Board) (node : Z) (piece : Piece) :
  List.NoDup (map fst (pieces b)) ->
  hd_error (Board_get_pieces b [PieceType.settlement; PieceType.city] node) = Some piece
  <-> In ((NODE, node), piece) (pieces b) /\
      (ptype piece = PieceType.settlement \/ ptype piece = PieceType.city).
Proof.
  unfold Board_get_pieces.
  induction (pieces b) as [|e d IH]; intros Hnd.
  - simpl. split; [discriminate | intros [[] _]].
  - inversion Hnd as [|? ? Hnotin Hnd']; subst. specialize (IH Hnd').
    cbn [List.filter].
    match goal with |- context [if ?c then _ else _] => destruct c eqn:Hc end.
    + apply building_filter in Hc as [Hk Ht]. simpl. split.
      * intros [= Heq]. destruct e as [k pc]. simpl in *. subst.
        split; [now left | assumption].
      * intros [[->|Hin] Ht']; [reflexivity|].
        exfalso. apply Hnotin. rewrite Hk.
        apply (in_map fst) in Hin. exact Hin.
    + rewrite IH. split.
      * intros [H1 H2]. split; [now right | assumption].
      * intros [[->|Hin] Ht']; [|auto].
        apply not_true_iff_false in Hc. exfalso. apply Hc.
        apply building_filter. auto.
Qed.

(** C7: [stealable_players()] returns, without changing anything, a
    duplicate-free collection holding exactly the players other than the
    current one who own a settlement or a city on a node touching the
    robber's tile (nothing when the robber's tile is unknown); an empty
    result means that no other player owns such a building, so there is
    nobody to steal from. *)
Theorem stealable_players_spec E (self : loc) (w : World) (v : View) :
  view (heap w) self = Some v ->
  cur_ok (v_game v) ->
  List.NoDup (map fst (pieces (v_board v))) ->
  exists res,
    stealable_players E self w = (Ok res, w) /\
    List.NoDup res /\
    (robber_tile (v_game v) = None -> res = []) /\
    (forall tile p,
       robber_tile (v_game v) = Some tile ->
       (In (Some p) res <->
        p <> cur_player_of (v_game v) /\
        exists node, In node (nodes_touching_tile E tile) /\
                     owns_building_at (v_board v) p node)) /\
    (forall tile,
       robber_tile (v_game v) = Some tile ->
       (res = [] ->
        forall p node, In node (nodes_touching_tile E tile) ->
                       owns_building_at (v_board v) p node ->
                       p = cur_player_of (v_game v))).
Proof.
  intros Hv Hok Hnd. view_inv Hv. unfold stealable_players.
  mstep.
  destruct (robber_tile (v_game v)) as [tile|] eqn:Hrt.
  - mstep. mstep.
    set (s := collect_owners (v_board v) (nodes_touching_tile E tile) []).
    assert (Hs : forall p, In (Some p) s <->
                 exists node, In node (nodes_touching_tile E tile) /\
                              owns_building_at (v_board v) p node).
    { intros p. unfold s. rewrite collect_owners_In. split.
      - intros [[]|(node & piece & Hin & Hhd & Ho)].
        apply get_pieces_building in Hhd as [H1 H2]; [|assumption].
        exists node. split; [assumption|]. exists piece. auto.
      - intros (node & Hin & piece & H1 & H2 & H3).
        right. exists node, piece. split; [assumption|]. split; [|assumption].
        apply get_pieces_building; auto. }
    assert (Hsnd : List.NoDup s) by (apply collect_owners_NoDup; constructor).
    assert (Hres : exists res,
               (if set_mem (Some (cur_player_of (v_game v))) s
                then ret (set_remove (Some (cur_player_of (v_game v))) s)
                else ret s) w = (Ok res, w) /\
               List.NoDup res /\
               forall y, In y res <-> In y s /\ y <> Some (cur_player_of (v_game v))).
    { destruct (set_mem (Some (cur_player_of (v_game v))) s) eqn:Hm.
      - eexists. split; [reflexivity|]. split.
        + unfold set_remove. now apply List.NoDup_filter.
        + intros y. apply set_remove_In.
      - eexists. split; [reflexivity|]. split; [assumption|].
        intros y. split; [|tauto]. intros Hy. split; [assumption|].
        intros ->. apply set_mem_In in Hy. congruence. }
    destruct Hres as (res & Hrun & Hrnd & Hin).
    destruct w as [hw tw]. simpl in *.
    exists res. split; [exact Hrun|]. split; [assumption|].
    split; [discriminate|]. split.
    + intros tile' p [= <-]. rewrite Hin, Hs. split.
      * intros [H1 H2]. split; [congruence | assumption].
      * intros [H1 H2]. split; [assumption | congruence].
    + intros tile' [= <-] -> p node Hnode Hown.
      destruct (owner_eqb (Some p) (Some (cur_player_of (v_game v)))) eqn:Heq.
      * apply owner_eqb_true in Heq. congruence.
      * exfalso. apply (proj2 (Hin (Some p))).
        split; [apply Hs; eauto |].
        intros Hp. apply owner_eqb_true in Hp. congruence.
  - exists []. destruct w. split; [reflexivity|].
    split; [constructor|]. split; [reflexivity|].
    split; intros; discriminate.
Qed.

Lemma stealable_players_spec_witness :
  exists v res,
    view (heap Sample.road_built) Sample.self = Some v /\
    _cur_player (v_game v) = Some (mkPlayer 2 "qlearn" "blue") /\
    robber_tile (v_game v) = Some 1 /\
    stealable_players Sample.externals Sample.self Sample.road_built
      = (Ok res, Sample.road_built) /\
    In (Some (mkPlayer 1 "abdur" "green")) res /\
    ~ In (Some (mkPlayer 2 "qlearn" "blue")) res.
Proof.
  eexists.
  edestruct (stealable_players_spec Sample.externals Sample.self Sample.road_built)
    as (res & Hrun & _ & _ & Hin & _).
  - reflexivity.
  - repeat split; simpl; try lia; reflexivity.
  - simpl. repeat constructor; simpl; intuition discriminate.
  - exists res. split; [reflexivity|]. split; [reflexivity|].
    split; [reflexivity|]. split; [exact Hrun|]. split.
    + apply (Hin 1); [reflexivity|]. split; [discriminate|].
      exists 2. split; [simpl; auto|].
      eexists. split; [simpl; right; left; reflexivity|]. simpl. auto.
    + intros H. apply (Hin 1) in H; [|reflexivity].
      destruct H as [H _]. apply H. reflexivity.
Defined.

(** ** More on Player *)

Lemma utf8_app (a b : string) :
  PyStr.utf8 (a ++ b)%string = PyStr.utf8 a ++ PyStr.utf8 b.
Proof. induction a as [|c a IH]; simpl; [reflexivity | now rewrite IH]. Qed.

Lemma sum_app (xs ys : list Z) : PyStr.sum (xs ++ ys) = PyStr.sum xs + PyStr.sum ys.
Proof. unfold PyStr.sum. induction xs as [|x xs IH]; simpl; lia. Qed.

(** X1: a Player that [__init__] built is rebuilt unchanged from its own
    seat, name and color: the constructor succeeds again and normalizing
    the stored name and color a second time changes nothing.  This is what
    [get_cur_player] and [set_cur_player] rely on when they copy a
    Player. *)
Theorem Player_init_rebuild (s : Z) (n c : string) (p : Player) :
  Player_init s n c = Ok p ->
  Player_init (seat p) (name p) (color p) = Ok p.
Proof.
  intros H. apply Player_init_Ok in H as (Hv & _). now apply Player_init_valid.
Qed.

Lemma Player_init_rebuild_witness :
  Player_init 2 "Q Learn" "Blue" = Ok (mkPlayer 2 "qlearn" "blue") /\
  Player_init 2 "qlearn" "blue" = Ok (mkPlayer 2 "qlearn" "blue").
Proof.
  split; [reflexivity|].
  exact (Player_init_rebuild 2 "Q Learn" "Blue" (mkPlayer 2 "qlearn" "blue") eq_refl).
Defined.

(** X2: the hash of a Player is the sum of the character codes of its color
    and of its name plus 113 (the space and the two brackets of its
    repr); it does not depend on the seat, nor on which of the two texts
    is the name and which the color, so unequal Players can have equal
    hashes. *)
Theorem Player_hash_sum (p : Player) :
  Player_hash p
    = PyStr.sum (PyStr.utf8 (color p)) + PyStr.sum (PyStr.utf8 (name p)) + 113 /\
  (forall s, Player_hash (mkPlayer s (color p) (name p)) = Player_hash p).
Proof.
  assert (H : forall q, Player_hash q
            = PyStr.sum (PyStr.utf8 (color q)) + PyStr.sum (PyStr.utf8 (name q)) + 113).
  { intros q. unfold Player_hash, Player_repr.
    rewrite !utf8_app, !sum_app. simpl. lia. }
  split; [apply H|]. intros s. rewrite !H. simpl. lia.
Qed.

(** X3: [Player.__eq__] is an equivalence on Players: reflexive, symmetric
    and transitive. *)
Theorem Player_eq_equivalence (p q r : Player) :
  Player_eq p (PyPlayer p) = true /\
  Player_eq p (PyPlayer q) = Player_eq q (PyPlayer p) /\
  (Player_eq p (PyPlayer q) = true -> Player_eq q (PyPlayer r) = true ->
   Player_eq p (PyPlayer r) = true).
Proof.
  split; [now apply Player_eq_true|]. split.
  - destruct (Player_eq p (PyPlayer q)) eqn:H1, (Player_eq q (PyPlayer p)) eqn:H2;
      try reflexivity.
    + apply Player_eq_true in H1. subst q.
      assert (Player_eq p (PyPlayer p) = true) by now apply Player_eq_true.
      congruence.
    + apply Player_eq_true in H2. subst q.
      assert (Player_eq p (PyPlayer p) = true) by now apply Player_eq_true.
      congruence.
  - intros H1 H2. apply Player_eq_true in H1, H2. subst. now apply Player_eq_true.
Qed.

Lemma Player_eq_equivalence_witness :
  Player_eq (mkPlayer 1 "abdur" "green") (PyPlayer (mkPlayer 1 "abdur" "green")) = true.
Proof.
  refine (proj2 (proj2 (Player_eq_equivalence (mkPlayer 1 "abdur" "green")
                          (mkPlayer 1 "abdur" "green") (mkPlayer 1 "abdur" "green")))
            _ _); reflexivity.
Defined.

(** ** The current player *)

(** X4: [set_cur_player] stores a Player rebuilt from the seat, name and
    color of its argument, so [get_cur_player] afterwards returns that
    Player with name and color normalized, and neither call notifies
    anybody; with a seat outside 1..4 [set_cur_player] raises and changes
    nothing; without a current player [get_cur_player] returns the
    sentinel Player(1, 'nobody', 'nobody') and changes nothing. *)
Theorem cur_player_round_trip (self : loc) (w : World) (g : Game) (p : Player) :
  heap w !! self = Some (OGame g) ->
  (1 <= seat p <= 4 ->
   exists w',
     set_cur_player self p w = (Ok tt, w') /\
     trace w' = trace w /\
     get_cur_player self w' =
       (Ok {| seat := seat p; name := normalize (name p); color := normalize (color p) |},
        w')) /\
  (~ 1 <= seat p <= 4 -> set_cur_player self p w = (Err InvalidPlayer, w)) /\
  (_cur_player g = None -> get_cur_player self w = (Ok nobody, w)).
Proof.
  intros Hg. split; [| split].
  - intros Hs.
    set (q := {| seat := seat p; name := normalize (name p);
                 color := normalize (color p) |}).
    assert (Hq : valid_player q)
      by (repeat split; simpl; try lia; apply normalize_idem).
    assert (Hinit : Player_init (seat p) (name p) (color p) = Ok q)
      by (unfold Player_init; now rewrite (seat_in_range _ Hs)).
    unfold set_cur_player. rewrite Hinit. unfold lift.
    erewrite bind_ok by reflexivity. cbv beta.
    erewrite setattr_eq by eassumption.
    eexists. split; [reflexivity|]. split; [reflexivity|].
    eapply get_cur_player_eq with (g := with_cur_player (Some q) g).
    + simpl. apply list_lookup_insert_eq. now apply lookup_lt_Some in Hg.
    + exact Hq.
  - intros Hs. unfold set_cur_player, Player_init.
    rewrite (seat_out_of_range _ Hs). simpl.
    erewrite bind_err by reflexivity. reflexivity.
  - intros Hn. unfold get_cur_player.
    erewrite bind_ok by (eapply get_game_eq; eassumption). cbv beta.
    now rewrite Hn.
Qed.

Lemma cur_player_round_trip_witness :
  exists w',
    set_cur_player Sample.self (mkPlayer 3 "Vi Tor" "Orange") Sample.created = (Ok tt, w') /\
    get_cur_player Sample.self w' = (Ok (mkPlayer 3 "vitor" "orange"), w') /\
    set_cur_player Sample.self (mkPlayer 7 "vitor" "orange") Sample.created
      = (Err InvalidPlayer, Sample.created) /\
    get_cur_player Sample.self Sample.created = (Ok nobody, Sample.created).
Proof.
  edestruct (cur_player_round_trip Sample.self Sample.created)
    with (p := mkPlayer 3 "Vi Tor" "Orange") as (H1 & _ & H3); [reflexivity|].
  edestruct (cur_player_round_trip Sample.self Sample.created)
    with (p := mkPlayer 7 "vitor" "orange") as (_ & H2 & _); [reflexivity|].
  destruct H1 as (w' & Hset & _ & Hget); [simpl; lia|].
  exists w'. split; [exact Hset|]. split; [exact Hget|].
  split; [apply H2; simpl; lia | apply H3; reflexivity].
Defined.

(** ** __init__ *)




(** ** set_state, reset, end *)

(** X6: [set_state] installs the given state object, sets the lock of the
    board to what [is_in_game()] of that state answers, and then notifies
    the observers: once for each callback of the board's lock or unlock,
    and once by [set_state] itself.  The pieces on the board, the players,
    the current player, the turn counter and the dev-card state are left
    as they were. *)
Theorem set_state_installs E (self st : loc) (w : World) (v : View)
    (s : GameState) (bk : loc) :
  view (heap w) self = Some v ->
  heap w !! st = Some (OState s bk) ->
  exists w' v',
    set_state E self st w = (Ok tt, w') /\
    view (heap w') self = Some v' /\
    v_state_ref v' = st /\
    v_state v' = s /\
    locked (v_board v') = is_in_game s /\
    pieces (v_board v') = pieces (v_board v) /\
    v_players v' = v_players v /\
    _cur_player (v_game v') = _cur_player (v_game v) /\
    _cur_turn (v_game v') = _cur_turn (v_game v) /\
    v_dev_card_state v' = v_dev_card_state v /\
    trace w' =
      trace w
      ++ notify_rounds (board_callbacks E (if is_in_game s then op_lock else op_unlock))
           self (v_observers v)
      ++ notify_events self (v_observers v).
Proof.
  intros Hv Hst. view_inv Hv.
  erewrite set_state_eq by eassumption.
  view_exists. split; [reflexivity|]. split; [view_intro|].
  proj_simpl. repeat split; reflexivity.
Qed.

Lemma set_state_installs_witness :
  exists w' v',
    set_state Sample.externals Sample.self 10%nat Sample.in_turn = (Ok tt, w') /\
    view (heap w') Sample.self = Some v' /\
    v_state v' = GameStateNotInGame /\
    locked (v_board v') = false.
Proof.
  edestruct (set_state_installs Sample.externals Sample.self 10%nat Sample.in_turn)
    as (w' & v' & Hrun & Hv' & _ & Hs & Hl & _);
    [reflexivity | reflexivity |].
  exists w', v'. split; [exact Hrun|]. split; [exact Hv'|].
  split; [exact Hs | exact Hl].
Defined.

(** X7: [reset] empties the players (in a new list: the old list object is
    not changed), installs NotInGame, clears the last roll, its roller and
    the current player, and sets the turn counter to 0, after which
    [get_cur_player] answers the nobody sentinel.  It keeps the board with
    its pieces, the robber tile, the dev-card state, the observers and the
    undo history, and notifies the observers once. *)
Theorem reset_clears_and_keeps (self : loc) (w : World) (v : View) :
  view (heap w) self = Some v ->
  exists w' v',
    reset self w = (Ok tt, w') /\
    view (heap w') self = Some v' /\
    v_players v' = [] /\
    heap w' !! players (v_game v) = Some (OList (v_players v)) /\
    v_state v' = GameStateNotInGame /\
    last_roll (v_game v') = None /\
    last_player_to_roll (v_game v') = None /\
    _cur_player (v_game v') = None /\
    _cur_turn (v_game v') = 0 /\
    get_cur_player self w' = (Ok nobody, w') /\
    v_board v' = v_board v /\
    robber_tile (v_game v') = robber_tile (v_game v) /\
    v_dev_card_state v' = v_dev_card_state v /\
    v_observers v' = v_observers v /\
    v_manager v' = v_manager v /\
    trace w' = trace w ++ notify_events self (v_observers v).
Proof.
  intros Hv. view_inv Hv. unfold reset, new_state.
  do 8 mstep.
  erewrite notify_observers_eq by heap_lookup.
  view_exists. split; [reflexivity|]. split; [view_intro|].
  proj_simpl. repeat split; try reflexivity.
  - heap_lookup.
  - unfold get_cur_player.
    erewrite bind_ok by (eapply get_game_eq; heap_lookup). reflexivity.
Qed.

Lemma reset_clears_and_keeps_witness :
  exists v w' v',
    view (heap Sample.road_built) Sample.self = Some v /\
    reset Sample.self Sample.road_built = (Ok tt, w') /\
    view (heap w') Sample.self = Some v' /\
    v_players v' = [] /\
    _cur_turn (v_game v') = 0 /\
    pieces (v_board v') = pieces (v_board v) /\
    robber_tile (v_game v') = Some 1.
Proof.
  eexists.
  edestruct (reset_clears_and_keeps Sample.self Sample.road_built)
    as (w' & v' & Hrun & Hv' & Hps & _ & _ & _ & _ & _ & Hct & _ & Hb & Hrt & _);
    [reflexivity|].
  exists w', v'. split; [reflexivity|]. split; [exact Hrun|]. split; [exact Hv'|].
  split; [exact Hps|]. split; [exact Hct|]. split; [now rewrite Hb | exact Hrt].
Defined.

(** X8: [Game.end] logs the current player as the winner, whoever it is,
    stores the tally of [evaluate_final], installs NotInGame and unlocks
    the board; the observers are notified for each callback of the
    unlock, once by [set_state] and once more by [end] itself.  Players,
    current player, turn counter and pieces are kept. *)
Theorem end_postcondition E (self : loc) (w : World) (v : View) :
  view (heap w) self = Some v ->
  cur_ok (v_game v) ->
  exists w' v',
    end_ E self w = (Ok tt, w') /\
    view (heap w') self = Some v' /\
    v_state v' = GameStateNotInGame /\
    locked (v_board v') = false /\
    pieces (v_board v') = pieces (v_board v) /\
    v_player_to_resources v' = tally_resources E (v_board v) /\
    v_players v' = v_players v /\
    _cur_player (v_game v') = _cur_player (v_game v) /\
    _cur_turn (v_game v') = _cur_turn (v_game v) /\
    trace w' =
      trace w
      ++ [Logged (log_wins (cur_player_of (v_game v)))]
      ++ notify_rounds (board_callbacks E op_unlock) self (v_observers v)
      ++ notify_events self (v_observers v)
      ++ notify_events self (v_observers v).
Proof.
  intros Hv Hok.
  destruct (end_spec E self w v Hv Hok) as (w' & Hrun & Hv' & Htr).
  exists w'. eexists. split; [exact Hrun|]. split; [exact Hv'|].
  proj_simpl. repeat split; try reflexivity. exact Htr.
Qed.

Lemma end_postcondition_witness :
  exists w' v',
    end_ Sample.externals Sample.self Sample.in_turn = (Ok tt, w') /\
    view (heap w') Sample.self = Some v' /\
    v_state v' = GameStateNotInGame /\
    locked (v_board v') = false /\
    trace w' =
      trace Sample.in_turn
      ++ [Logged (log_wins (mkPlayer 1 "abdur" "green"));
          Notified 100 Sample.self; Notified 100 Sample.self].
Proof.
  edestruct (end_postcondition Sample.externals Sample.self Sample.in_turn)
    as (w' & v' & Hrun & Hv' & Hs & Hl & _ & _ & _ & _ & _ & Htr).
  - reflexivity.
  - repeat split; simpl; try lia; reflexivity.
  - exists w', v'. split; [exact Hrun|]. split; [exact Hv'|].
    split; [exact Hs|]. split; [exact Hl | exact Htr].
Defined.

(** ** play_knight and begin_placing *)

Lemma play_knight_body_spec E (self : loc) (w : World) (v : View) :
  view (heap w) self = Some v ->
  exists w' v',
    play_knight_body E self w = (Ok tt, w') /\
    view (heap w') self = Some v' /\
    v_dev_card_state v' = DevCardPlayedState /\
    v_state v' = GameStateMoveRobberUsingKnight /\
    locked (v_board v') = true /\
    pieces (v_board v') = pieces (v_board v) /\
    _cur_player (v_game v') = _cur_player (v_game v) /\
    _cur_turn (v_game v') = _cur_turn (v_game v) /\
    v_manager v' = v_manager v /\
    undo_manager (v_game v') = undo_manager (v_game v).
Proof.
  intros Hv. view_inv Hv.
  unfold play_knight_body, new_dev_card_state, new_state.
  do 3 mstep. erewrite set_state_eq by heap_lookup.
  view_exists. split; [reflexivity|]. split; [view_intro|].
  proj_simpl. repeat split; reflexivity.
Qed.

(** X9: [play_knight] succeeds on every Game, also when a dev card has
    already been played this turn: it installs the dev-card state Played
    and the state MoveRobberUsingKnight, locks the board, keeps the
    pieces, the current player and the turn counter, adds one command to
    the undo history and empties the redo history. *)
Theorem play_knight_postcondition E (self : loc) (w : World) (v : View) :
  view (heap w) self = Some v ->
  exists w' v' c,
    play_knight E self w = (Ok tt, w') /\
    view (heap w') self = Some v' /\
    v_dev_card_state v' = DevCardPlayedState /\
    v_state v' = GameStateMoveRobberUsingKnight /\
    locked (v_board v') = true /\
    pieces (v_board v') = pieces (v_board v) /\
    _cur_player (v_game v') = _cur_player (v_game v) /\
    _cur_turn (v_game v') = _cur_turn (v_game v) /\
    undo_stack (v_manager v') = c :: undo_stack (v_manager v) /\
    cmd_obj c = self /\
    redo_stack (v_manager v') = [].
Proof.
  intros Hv.
  destruct (play_knight_body_spec E self
              {| heap := body_heap (heap w) v; trace := trace w |} v)
    as (w2 & v2 & Hrun & Hv2 & Hd & Hs & Hl & Hp & Hcp & Hct & Hm & Hum).
  { simpl. now apply view_app. }
  destruct (do_spec self (play_knight_body E self) w w2 v v2 Hv Hrun Hv2 Hum)
    as (w3 & Hdo & Hv3 & _).
  exists w3. eexists. eexists. split; [exact Hdo|]. split; [exact Hv3|].
  proj_simpl. rewrite Hm. repeat split; try assumption; reflexivity.
Qed.

Lemma play_knight_postcondition_witness :
  exists v w' v',
    view (heap Sample.knight_played) Sample.self = Some v /\
    v_dev_card_state v = DevCardPlayedState /\
    play_knight Sample.externals Sample.self Sample.knight_played = (Ok tt, w') /\
    view (heap w') Sample.self = Some v' /\
    v_state v' = GameStateMoveRobberUsingKnight /\
    length (undo_stack (v_manager v')) = 4%nat.
Proof.
  eexists.
  edestruct (play_knight_postcondition Sample.externals Sample.self Sample.knight_played)
    as (w' & v' & c & Hrun & Hv' & _ & Hs & _ & _ & _ & _ & Hu & _); [reflexivity|].
  exists w', v'. split; [reflexivity|]. split; [reflexivity|].
  split; [exact Hrun|]. split; [exact Hv'|]. split; [exact Hs|].
  rewrite Hu. reflexivity.
Defined.

Lemma begin_placing_body_spec E (pt : PieceType.t) (self : loc) (w : World) (v : View) :
  view (heap w) self = Some v ->
  exists w' v',
    begin_placing_body E pt self w = (Ok tt, w') /\
    view (heap w') self = Some v' /\
    v_state v' =
      (if is_in_pregame (v_state v) then GameStatePreGamePlacingPiece pt
       else GameStatePlacingPiece pt) /\
    locked (v_board v') = true /\
    pieces (v_board v') = pieces (v_board v) /\
    _cur_player (v_game v') = _cur_player (v_game v) /\
    _cur_turn (v_game v') = _cur_turn (v_game v) /\
    v_dev_card_state v' = v_dev_card_state v /\
    undo_manager (v_game v') = undo_manager (v_game v).
Proof.
  intros Hv. view_inv Hv. unfold begin_placing_body, new_state.
  do 2 mstep. cbn [fst snd].
  destruct (is_in_pregame (v_state v)).
  - mstep. erewrite set_state_eq by heap_lookup.
    view_exists. split; [reflexivity|]. split; [view_intro|].
    proj_simpl. repeat split; reflexivity.
  - mstep. erewrite set_state_eq by heap_lookup.
    view_exists. split; [reflexivity|]. split; [view_intro|].
    proj_simpl. repeat split; reflexivity.
Qed.

(** X10: [begin_placing(piece_type)] installs PreGamePlacingPiece of that
    piece type when the state is in pregame and PlacingPiece of it
    otherwise (also when no game is in progress); either way the board
    ends locked, and the pieces, the current player, the turn counter and
    the dev-card state are kept. *)
Theorem begin_placing_installs E (self : loc) (pt : PieceType.t) (w : World) (v : View) :
  view (heap w) self = Some v ->
  exists w' v',
    begin_placing E self pt w = (Ok tt, w') /\
    view (heap w') self = Some v' /\
    v_state v' =
      (if is_in_pregame (v_state v) then GameStatePreGamePlacingPiece pt
       else GameStatePlacingPiece pt) /\
    locked (v_board v') = true /\
    pieces (v_board v') = pieces (v_board v) /\
    _cur_player (v_game v') = _cur_player (v_game v) /\
    _cur_turn (v_game v') = _cur_turn (v_game v) /\
    v_dev_card_state v' = v_dev_card_state v.
Proof.
  intros Hv.
  destruct (begin_placing_body_spec E pt self
              {| heap := body_heap (heap w) v; trace := trace w |} v)
    as (w2 & v2 & Hrun & Hv2 & Hs & Hl & Hp & Hcp & Hct & Hd & Hum).
  { simpl. now apply view_app. }
  destruct (do_spec self (begin_placing_body E pt self) w w2 v v2 Hv Hrun Hv2 Hum)
    as (w3 & Hdo & Hv3 & _).
  exists w3. eexists. split; [exact Hdo|]. split; [exact Hv3|].
  proj_simpl. repeat split; assumption.
Qed.

Lemma begin_placing_installs_witness :
  (exists w' v',
     begin_placing Sample.externals Sample.self PieceType.city Sample.in_turn = (Ok tt, w') /\
     view (heap w') Sample.self = Some v' /\
     v_state v' = GameStatePlacingPiece PieceType.city) /\
  (exists w' v',
     begin_placing Sample.externals Sample.self PieceType.road Sample.in_pregame
       = (Ok tt, w') /\
     view (heap w') Sample.self = Some v' /\
     v_state v' = GameStatePreGamePlacingPiece PieceType.road) /\
  (exists w' v',
     begin_placing Sample.externals Sample.self PieceType.road Sample.created
       = (Ok tt, w') /\
     view (heap w') Sample.self = Some v' /\
     v_state v' = GameStatePlacingPiece PieceType.road /\
     locked (v_board v') = true).
Proof.
  split; [| split].
  - edestruct (begin_placing_installs Sample.externals Sample.self PieceType.city
                 Sample.in_turn) as (w' & v' & Hrun & Hv' & Hs & _); [reflexivity|].
    exists w', v'. split; [exact Hrun|]. split; [exact Hv' | exact Hs].
  - edestruct (begin_placing_installs Sample.externals Sample.self PieceType.road
                 Sample.in_pregame) as (w' & v' & Hrun & Hv' & Hs & _); [reflexivity|].
    exists w', v'. split; [exact Hrun|]. split; [exact Hv' | exact Hs].
  - edestruct (begin_placing_installs Sample.externals Sample.self PieceType.road
                 Sample.created) as (w' & v' & Hrun & Hv' & Hs & Hl & _); [reflexivity|].
    exists w', v'. split; [exact Hrun|]. split; [exact Hv'|].
    split; [exact Hs | exact Hl].
Defined.

(** ** Purchases the board rejects *)

(** X11: when the board rejects the placement, [buy_settlement] and
    [buy_road] raise the board's exception and leave the Game exactly as
    it was: nothing is logged, nobody is notified, the state is not
    changed and the turn is not ended. *)
Theorem purchase_rejected E (self : loc) (coord : Z) (e : exn) (w : World) (v : View) :
  view (heap w) self = Some v ->
  cur_ok (v_game v) ->
  (Board_place_piece E (v_board v)
     {| ptype := PieceType.settlement; owner := Some (cur_player_of (v_game v)) |} coord
     = Err e ->
   buy_settlement E self coord w = (Err e, w)) /\
  (Board_place_piece E (v_board v)
     {| ptype := PieceType.road; owner := Some (cur_player_of (v_game v)) |} coord
     = Err e ->
   buy_road E self coord w = (Err e, w)).
Proof.
  intros Hv Hok. view_inv Hv. split; intros Hp.
  - unfold buy_settlement, place_piece. do 2 mstep.
    erewrite bind_err; [reflexivity|].
    mstep. erewrite bind_err; [reflexivity|]. unfold lift. now rewrite Hp.
  - unfold buy_road, place_piece. do 2 mstep.
    erewrite bind_err; [reflexivity|].
    mstep. erewrite bind_err; [reflexivity|]. unfold lift. now rewrite Hp.
Qed.

Lemma purchase_rejected_witness :
  buy_settlement Sample.externals Sample.self 2 Sample.settled
    = (Err IllegalPlacement, Sample.settled) /\
  buy_road Sample.externals Sample.self 6 Sample.road_built
    = (Err IllegalPlacement, Sample.road_built).
Proof.
  split.
  - eapply (proj1 (purchase_rejected Sample.externals Sample.self 2 IllegalPlacement
                     Sample.settled _ eq_refl _)).
    reflexivity.
  - eapply (proj2 (purchase_rejected Sample.externals Sample.self 6 IllegalPlacement
                     Sample.road_built _ eq_refl _)).
    reflexivity.
  Unshelve.
  all: repeat split; simpl; try lia; reflexivity.
Defined.

(** ** undo and redo *)

Lemma UndoManager_redo_spec E (self : loc) (w : World) (v vs : View)
    (c : Command) (rest : list Command) :
  view (heap w) self = Some v ->
  redo_stack (v_manager v) = c :: rest ->
  cmd_obj c = self ->
  view (heap w) (cmd_after c) = Some vs ->
  exists w',
    UndoManager_redo E (undo_manager (v_game v)) w = (Ok tt, w') /\
    view (heap w') self =
      Some (with_v_manager
              {| undo_stack := c :: undo_stack (v_manager v); redo_stack := rest |}
              (restored_view self v vs)) /\
    trace w' = trace w
               ++ notify_rounds (board_callbacks E op_restore) self (v_observers vs)
               ++ notify_events self (v_observers vs).
Proof.
  intros Hv Hstack Hobj Hs.
  pose proof Hv as Hv'. view_inv Hv'.
  unfold UndoManager_redo.
  mstep. rewrite Hstack, Hobj.
  set (popped := {| undo_stack := undo_stack (v_manager v); redo_stack := rest |}).
  set (w1 := {| heap := <[undo_manager (v_game v) := OManager popped]> (heap w);
                trace := trace w |}).
  destruct (view_store_manager (heap w) self (undo_manager (v_game v)) v
              (v_manager v) popped Hv ltac:(assumption)) as (m1 & Hv1 & Hm1).
  destruct (view_store_manager (heap w) (cmd_after c) (undo_manager (v_game v)) vs
              (v_manager v) popped Hs ltac:(assumption)) as (m2 & Hs1 & _).
  specialize (Hm1 eq_refl). subst m1.
  destruct (restore_spec E self (cmd_after c) w1 _ _ Hv1 Hs1) as (w2 & Hres & Hv2 & Htr).
  erewrite bind_ok by reflexivity. cbv beta. fold w1.
  erewrite bind_ok by exact Hres. cbv beta.
  clear - Hv2 Htr. view_inv Hv2.
  mstep.
  eexists. split; [reflexivity|]. split; [view_intro | exact Htr].
Qed.

Lemma redo_spec E (self : loc) (w : World) (v vs : View)
    (c : Command) (rest : list Command) :
  view (heap w) self = Some v ->
  redo_stack (v_manager v) = c :: rest ->
  cmd_obj c = self ->
  view (heap w) (cmd_after c) = Some vs ->
  exists w',
    redo E self w = (Ok tt, w') /\
    view (heap w') self =
      Some (with_v_manager
              {| undo_stack := c :: undo_stack (v_manager v); redo_stack := rest |}
              (restored_view self v vs)) /\
    trace w' = trace w
               ++ notify_rounds (board_callbacks E op_restore) self (v_observers vs)
               ++ notify_events self (v_observers vs)
               ++ notify_events self (v_observers vs).
Proof.
  intros Hv Hstack Hobj Hs.
  destruct (UndoManager_redo_spec E self w v vs c rest Hv Hstack Hobj Hs)
    as (w2 & Hrun & Hv2 & Htr).
  pose proof Hv as Hv'. view_inv Hv'.
  unfold redo. mstep.
  erewrite bind_ok by exact Hrun. cbv beta.
  pose proof Hv2 as Hv2'. view_inv Hv2'.
  erewrite notify_observers_eq by eassumption.
  eexists. split; [reflexivity|]. split; [exact Hv2|].
  simpl. rewrite Htr. now rewrite <- !app_assoc.
Qed.

(** X12: with an empty undo history [undo] raises NothingToUndo, and with
    an empty redo history [redo] raises NothingToRedo; in both cases the
    Game is left exactly as it was and nobody is notified. *)
Theorem undo_redo_nothing E (self : loc) (w : World) (v : View) :
  view (heap w) self = Some v ->
  (undo_stack (v_manager v) = [] -> undo E self w = (Err NothingToUndo, w)) /\
  (redo_stack (v_manager v) = [] -> redo E self w = (Err NothingToRedo, w)).
Proof.
  intros Hv. split; intros Hstack.
  - now apply (undo_nothing E self w v).
  - view_inv Hv. unfold redo, UndoManager_redo.
    mstep. erewrite bind_err; [reflexivity|].
    mstep. rewrite Hstack. now destruct w.
Qed.

Lemma undo_redo_nothing_witness :
  undo Sample.externals Sample.self Sample.created
    = (Err NothingToUndo, Sample.created) /\
  redo Sample.externals Sample.self Sample.in_turn
    = (Err NothingToRedo, Sample.in_turn).
Proof.
  split.
  - eapply (proj1 (undo_redo_nothing Sample.externals Sample.self Sample.created
                     _ eq_refl)).
    reflexivity.
  - eapply (proj2 (undo_redo_nothing Sample.externals Sample.self Sample.in_turn
                     _ eq_refl)).
    reflexivity.
Defined.

(** X13: [undo] restores the Game to the before-snapshot of the latest
    command and [redo] to the after-snapshot of the latest undone one: the
    board, the players, the state variant (with the Game as its
    back-reference), the dev-card state, the current player, the turn
    counter, the last roll and the robber tile are the snapshot's.  The
    Game keeps its undo engine, in which the command has moved from one
    history to the other. *)
Theorem undo_redo_restore E (self : loc) (w : World) (v vs : View)
    (c : Command) (rest : list Command) :
  view (heap w) self = Some v ->
  cmd_obj c = self ->
  (undo_stack (v_manager v) = c :: rest ->
   view (heap w) (cmd_before c) = Some vs ->
   exists w' v',
     undo E self w = (Ok tt, w') /\
     view (heap w') self = Some v' /\
     v_board v' = v_board vs /\
     v_players v' = v_players vs /\
     v_state v' = v_state vs /\
     v_state_game v' = self /\
     v_dev_card_state v' = v_dev_card_state vs /\
     _cur_player (v_game v') = _cur_player (v_game vs) /\
     _cur_turn (v_game v') = _cur_turn (v_game vs) /\
     last_roll (v_game v') = last_roll (v_game vs) /\
     robber_tile (v_game v') = robber_tile (v_game vs) /\
     undo_manager (v_game v') = undo_manager (v_game v) /\
     undo_stack (v_manager v') = rest /\
     redo_stack (v_manager v') = c :: redo_stack (v_manager v)) /\
  (redo_stack (v_manager v) = c :: rest ->
   view (heap w) (cmd_after c) = Some vs ->
   exists w' v',
     redo E self w = (Ok tt, w') /\
     view (heap w') self = Some v' /\
     v_board v' = v_board vs /\
     v_players v' = v_players vs /\
     v_state v' = v_state vs /\
     v_state_game v' = self /\
     v_dev_card_state v' = v_dev_card_state vs /\
     _cur_player (v_game v') = _cur_player (v_game vs) /\
     _cur_turn (v_game v') = _cur_turn (v_game vs) /\
     last_roll (v_game v') = last_roll (v_game vs) /\
     robber_tile (v_game v') = robber_tile (v_game vs) /\
     undo_manager (v_game v') = undo_manager (v_game v) /\
     undo_stack (v_manager v') = c :: undo_stack (v_manager v) /\
     redo_stack (v_manager v') = rest).
Proof.
  intros Hv Hobj. split; intros Hstack Hs.
  - destruct (undo_spec E self w v vs c rest Hv Hstack Hobj Hs) as (w' & Hrun & Hv' & _).
    exists w'. eexists. split; [exact Hrun|]. split; [exact Hv'|].
    proj_simpl. repeat split; reflexivity.
  - destruct (redo_spec E self w v vs c rest Hv Hstack Hobj Hs) as (w' & Hrun & Hv' & _).
    exists w'. eexists. split; [exact Hrun|]. split; [exact Hv'|].
    proj_simpl. repeat split; reflexivity.
Qed.

Lemma undo_redo_restore_witness :
  exists w1 v1 w2 v2,
    undo Sample.externals Sample.self Sample.in_turn = (Ok tt, w1) /\
    view (heap w1) Sample.self = Some v1 /\
    v_state v1 = GameStateBeginTurn /\
    last_roll (v_game v1) = None /\
    redo Sample.externals Sample.self w1 = (Ok tt, w2) /\
    view (heap w2) Sample.self = Some v2 /\
    v_state v2 = GameStateDuringTurnAfterRoll /\
    last_roll (v_game v2) = Some 4 /\
    redo_stack (v_manager v2) = [].
Proof.
  edestruct (undo_redo_restore Sample.externals Sample.self Sample.in_turn)
    with (c := mkCommand Sample.self 36 47)
    as ((w1 & v1 & Hrun1 & Hv1 & _ & _ & Hs1 & _ & _ & _ & _ & Hl1 & _) & _);
    [reflexivity | reflexivity | reflexivity | reflexivity |].
  exists w1, v1.
  assert (Hw1 : w1 = after (undo Sample.externals Sample.self) Sample.in_turn)
    by (unfold after; now rewrite Hrun1).
  edestruct (undo_redo_restore Sample.externals Sample.self w1)
    with (c := mkCommand Sample.self 36 47)
    as (_ & (w2 & v2 & Hrun2 & Hv2 & _ & _ & Hs2 & _ & _ & _ & _ & Hl2 & _ & _ & _ & Hr2));
    [exact Hv1 | reflexivity | | |].
  - rewrite Hw1 in Hv1. vm_compute in Hv1. injection Hv1 as <-. reflexivity.
  - rewrite Hw1. vm_compute. reflexivity.
  - exists w2, v2. repeat split; eassumption.
Defined.

(** ** An undoable method followed by undo *)

(** [roll_body] changes the Game it is called on and its board, and
    nothing of another Game object that has a board of its own. *)
Lemma roll_body_frame E (r : Z) (self snap : loc) (w : World) (v vs : View) :
  view (heap w) self = Some v ->
  cur_ok (v_game v) ->
  view (heap w) snap = Some vs ->
  snap <> self ->
  board (v_game vs) <> board (v_game v) ->
  exists w' v',
    roll_body E r self w = (Ok tt, w') /\
    view (heap w') self = Some v' /\
    undo_manager (v_game v') = undo_manager (v_game v) /\
    view (heap w') snap = Some vs.
Proof.
  intros Hv Hok Hs Hne Hbne. view_inv Hv. view_inv Hs.
  unfold roll_body, new_state.
  do 5 mstep.
  destruct (r =? 7).
  - mstep. erewrite set_state_eq by heap_lookup.
    view_exists. split; [reflexivity|]. split; [view_intro|].
    proj_simpl. split; [reflexivity|]. view_intro.
  - mstep. erewrite set_state_eq by heap_lookup.
    view_exists. split; [reflexivity|]. split; [view_intro|].
    proj_simpl. split; [reflexivity|]. view_intro.
Qed.

(** If the body of an undoable method leaves the before-snapshot as it
    was taken, [undo] after the method gives back the observable Game. *)
Lemma do_then_undo E (self : loc) (action : M unit) (w w2 : World) (v v2 : View) :
  view (heap w) self = Some v ->
  action {| heap := body_heap (heap w) v; trace := trace w |} = (Ok tt, w2) ->
  view (heap w2) self = Some v2 ->
  undo_manager (v_game v2) = undo_manager (v_game v) ->
  view (heap w2) (length (heap w)) = Some (snapshot_view v (length (heap w))) ->
  exists w3 w4 v4,
    do self action w = (Ok tt, w3) /\
    undo E self w3 = (Ok tt, w4) /\
    view (heap w4) self = Some v4 /\
    v_state v4 = v_state v /\
    v_board v4 = v_board v /\
    v_players v4 = v_players v /\
    v_observers v4 = v_observers v /\
    v_dev_card_state v4 = v_dev_card_state v /\
    _cur_player (v_game v4) = _cur_player (v_game v) /\
    _cur_turn (v_game v4) = _cur_turn (v_game v) /\
    last_roll (v_game v4) = last_roll (v_game v) /\
    last_player_to_roll (v_game v4) = last_player_to_roll (v_game v) /\
    robber_tile (v_game v4) = robber_tile (v_game v) /\
    undo_stack (v_manager v4) = undo_stack (v_manager v) /\
    redo_stack (v_manager v4) = [mkCommand self (length (heap w)) (length (heap w2))].
Proof.
  intros Hv Hact Hv2 Hum Hsnap.
  set (n := length (heap w)) in *.
  set (c := mkCommand self n (length (heap w2))).
  set (m3 := {| undo_stack := c :: undo_stack (v_manager v2); redo_stack := [] |}).
  set (w3 := {| heap := <[undo_manager (v_game v2) := OManager m3]>
                          (heap w2 ++ snapshot_cells v2 (length (heap w2)));
                trace := trace w2 ++ notify_events self (v_observers v2) |}).
  assert (Hdo : do self action w = (Ok tt, w3)).
  { unfold do. pose proof Hv as Hv'. view_inv Hv'.
    mstep. rewrite <- Hum.
    erewrite bind_ok
      by (eapply UndoManager_do_eq; [exact Hv | exact Hact | exact Hv2 | reflexivity]).
    cbv beta. clear - Hv2. view_inv Hv2.
    erewrite notify_observers_eq by heap_lookup. reflexivity. }
  assert (Hm2 : heap w2 !! undo_manager (v_game v2) = Some (OManager (v_manager v2)))
    by (clear - Hv2; view_inv Hv2; assumption).
  assert (Hm2' : (heap w2 ++ snapshot_cells v2 (length (heap w2)))
                   !! undo_manager (v_game v2) = Some (OManager (v_manager v2)))
    by (rewrite lookup_app_l; [exact Hm2 | now apply lookup_lt_Some in Hm2]).
  destruct (view_store_manager _ self (undo_manager (v_game v2)) v2 (v_manager v2) m3
              (view_app _ (snapshot_cells v2 (length (heap w2))) _ _ Hv2) Hm2')
    as (ma & Hv3 & Hma).
  specialize (Hma eq_refl). subst ma.
  destruct (view_store_manager _ n (undo_manager (v_game v2)) _ (v_manager v2) m3
              (view_app _ (snapshot_cells v2 (length (heap w2))) _ _ Hsnap) Hm2')
    as (mb & Hs3 & _).
  destruct (undo_spec E self w3 _ _ c (undo_stack (v_manager v2)) Hv3 eq_refl eq_refl Hs3)
    as (w4 & Hundo & Hv4 & _).
  exists w3, w4. eexists. split; [exact Hdo|]. split; [exact Hundo|].
  split; [exact Hv4|].
  assert (Hmgr : v_manager v2 = v_manager v).
  { clear - Hsnap Hm2 Hum. view_inv Hsnap. rewrite Hum in Hm2. congruence. }
  proj_simpl. rewrite Hmgr. repeat split; reflexivity.
Qed.

(** X14: [undo] after [roll] gives back the Game as it was before the
    roll: the state variant, the board with its lock, the players, the
    observers, the dev-card state, the current player, the turn counter,
    the last roll and its roller and the robber tile are those of before,
    and so is the undo history; the roll is the one command of the redo
    history. *)
Theorem roll_then_undo E (self : loc) (r : Z) (w : World) (v : View) :
  view (heap w) self = Some v ->
  cur_ok (v_game v) ->
  exists w1 w2 v2 c,
    roll E self r w = (Ok tt, w1) /\
    undo E self w1 = (Ok tt, w2) /\
    view (heap w2) self = Some v2 /\
    v_state v2 = v_state v /\
    v_board v2 = v_board v /\
    v_players v2 = v_players v /\
    v_observers v2 = v_observers v /\
    v_dev_card_state v2 = v_dev_card_state v /\
    _cur_player (v_game v2) = _cur_player (v_game v) /\
    _cur_turn (v_game v2) = _cur_turn (v_game v) /\
    last_roll (v_game v2) = last_roll (v_game v) /\
    last_player_to_roll (v_game v2) = last_player_to_roll (v_game v) /\
    robber_tile (v_game v2) = robber_tile (v_game v) /\
    undo_stack (v_manager v2) = undo_stack (v_manager v) /\
    redo_stack (v_manager v2) = [c].
Proof.
  intros Hv Hok.
  pose proof (view_snapshot _ self _ Hv) as Hsnap.
  pose proof (view_app _ (snapshot_cells v (length (heap w))) _ _ Hv) as Hv0.
  destruct (roll_body_frame E r self (length (heap w))
              {| heap := body_heap (heap w) v; trace := trace w |}
              v (snapshot_view v (length (heap w))) Hv0 Hok Hsnap)
    as (wb & vb & Hrun & Hvb & Hum & Hsb).
  { clear - Hv. view_inv Hv.
    match goal with H : _ !! self = Some _ |- _ => apply lookup_lt_Some in H end.
    lia. }
  { simpl. clear - Hv. view_inv Hv.
    match goal with H : _ !! board _ = Some _ |- _ => apply lookup_lt_Some in H end.
    lia. }
  destruct (do_then_undo E self (roll_body E r self) w wb v vb Hv Hrun Hvb Hum Hsb)
    as (w3 & w4 & v4 & Hdo & Hundo & Hv4 & H).
  exists w3, w4, v4. eexists. split; [exact Hdo|]. split; [exact Hundo|].
  split; [exact Hv4 | exact H].
Qed.

Lemma roll_then_undo_witness :
  exists v w1 w2 v2,
    view (heap Sample.in_turn) Sample.self = Some v /\
    roll Sample.externals Sample.self 7 Sample.in_turn = (Ok tt, w1) /\
    state_of w1 Sample.self = Some GameStateMoveRobber /\
    undo Sample.externals Sample.self w1 = (Ok tt, w2) /\
    view (heap w2) Sample.self = Some v2 /\
    v_state v2 = GameStateDuringTurnAfterRoll /\
    last_roll (v_game v2) = Some 4 /\
    v_board v2 = v_board v /\
    length (redo_stack (v_manager v2)) = 1%nat.
Proof.
  eexists.
  edestruct (roll_then_undo Sample.externals Sample.self 7 Sample.in_turn)
    as (w1 & w2 & v2 & c & Hroll & Hundo & Hv2 & Hs & Hb & _ & _ & _ & _ & _ & Hl
        & _ & _ & _ & Hr).
  - reflexivity.
  - repeat split; simpl; try lia; reflexivity.
  - exists w1, w2, v2. split; [reflexivity|]. split; [exact Hroll|].
    split.
    { assert (Hw1 : w1 = after (roll Sample.externals Sample.self 7) Sample.in_turn)
        by (unfold after; now rewrite Hroll).
      rewrite Hw1. vm_compute. reflexivity. }
    split; [exact Hundo|]. split; [exact Hv2|]. split; [exact Hs|].
    split; [exact Hl|]. split; [exact Hb|]. now rewrite Hr.
Defined.

(** ** Ports *)

Lemma filter_none {A} (f : A -> bool) (l : list A) :
  (forall x, In x l -> f x = false) -> List.filter f l = [].
Proof.
  induction l as [|a l IH]; intros H; simpl; [reflexivity|].
  rewrite (H a) by now left. apply IH. intros x Hx. apply H. now right.
Qed.

(** A board that keeps one piece per slot has at most one building on a
    node. *)
Lemma get_pieces_at_most_one (b : Board) (node : Z) :
  List.NoDup (map fst (pieces b)) ->
  (length (Board_get_pieces b [PieceType.settlement; PieceType.city] node) <= 1)%nat.
Proof.
  unfold Board_get_pieces.
  induction (pieces b) as [|e d IH]; intros Hnd; simpl; [lia|].
  inversion Hnd as [|? ? Hnotin Hnd']; subst.
  match goal with |- context [if ?c then _ else _] => destruct c eqn:Hc end.
  - apply building_filter in Hc as [Hk _].
    rewrite filter_none; [simpl; lia|].
    intros x Hx.
    match goal with |- ?c = false => destruct c eqn:Hx' end; [|reflexivity].
    apply building_filter in Hx' as [Hk' _].
    exfalso. apply Hnotin. rewrite Hk, <- Hk'. now apply in_map.
  - now apply IH.
Qed.

Lemma _player_has_port_loop_spec (self : loc) (player : Player) (nodes : list Z)
    (w : World) (g : Game) (b : Board) :
  heap w !! self = Some (OGame g) ->
  heap w !! board g = Some (OBoard b) ->
  List.NoDup (map fst (pieces b)) ->
  exists r,
    _player_has_port_loop self player nodes w = (Ok r, w) /\
    (r = true <-> exists node, In node nodes /\ owns_building_at b player node).
Proof.
  intros Hg Hb Hnd. induction nodes as [|node rest IH].
  - exists false. split; [reflexivity|].
    split; [discriminate | intros (node & [] & _)].
  - cbn [_player_has_port_loop].
    erewrite bind_ok by (eapply get_game_eq; exact Hg). cbv beta.
    erewrite bind_ok by (eapply get_board_eq; exact Hb). cbv beta.
    pose proof (get_pieces_at_most_one b node Hnd) as Hlen.
    pose proof (fun piece => get_pieces_building b node piece Hnd) as Hhd.
    destruct IH as (r & Hrun & Hr).
    destruct (Board_get_pieces b [PieceType.settlement; PieceType.city] node)
      as [|piece [|piece' more]].
    + exists r. split; [exact Hrun|]. rewrite Hr. split.
      * intros (n & Hin & Hown). exists n. split; [now right | exact Hown].
      * intros (n & [<-|Hin] & Hown); [|eauto].
        destruct Hown as (pc & H1 & H2 & _).
        assert (hd_error (@nil Piece) = Some pc) by (apply Hhd; auto).
        discriminate.
    + destruct (owner_eqb (owner piece) (Some player)) eqn:Ho.
      * exists true. split; [reflexivity|]. split; [|reflexivity].
        intros _. exists node. split; [now left|].
        exists piece. apply owner_eqb_true in Ho.
        destruct (proj1 (Hhd piece) eq_refl) as [H1 H2]. auto.
      * exists r. split; [exact Hrun|]. rewrite Hr. split.
        -- intros (n & Hin & Hown). exists n. split; [now right | exact Hown].
        -- intros (n & [<-|Hin] & Hown); [|eauto].
           destruct Hown as (pc & H1 & H2 & H3).
           assert (Hpc : hd_error [piece] = Some pc) by (apply Hhd; auto).
           injection Hpc as ->.
           apply owner_eqb_true in H3. congruence.
    + simpl in Hlen. lia.
Qed.

Lemma player_has_port_type_loop_spec
    (edge_coord_in_direction : Z -> string -> Z) (nodes_touching_edge : Z -> list Z)
    (self : loc) (player : Player) (type : string) (ps : list Port)
    (w : World) (g : Game) (b : Board) :
  heap w !! self = Some (OGame g) ->
  heap w !! board g = Some (OBoard b) ->
  List.NoDup (map fst (pieces b)) ->
  exists r,
    player_has_port_type_loop edge_coord_in_direction nodes_touching_edge
      self player type ps w = (Ok r, w) /\
    (r = true <->
     exists port node,
       In port ps /\ port_type port = type /\
       In node (nodes_touching_edge
                  (edge_coord_in_direction (port_tile port) (port_direction port))) /\
       owns_building_at b player node).
Proof.
  intros Hg Hb Hnd. induction ps as [|port rest IH].
  - exists false. split; [reflexivity|].
    split; [discriminate | intros (port & node & [] & _)].
  - cbn [player_has_port_type_loop].
    destruct IH as (r & Hrun & Hr).
    destruct (String.eqb_spec (port_type port) type) as [Ht|Ht].
    + destruct (_player_has_port_loop_spec self player
                  (nodes_touching_edge
                     (edge_coord_in_direction (port_tile port) (port_direction port)))
                  w g b Hg Hb Hnd) as (has & Hhas & Hiff).
      unfold _player_has_port.
      erewrite bind_ok by exact Hhas. cbv beta.
      destruct has.
      * exists true. split; [reflexivity|]. split; [|reflexivity].
        intros _. destruct (proj1 Hiff eq_refl) as (node & Hin & Hown).
        exists port, node. split; [now left|]. auto.
      * exists r. split; [exact Hrun|]. rewrite Hr. split.
        -- intros (p & n & Hin & H). exists p, n. split; [now right | exact H].
        -- intros (p & n & [<-|Hin] & Hty & Hn & Hown).
           ++ assert (false = true) by (apply Hiff; eauto). discriminate.
           ++ exists p, n. auto.
    + exists r. split; [exact Hrun|]. rewrite Hr. split.
      * intros (p & n & Hin & H). exists p, n. split; [now right | exact H].
      * intros (p & n & [<-|Hin] & Hty & Hn & Hown); [contradiction|].
        exists p, n. auto.
Qed.

(** X15: on a board that keeps one piece per slot,
    [player_has_port_type(player, port_type)] changes nothing, never
    raises, and answers True exactly when some port of that type lies on
    an edge one of whose nodes holds a settlement or a city of the
    player; [cur_player_has_port_type] is that query for the current
    player (for the nobody sentinel when there is none). *)
Theorem player_has_port_type_spec
    (edge_coord_in_direction : Z -> string -> Z) (nodes_touching_edge : Z -> list Z)
    (self : loc) (w : World) (v : View) :
  view (heap w) self = Some v ->
  cur_ok (v_game v) ->
  List.NoDup (map fst (pieces (v_board v))) ->
  (forall player type,
     exists r,
       player_has_port_type edge_coord_in_direction nodes_touching_edge
         self player type w = (Ok r, w) /\
       (r = true <->
        exists port node,
          In port (ports (v_board v)) /\ port_type port = type /\
          In node (nodes_touching_edge
                     (edge_coord_in_direction (port_tile port) (port_direction port))) /\
          owns_building_at (v_board v) player node)) /\
  (forall type,
     cur_player_has_port_type edge_coord_in_direction nodes_touching_edge self type w
     = player_has_port_type edge_coord_in_direction nodes_touching_edge
         self (cur_player_of (v_game v)) type w).
Proof.
  intros Hv Hok Hnd. view_inv Hv. split.
  - intros player type. unfold player_has_port_type.
    do 2 mstep.
    eapply player_has_port_type_loop_spec; eassumption.
  - intros type. unfold cur_player_has_port_type.
    mstep. reflexivity.
Qed.

Lemma player_has_port_type_spec_witness :
  cur_player_has_port_type Harbour.edge_coord_in_direction Harbour.nodes_touching_edge
    Sample.self "3:1" Harbour.settled = (Ok true, Harbour.settled) /\
  cur_player_has_port_type Harbour.edge_coord_in_direction Harbour.nodes_touching_edge
    Sample.self "ore" Harbour.settled = (Ok false, Harbour.settled).
Proof.
  edestruct (player_has_port_type_spec Harbour.edge_coord_in_direction
               Harbour.nodes_touching_edge Sample.self Harbour.settled)
    as (Hp & Hc).
  - reflexivity.
  - repeat split; simpl; try lia; reflexivity.
  - simpl. repeat constructor; simpl; intuition discriminate.
  - split.
    + rewrite Hc. destruct (Hp (mkPlayer 1 "abdur" "green") "3:1"%string)
        as (r & Hrun & Hr).
      assert (r = true) as ->; [|exact Hrun].
      apply Hr.
      exists {| port_tile := 1; port_direction := "NW"; port_type := "3:1" |}, 11.
      split; [simpl; auto|]. split; [reflexivity|]. split; [simpl; auto|].
      eexists. split; [simpl; right; left; reflexivity|]. simpl. auto.
    + rewrite Hc. destruct (Hp (mkPlayer 1 "abdur" "green") "ore"%string)
        as (r & Hrun & Hr).
      destruct r; [|exact Hrun].
      exfalso. destruct (proj1 Hr eq_refl) as (port & node & Hin & Hty & Hn & Hown).
      simpl in Hin. destruct Hin as [<-|[<-|[]]]; [discriminate|].
      destruct Hown as (pc & Hpc & _).
      simpl in Hn, Hpc.
      destruct Hn as [<-|[<-|[]]]; destruct Hpc as [Hpc|[Hpc|[]]]; discriminate.
Defined.

(** ** The final tally *)

Section TallyProofs.

Variable legal_tile_ids : list Z.
Variable adjacent_tiles_to_node : Z -> list Z.

Hypothesis legal_NoDup : List.NoDup legal_tile_ids.

Lemma tile_get_append (t tile : Z) (name : string) (d : list (Z * list string)) :
  tile_get t (tile_append tile name d) =
    if Z.eqb t tile then option_map (fun l => l ++ [name]) (tile_get t d)
    else tile_get t d.
Proof.
  induction d as [|e d IH]; simpl.
  - now destruct (Z.eqb t tile).
  - destruct (Z.eqb_spec (fst e) tile) as [He|He]; simpl.
    + destruct (Z.eqb_spec t tile) as [->|Ht].
      * rewrite He, Z.eqb_refl. reflexivity.
      * rewrite He. destruct (Z.eqb_spec tile t); [congruence | reflexivity].
    + destruct (Z.eqb_spec (fst e) t) as [Het|Het].
      * destruct (Z.eqb_spec t tile); [congruence | reflexivity].
      * exact IH.
Qed.

Lemma existsb_Zeqb (t : Z) (l : list Z) : existsb (Z.eqb t) l = true <-> In t l.
Proof.
  rewrite existsb_exists. split.
  - intros (x & Hx & He). apply Z.eqb_eq in He. now subst.
  - intros H. exists t. split; [exact H | apply Z.eqb_refl].
Qed.

(** The inner loop of lines 265-268, for one terrain name. *)
Lemma tile_loop_get (t : Z) (name : string) (p : Z -> bool) (L : list Z)
    (acc : list (Z * list string)) :
  List.NoDup L ->
  tile_get t
    (fold_left (fun acc tile => if p tile then tile_append tile name acc else acc) L acc)
  = if existsb (Z.eqb t) L && p t
    then option_map (fun l => l ++ [name]) (tile_get t acc)
    else tile_get t acc.
Proof.
  revert acc. induction L as [|x L IH]; intros acc Hnd; simpl; [reflexivity|].
  inversion Hnd as [|? ? Hx HL]; subst.
  rewrite IH by assumption.
  destruct (Z.eqb_spec t x) as [->|Htx]; simpl.
  - assert (Hex : existsb (Z.eqb x) L = false).
    { apply not_true_iff_false. rewrite existsb_Zeqb. exact Hx. }
    rewrite Hex. simpl. destruct (p x); [|reflexivity].
    rewrite tile_get_append, Z.eqb_refl. reflexivity.
  - destruct (p x).
    + rewrite tile_get_append.
      destruct (Z.eqb_spec t x); [contradiction | reflexivity].
    + reflexivity.
Qed.

Lemma tile_table_get (t : Z) (tt : list (string * list Z)) (acc : list (Z * list string)) :
  tile_get t
    (fold_left
       (fun acc e =>
          fold_left
            (fun acc tile =>
               if existsb (Z.eqb tile) (snd e) then tile_append tile (fst e) acc else acc)
            legal_tile_ids acc)
       tt acc)
  = option_map
      (fun l => l ++ map fst
                     (List.filter
                        (fun e : string * list Z =>
                           existsb (Z.eqb t) legal_tile_ids && existsb (Z.eqb t) (snd e))
                        tt))
      (tile_get t acc).
Proof.
  revert acc. induction tt as [|e tt IH]; intros acc; simpl.
  - destruct (tile_get t acc); simpl; [now rewrite app_nil_r | reflexivity].
  - rewrite IH, (tile_loop_get t (fst e) (fun tile => existsb (Z.eqb tile) (snd e)))
      by exact legal_NoDup.
    destruct (existsb (Z.eqb t) legal_tile_ids && existsb (Z.eqb t) (snd e));
      destruct (tile_get t acc); simpl; try reflexivity.
    now rewrite <- app_assoc.
Qed.

Lemma tile_get_init (t : Z) (L : list Z) :
  tile_get t (map (fun tile => (tile, @nil string)) L)
  = if existsb (Z.eqb t) L then Some [] else None.
Proof.
  induction L as [|x L IH]; simpl; [reflexivity|].
  rewrite Z.eqb_sym. destruct (Z.eqb t x); [reflexivity | exact IH].
Qed.

(** The table of lines 262-268, read at a tile id: KeyError for an id that
    is not legal, else the terrain names listed for the tile. *)
Lemma tile_id_to_terrain_type_get (ts : list Tile) (t : Z) :
  tile_get t (build_tile_id_to_terrain_type legal_tile_ids (build_terrain_to_tiles ts))
  = if existsb (Z.eqb t) legal_tile_ids then Some (terrain_names ts t) else None.
Proof.
  unfold build_tile_id_to_terrain_type. rewrite tile_table_get, tile_get_init.
  destruct (existsb (Z.eqb t) legal_tile_ids); simpl; reflexivity.
Qed.

Lemma resources_append_at (p : Player) (x : list string) (pre post : Resources)
    (l : list (list string)) :
  ~ In p (map fst pre) ->
  resources_append p x (pre ++ (p, l) :: post) = pre ++ (p, l ++ [x]) :: post.
Proof.
  induction pre as [|e pre IH]; intros Hp; cbn [resources_append app fst snd map].
  - assert (H : Player_eq p (PyPlayer p) = true) by now apply Player_eq_true.
    now rewrite H.
  - destruct (Player_eq (fst e) (PyPlayer p)) eqn:He.
    + apply Player_eq_true in He. exfalso. apply Hp. now left.
    + rewrite IH; [reflexivity|]. intros H. apply Hp. simpl. now right.
Qed.

Lemma adjacent_loop (ts : list Tile) (p : Player) (adjs : list Z)
    (pre post : Resources) (l : list (list string)) :
  ~ In p (map fst pre) ->
  for_each
    (fun r adj_tile =>
       match tile_get adj_tile
               (build_tile_id_to_terrain_type legal_tile_ids (build_terrain_to_tiles ts))
       with
       | Some names => Some (resources_append p names r)
       | None => None
       end)
    adjs (pre ++ (p, l) :: post)
  = if forallb (fun adj => existsb (Z.eqb adj) legal_tile_ids) adjs
    then Some (pre ++ (p, l ++ map (terrain_names ts) adjs) :: post)
    else None.
Proof.
  intros Hp. revert l. induction adjs as [|a adjs IH]; intros l; simpl.
  - now rewrite app_nil_r.
  - rewrite tile_id_to_terrain_type_get.
    destruct (existsb (Z.eqb a) legal_tile_ids); simpl; [|reflexivity].
    rewrite resources_append_at by assumption. rewrite IH.
    destruct (forallb _ adjs); [|reflexivity].
    now rewrite <- app_assoc.
Qed.

Lemma items_loop (ts : list Tile) (p : Player) (items : list (Z * PieceType.t))
    (pre post : Resources) (l : list (list string)) :
  ~ In p (map fst pre) ->
  for_each
    (fun r item =>
       if PieceType.eqb (snd item) PieceType.settlement then
         for_each
           (fun r adj_tile =>
              match tile_get adj_tile
                      (build_tile_id_to_terrain_type legal_tile_ids
                         (build_terrain_to_tiles ts))
              with
              | Some names => Some (resources_append p names r)
              | None => None
              end)
           (adjacent_tiles_to_node (fst item)) r
       else Some r)
    items (pre ++ (p, l) :: post)
  = if forallb (legal_item legal_tile_ids adjacent_tiles_to_node) items
    then Some (pre ++ (p, l ++ settlement_resources adjacent_tiles_to_node ts items) :: post)
    else None.
Proof.
  intros Hp. revert l. induction items as [|it items IH]; intros l; simpl.
  - now rewrite app_nil_r.
  - unfold legal_item at 1.
    destruct (PieceType.eqb (snd it) PieceType.settlement); simpl.
    + rewrite adjacent_loop by assumption.
      destruct (forallb _ (adjacent_tiles_to_node (fst it))); simpl; [|reflexivity].
      rewrite IH. destruct (forallb (legal_item legal_tile_ids adjacent_tiles_to_node) items); [|reflexivity].
      now rewrite <- app_assoc.
    + rewrite IH. reflexivity.
Qed.

Lemma players_loop (ts : list Tile) (done rest : list (Player * list (Z * PieceType.t))) :
  List.NoDup (map fst (done ++ rest)) ->
  for_each
    (fun r pl =>
       for_each
         (fun r item =>
            if PieceType.eqb (snd item) PieceType.settlement then
              for_each
                (fun r adj_tile =>
                   match tile_get adj_tile
                           (build_tile_id_to_terrain_type legal_tile_ids
                              (build_terrain_to_tiles ts))
                   with
                   | Some names => Some (resources_append (fst pl) names r)
                   | None => None
                   end)
                (adjacent_tiles_to_node (fst item)) r
            else Some r)
         (snd pl) r)
    rest
    (map (fun pl => (fst pl, settlement_resources adjacent_tiles_to_node ts (snd pl))) done
     ++ map (fun pl => (fst pl, [])) rest)
  = if forallb (fun pl => forallb (legal_item legal_tile_ids adjacent_tiles_to_node) (snd pl)) rest
    then Some (map (fun pl => (fst pl, settlement_resources adjacent_tiles_to_node ts (snd pl)))
                 (done ++ rest))
    else None.
Proof.
  revert done. induction rest as [|pl rest IH]; intros done Hnd; simpl.
  - now rewrite !app_nil_r.
  - rewrite items_loop.
    + destruct (forallb (legal_item legal_tile_ids adjacent_tiles_to_node) (snd pl)); simpl; [|reflexivity].
      specialize (IH (done ++ [pl])).
      rewrite <- app_assoc in IH. simpl in IH.
      rewrite <- IH by exact Hnd.
      rewrite map_app, <- app_assoc. reflexivity.
    + rewrite map_map. simpl.
      rewrite map_app in Hnd. apply NoDup_remove_2 in Hnd.
      intros H. apply Hnd. apply in_or_app. now left.
Qed.

End TallyProofs.

(** [(name, id)] is listed in the dict [d]: [id in d[name]]. *)
Lemma terrain_add_listed (name : string) (id : Z) (d : list (string * list Z))
    (n : string) (i : Z) :
  (exists ids, In (n, ids) (terrain_add name id d) /\ In i ids) <->
  (exists ids, In (n, ids) d /\ In i ids) \/ (n = name /\ i = id).
Proof.
  induction d as [|[k ks] d IH]; cbn [terrain_add fst snd].
  - split.
    + intros (ids & [Heq|[]] & Hi). injection Heq as <- <-.
      destruct Hi as [<-|[]]. now right.
    + intros [(ids & [] & _)|[-> ->]]. exists [id]. simpl. auto.
  - destruct (String.eqb_spec k name) as [He|He].
    + subst k. split.
      * intros (ids & [Heq|Hin] & Hi).
        -- injection Heq as <- <-.
           apply in_app_or in Hi as [Hi|[<-|[]]].
           ++ left. exists ks. split; [now left | exact Hi].
           ++ now right.
        -- left. exists ids. split; [now right | exact Hi].
      * intros [(ids & [Heq|Hin] & Hi)|[-> ->]].
        -- injection Heq as <- <-.
           exists (ks ++ [id]). split; [now left | apply in_or_app; now left].
        -- exists ids. split; [now right | exact Hi].
        -- exists (ks ++ [id]). split; [now left|].
           apply in_or_app. right. now left.
    + split.
      * intros (ids & [Heq|Hin] & Hi).
        -- injection Heq as <- <-. left. exists ks. split; [now left | exact Hi].
        -- destruct (proj1 IH (ex_intro _ ids (conj Hin Hi))) as [(ids' & H1 & H2)|H].
           ++ left. exists ids'. split; [now right | exact H2].
           ++ now right.
      * intros [(ids & [Heq|Hin] & Hi)|H].
        -- exists ids. split; [now left | exact Hi].
        -- destruct (proj2 IH (or_introl (ex_intro _ ids (conj Hin Hi))))
             as (ids' & H1 & H2).
           exists ids'. split; [now right | exact H2].
        -- destruct (proj2 IH (or_intror H)) as (ids' & H1 & H2).
           exists ids'. split; [now right | exact H2].
Qed.

Lemma terrain_add_keys (name : string) (id : Z) (d : list (string * list Z)) :
  List.NoDup (map fst d) -> List.NoDup (map fst (terrain_add name id d)).
Proof.
  assert (Hk : forall d k, In k (map fst (terrain_add name id d))
                           -> In k (map fst d) \/ k = name).
  { clear. induction d as [|e d IH]; simpl; intros k.
    - intros [<-|[]]. now right.
    - destruct (String.eqb (fst e) name); simpl.
      + intros [<-|H]; auto.
      + intros [<-|H]; auto. destruct (IH _ H); auto. }
  induction d as [|e d IH]; intros Hnd; simpl.
  - repeat constructor. intros [].
  - inversion Hnd as [|? ? Hx Hd]; subst.
    destruct (String.eqb_spec (fst e) name) as [He|He]; simpl.
    + now constructor.
    + constructor; [|now apply IH].
      intros H. destruct (Hk _ _ H) as [H'|H']; [contradiction | congruence].
Qed.

Lemma build_terrain_fold (ts : list Tile) (d : list (string * list Z))
    (n : string) (i : Z) :
  (exists ids,
     In (n, ids)
        (fold_left (fun d t => terrain_add (vocab (terrain t)) (tile_id t) d) ts d)
     /\ In i ids) <->
  (exists ids, In (n, ids) d /\ In i ids) \/
  (exists tile, In tile ts /\ vocab (terrain tile) = n /\ tile_id tile = i).
Proof.
  revert d. induction ts as [|t ts IH]; intros d; simpl.
  - split; [auto|]. intros [H|(tile & [] & _)]. exact H.
  - rewrite IH, terrain_add_listed. split.
    + intros [[H|[-> ->]]|(tile & Hin & H)]; [auto| |].
      * right. exists t. auto.
      * right. exists tile. auto.
    + intros [H|(tile & [<-|Hin] & Hn & Hi)]; [auto| |].
      * left. right. auto.
      * right. exists tile. auto.
Qed.

Lemma build_terrain_keys (ts : list Tile) (d : list (string * list Z)) :
  List.NoDup (map fst d) ->
  List.NoDup
    (map fst (fold_left (fun d t => terrain_add (vocab (terrain t)) (tile_id t) d) ts d)).
Proof.
  revert d. induction ts as [|t ts IH]; intros d Hnd; simpl; [exact Hnd|].
  apply IH. now apply terrain_add_keys.
Qed.

Lemma NoDup_map_filter {A B} (f : A -> B) (p : A -> bool) (l : list A) :
  List.NoDup (map f l) -> List.NoDup (map f (List.filter p l)).
Proof.
  induction l as [|a l IH]; intros Hnd; simpl; [constructor|].
  inversion Hnd as [|? ? Hx Hl]; subst.
  destruct (p a); simpl; [|now apply IH].
  constructor; [|now apply IH].
  intros H. apply Hx. apply in_map_iff in H as (x & Hfx & Hin).
  apply filter_In in Hin as [Hin _]. rewrite <- Hfx. now apply in_map.
Qed.

Lemma terrain_names_In (ts : list Tile) (t : Z) (n : string) :
  In n (terrain_names ts t) <->
  exists tile, In tile ts /\ tile_id tile = t /\ vocab (terrain tile) = n.
Proof.
  unfold terrain_names, build_terrain_to_tiles.
  rewrite in_map_iff. split.
  - intros ((n' & ids) & Hn & Hin). simpl in Hn. subst n'.
    apply filter_In in Hin as [Hin Hex]. simpl in Hex.
    apply existsb_Zeqb in Hex.
    destruct (proj1 (build_terrain_fold ts [] n t) (ex_intro _ ids (conj Hin Hex)))
      as [(ids' & [] & _)|(tile & H1 & H2 & H3)].
    exists tile. auto.
  - intros (tile & H1 & H2 & H3).
    destruct (proj2 (build_terrain_fold ts [] n t)) as (ids & Hin & Hi).
    { right. exists tile. auto. }
    exists (n, ids). split; [reflexivity|].
    apply filter_In. split; [exact Hin|]. simpl. now apply existsb_Zeqb.
Qed.

Lemma terrain_names_NoDup (ts : list Tile) (t : Z) : List.NoDup (terrain_names ts t).
Proof.
  unfold terrain_names. apply NoDup_map_filter.
  apply build_terrain_keys. constructor.
Qed.

Lemma NoDup_map_inj {A B} (f : A -> B) (l : list A) (a b : A) :
  List.NoDup (map f l) -> In a l -> In b l -> f a = f b -> a = b.
Proof.
  induction l as [|x l IH]; intros Hnd Ha Hb Hf; [destruct Ha|].
  simpl in Hnd. inversion Hnd as [|? ? Hx Hl]; subst.
  destruct Ha as [Ha|Ha], Hb as [Hb|Hb].
  - congruence.
  - subst x. exfalso. apply Hx. rewrite Hf. now apply in_map.
  - subst x. exfalso. apply Hx. rewrite <- Hf. now apply in_map.
  - now apply IH.
Qed.

Lemma NoDup_singleton_eq {A} (l : list A) (a : A) :
  List.NoDup l -> (forall x, In x l <-> x = a) -> l = [a].
Proof.
  intros Hnd H. destruct l as [|x l].
  - exfalso. apply (proj2 (H a) eq_refl).
  - assert (x = a) by (apply H; now left). subst x.
    destruct l as [|y l]; [reflexivity|].
    assert (y = a) by (apply H; right; now left). subst y.
    inversion Hnd as [|? ? Hx _]; subst. exfalso. apply Hx. now left.
Qed.

(** X16: [evaluate_final] leaves in [player_to_resources] one entry per
    player of [pieces], in the order of [pieces]; the entry lists, for
    each settlement of the player in turn and each tile adjacent to it in
    turn, the terrain names of that tile.  Cities and roads contribute
    nothing (line 274 tests for a settlement).  The call raises KeyError
    exactly when a tile adjacent to some settlement is not a legal tile
    id. *)
Theorem evaluate_final_tally_spec (legal_tile_ids : list Z)
    (adjacent_tiles_to_node : Z -> list Z) (ts : list Tile)
    (pcs : list (Player * list (Z * PieceType.t))) :
  List.NoDup legal_tile_ids ->
  List.NoDup (map fst pcs) ->
  evaluate_final_tally legal_tile_ids adjacent_tiles_to_node ts pcs
    = (if forallb (fun pl => forallb (legal_item legal_tile_ids adjacent_tiles_to_node)
                               (snd pl)) pcs
       then Some (map (fun pl =>
                         (fst pl, settlement_resources adjacent_tiles_to_node ts (snd pl)))
                    pcs)
       else None) /\
  (forall items,
     (forall item, In item items -> snd item <> PieceType.settlement) ->
     settlement_resources adjacent_tiles_to_node ts items = []) /\
  (forall coord,
     settlement_resources adjacent_tiles_to_node ts [(coord, PieceType.settlement)]
     = map (terrain_names ts) (adjacent_tiles_to_node coord)).
Proof.
  intros Hl Hp. split; [| split].
  - unfold evaluate_final_tally.
    exact (players_loop legal_tile_ids adjacent_tiles_to_node Hl ts [] pcs Hp).
  - intros items. induction items as [|it items IH]; intros H; simpl; [reflexivity|].
    destruct (PieceType.eqb (snd it) PieceType.settlement) eqn:He.
    + apply PieceType_eqb_true in He. exfalso. apply (H it); [now left | exact He].
    + simpl. apply IH. intros item Hin. apply H. now right.
  - intros coord. simpl. now rewrite app_nil_r.
Qed.

(** X17: the terrain names [evaluate_final] lists for a tile id are the
    names, in the vocabulary of line 245, of the terrains of the tiles of
    the board that have this id, each name once; on a board whose tiles
    have distinct ids this is the one name of the tile's terrain, and for
    an id no tile of the board has it is the empty list. *)
Theorem terrain_names_spec (ts : list Tile) (t : Z) :
  (forall n, In n (terrain_names ts t) <->
             exists tile, In tile ts /\ tile_id tile = t /\ vocab (terrain tile) = n) /\
  List.NoDup (terrain_names ts t) /\
  (List.NoDup (map tile_id ts) ->
   forall tile, In tile ts -> tile_id tile = t ->
                terrain_names ts t = [vocab (terrain tile)]) /\
  ((forall tile, In tile ts -> tile_id tile <> t) -> terrain_names ts t = []).
Proof.
  split; [intros n; apply terrain_names_In|].
  split; [apply terrain_names_NoDup|]. split.
  - intros Hnd tile Hin Hid.
    apply NoDup_singleton_eq; [apply terrain_names_NoDup|].
    intros n. rewrite terrain_names_In. split.
    + intros (tile' & Hin' & Hid' & Hn).
      assert (tile' = tile) as ->; [|now symmetry].
      apply (NoDup_map_inj tile_id ts); auto. congruence.
    + intros ->. exists tile. auto.
  - intros Hno. destruct (terrain_names ts t) as [|n l] eqn:He; [reflexivity|].
    assert (Hn : In n (terrain_names ts t)) by (rewrite He; now left).
    apply terrain_names_In in Hn as (tile & Hin & Hid & _).
    exfalso. exact (Hno tile Hin Hid).
Qed.

Lemma evaluate_final_tally_spec_witness :
  evaluate_final_tally [1; 2; 3] (fun node => [node; node + 1])
    [ {| tile_id := 1; terrain := Terrain.wood; number := 5 |};
      {| tile_id := 2; terrain := Terrain.ore; number := 8 |};
      {| tile_id := 3; terrain := Terrain.wheat; number := 6 |} ]
    [ (mkPlayer 1 "abdur" "green", [(1, PieceType.settlement); (2, PieceType.city)]);
      (mkPlayer 2 "qlearn" "blue", [(5, PieceType.road); (2, PieceType.settlement)]) ]
  = Some [ (mkPlayer 1 "abdur" "green", [["Wood"%string]; ["Ore"%string]]);
           (mkPlayer 2 "qlearn" "blue", [["Ore"%string]; ["Wheat"%string]]) ] /\
  evaluate_final_tally [1; 2; 3] (fun node => [node; node + 1])
    [ {| tile_id := 1; terrain := Terrain.wood; number := 5 |} ]
    [ (mkPlayer 1 "abdur" "green", [(3, PieceType.settlement)]) ]
  = None.
Proof.
  assert (Hl : List.NoDup [1; 2; 3])
    by (repeat constructor; simpl; intuition discriminate).
  split.
  - etransitivity.
    + refine (proj1 (evaluate_final_tally_spec _ _ _ _ Hl _)).
      repeat constructor; simpl; intuition discriminate.
    + reflexivity.
  - etransitivity.
    + refine (proj1 (evaluate_final_tally_spec _ _ _ _ Hl _)).
      repeat constructor; simpl; intuition discriminate.
    + reflexivity.
Defined.

Lemma terrain_names_spec_witness :
  terrain_names
    [ {| tile_id := 1; terrain := Terrain.wood; number := 5 |};
      {| tile_id := 2; terrain := Terrain.ore; number := 8 |} ] 2
  = ["Ore"%string] /\
  terrain_names
    [ {| tile_id := 1; terrain := Terrain.wood; number := 5 |};
      {| tile_id := 2; terrain := Terrain.ore; number := 8 |} ] 7
  = [].
Proof.
  split.
  - refine (proj1 (proj2 (proj2 (terrain_names_spec _ 2))) _
              {| tile_id := 2; terrain := Terrain.ore; number := 8 |} _ eq_refl).
    + repeat constructor; simpl; intuition discriminate.
    + simpl. auto.
  - refine (proj2 (proj2 (proj2 (terrain_names_spec _ 7))) _).
    intros tile [<-|[<-|[]]]; discriminate.
Defined.

(** ** start *)

Lemma with_robber_tile_id (g : Game) : with_robber_tile (robber_tile g) g = g.
Proof. now destruct g. Qed.

(** The loop of [start] over the pieces leaves the tile of the last robber
    in [robber_tile], and the attribute as it was when there is none. *)
Lemma find_robber_eq E (self : loc) (d : list (coord_key * Piece)) (w : World) (g : Game) :
  heap w !! self = Some (OGame g) ->
  find_robber E self d w =
    (Ok tt,
     {| heap := <[self := OGame (with_robber_tile
                                   (found_robber_tile E d (robber_tile g)) g)]> (heap w);
        trace := trace w |}).
Proof.
  revert w g. induction d as [|[[k coord] piece] d IH]; intros w g Hg.
  - simpl. unfold ret. rewrite with_robber_tile_id, list_insert_id by exact Hg.
    now destruct w.
  - cbn [find_robber]. unfold found_robber_tile. cbn [fold_left fst snd].
    fold (found_robber_tile E d).
    destruct (PieceType.eqb (ptype piece) PieceType.robber).
    + erewrite bind_ok by (eapply setattr_eq; exact Hg). cbv beta.
      erewrite IH.
      2:{ simpl. apply list_lookup_insert_eq. now apply lookup_lt_Some in Hg. }
      simpl. now rewrite list_insert_insert_eq.
    + erewrite bind_ok by reflexivity. cbv beta. now apply IH.
Qed.

(** X18: the loop of [start] that looks for the robber reads every piece
    of the board, whatever its slot: the robber tile it leaves is the tile
    of the last piece of type robber, and the tile found before the loop
    when the board holds no robber. *)
Theorem found_robber_tile_spec E (d : list (coord_key * Piece)) (old : option Z) :
  ((forall e, In e d -> ptype (snd e) <> PieceType.robber) ->
   found_robber_tile E d old = old) /\
  (forall pre k c pc post,
     d = pre ++ ((k, c), pc) :: post ->
     ptype pc = PieceType.robber ->
     (forall e, In e post -> ptype (snd e) <> PieceType.robber) ->
     found_robber_tile E d old = Some (tile_id_from_coord E c)).
Proof.
  assert (Hnone : forall d old,
             (forall e, In e d -> ptype (snd e) <> PieceType.robber) ->
             found_robber_tile E d old = old).
  { clear. unfold coord_key. induction d as [|e d IH]; intros old H; [reflexivity|].
    destruct (PieceType.eqb (ptype (snd e)) PieceType.robber) eqn:He.
    - apply PieceType_eqb_true in He. exfalso. apply (H e); [now left | exact He].
    - unfold found_robber_tile. cbn [fold_left]. cbv beta. rewrite He.
      apply IH. intros x Hx. apply H. now right. }
  split; [apply Hnone|].
  intros pre k c pc post -> Hpc Hpost.
  unfold found_robber_tile. rewrite fold_left_app. cbn [fold_left fst snd].
  rewrite Hpc. cbn [PieceType.eqb].
  apply Hnone. exact Hpost.
Qed.

Lemma found_robber_tile_spec_witness :
  found_robber_tile Sample.externals
    [ ((NODE, 2), {| ptype := PieceType.settlement; owner := None |}) ] (Some 7) = Some 7 /\
  found_robber_tile Sample.externals
    [ ((TILE, 1), {| ptype := PieceType.robber; owner := None |});
      ((TILE, 3), {| ptype := PieceType.robber; owner := None |});
      ((NODE, 2), {| ptype := PieceType.settlement; owner := None |}) ] None = Some 3.
Proof.
  split.
  - apply (proj1 (found_robber_tile_spec Sample.externals _ (Some 7))).
    intros e [<-|[]]. discriminate.
  - apply (proj2 (found_robber_tile_spec Sample.externals _ None)
             [ ((TILE, 1), {| ptype := PieceType.robber; owner := None |}) ]
             TILE 3 {| ptype := PieceType.robber; owner := None |}
             [ ((NODE, 2), {| ptype := PieceType.settlement; owner := None |}) ]).
    + reflexivity.
    + reflexivity.
    + intros e [<-|[]]. discriminate.
Defined.

Ltac solve_method ::=
  lazymatch goal with
  | |- set_state _ _ _ _ = _ =>
      eapply set_state_eq; [heap_lookup | heap_lookup | heap_lookup | heap_lookup]
  | |- set_dev_card_state _ _ _ = _ =>
      eapply set_dev_card_state_eq; [heap_lookup | heap_lookup]
  | |- set_cur_player _ _ _ = _ =>
      eapply set_cur_player_eq; [heap_lookup | assumption]
  | |- find_robber _ _ _ _ = _ =>
      eapply find_robber_eq; heap_lookup
  end.

(** The events between the start of a trace and its last log call. *)
Ltac trace_mid :=
  match goal with
  | |- exists t, _ ++ ?a ++ ?b ++ ?c ++ ?d ++ [_] ++ _ = _ => exists (a ++ b ++ c ++ d)
  | |- exists t, _ ++ ?a ++ ?b ++ [_] ++ _ = _ => exists (a ++ b)
  end;
  rewrite <- ?app_assoc; reflexivity.

Lemma start_body_spec E (ps : list Player) (self : loc) (w : World) (v : View)
    (p : Player) (rest : list Player) :
  view (heap w) self = Some v ->
  (if opts_debug (v_board v) then get_debug_players else ps) = p :: rest ->
  valid_player p ->
  exists w' v',
    start_body E ps self w = (Ok tt, w') /\
    view (heap w') self = Some v' /\
    v_players v' = p :: rest /\
    _cur_player (v_game v') = Some p /\
    _cur_turn (v_game v') = 0 /\
    last_roll (v_game v') = None /\
    v_state v' =
      match start_state (v_options v) with
      | Some s => s
      | None => GameStateNotInGame
      end /\
    locked (v_board v') =
      match start_state (v_options v) with
      | Some _ => true
      | None => locked (v_board v)
      end /\
    pieces (v_board v') = pieces (v_board v) /\
    robber_tile (v_game v') =
      found_robber_tile E (pieces (v_board v)) (robber_tile (v_game v)) /\
    v_dev_card_state v' = v_dev_card_state v /\
    undo_manager (v_game v') = undo_manager (v_game v) /\
    exists t,
      trace w' =
        trace w ++ t
        ++ [Logged (log_game_start (p :: rest)
                      (map terrain (tiles (v_board v)))
                      (map number (tiles (v_board v)))
                      (ports (v_board v)))]
        ++ notify_events self (v_observers v).
Proof.
  intros Hv Hps Hp. view_inv Hv.
  unfold start_body, reset, set_players, new_state.
  do 3 mstep. rewrite Hps.
  do 3 mstep.
  unfold start_state.
  destruct (v_options v) as [op|].
  - destruct (String.eqb op "on").
    + do 7 mstep.
      erewrite notify_observers_eq by heap_lookup.
      view_exists. split; [reflexivity|]. split; [view_intro|].
      proj_simpl. repeat split; try reflexivity.
      rewrite <- !app_assoc. trace_mid.
    + destruct (String.eqb op "off").
      * do 7 mstep.
        erewrite notify_observers_eq by heap_lookup.
        view_exists. split; [reflexivity|]. split; [view_intro|].
        proj_simpl. repeat split; try reflexivity.
        rewrite <- !app_assoc. trace_mid.
      * do 7 mstep.
        erewrite notify_observers_eq by heap_lookup.
        view_exists. split; [reflexivity|]. split; [view_intro|].
        proj_simpl. repeat split; try reflexivity.
        rewrite <- !app_assoc. trace_mid.
  - do 7 mstep.
    erewrite notify_observers_eq by heap_lookup.
    view_exists. split; [reflexivity|]. split; [view_intro|].
    proj_simpl. repeat split; try reflexivity.
    rewrite <- !app_assoc. trace_mid.
Qed.

(** X19: [start] on a list whose first player is valid (the debug players
    when the board asks for them, whatever list is given) installs the
    list, makes its first player the current one, and leaves the turn
    counter 0 and no roll.  The option 'pregame' chooses the state:
    PreGamePlacingPiece(settlement) for None or 'on', BeginTurn for 'off',
    and in both cases the board ends locked; for any other value no state
    is installed: the Game stays NotInGame and the lock of the board is
    not touched.  The robber tile is the tile of the last robber among
    the pieces of the board, or unchanged when there is none; the pieces
    and the dev-card state are kept; the game start is logged with the
    players and the terrain, numbers and ports of the board. *)
Theorem start_postcondition E (self : loc) (ps : list Player) (w : World) (v : View)
    (p : Player) (rest : list Player) :
  view (heap w) self = Some v ->
  (if opts_debug (v_board v) then get_debug_players else ps) = p :: rest ->
  valid_player p ->
  exists w' v',
    start E self ps w = (Ok tt, w') /\
    view (heap w') self = Some v' /\
    v_players v' = p :: rest /\
    _cur_player (v_game v') = Some p /\
    _cur_turn (v_game v') = 0 /\
    last_roll (v_game v') = None /\
    v_state v' =
      match start_state (v_options v) with
      | Some s => s
      | None => GameStateNotInGame
      end /\
    locked (v_board v') =
      match start_state (v_options v) with
      | Some _ => true
      | None => locked (v_board v)
      end /\
    pieces (v_board v') = pieces (v_board v) /\
    robber_tile (v_game v') =
      found_robber_tile E (pieces (v_board v)) (robber_tile (v_game v)) /\
    v_dev_card_state v' = v_dev_card_state v /\
    exists t1 t2,
      trace w' =
        trace w ++ t1
        ++ [Logged (log_game_start (p :: rest)
                      (map terrain (tiles (v_board v)))
                      (map number (tiles (v_board v)))
                      (ports (v_board v)))]
        ++ t2.
Proof.
  intros Hv Hps Hp.
  destruct (start_body_spec E ps self
              {| heap := body_heap (heap w) v; trace := trace w |} v p rest)
    as (w2 & v2 & Hrun & Hv2 & H1 & H2 & H3 & H4 & H5 & H6 & H7 & H8 & H9 & Hum
        & t & Htr); try assumption.
  { simpl. now apply view_app. }
  destruct (do_spec self (start_body E ps self) w w2 v v2 Hv Hrun Hv2 Hum)
    as (w3 & Hdo & Hv3 & Htr3).
  exists w3. eexists. split; [exact Hdo|]. split; [exact Hv3|].
  proj_simpl. repeat split; try assumption.
  exists t. eexists. rewrite Htr3, Htr. simpl. rewrite <- !app_assoc. reflexivity.
Qed.

Lemma start_postcondition_witness :
  (exists w' v',
     start Sample.externals Sample.self get_debug_players Sample.created = (Ok tt, w') /\
     view (heap w') Sample.self = Some v' /\
     v_state v' = GameStatePreGamePlacingPiece PieceType.settlement /\
     locked (v_board v') = true /\
     robber_tile (v_game v') = Some 1) /\
  (exists w' v',
     start Sample.externals Sample.self get_debug_players Sample.created_no_pregame
       = (Ok tt, w') /\
     view (heap w') Sample.self = Some v' /\
     v_state v' = GameStateBeginTurn) /\
  (exists w' v',
     start Sample.externals Sample.self get_debug_players Unusual.created = (Ok tt, w') /\
     view (heap w') Sample.self = Some v' /\
     _cur_player (v_game v') = Some (mkPlayer 1 "abdur" "green") /\
     v_state v' = GameStateNotInGame /\
     locked (v_board v') = false).
Proof.
  assert (Hok : valid_player (mkPlayer 1 "abdur" "green"))
    by (repeat split; simpl; try lia; reflexivity).
  split; [| split].
  - edestruct (start_postcondition Sample.externals Sample.self get_debug_players
                 Sample.created)
      as (w' & v' & Hrun & Hv' & _ & _ & _ & _ & Hs & Hl & _ & Hr & _);
      [reflexivity | reflexivity | exact Hok |].
    exists w', v'. split; [exact Hrun|]. split; [exact Hv'|].
    split; [exact Hs|]. split; [exact Hl | exact Hr].
  - edestruct (start_postcondition Sample.externals Sample.self get_debug_players
                 Sample.created_no_pregame)
      as (w' & v' & Hrun & Hv' & _ & _ & _ & _ & Hs & _);
      [reflexivity | reflexivity | exact Hok |].
    exists w', v'. split; [exact Hrun|]. split; [exact Hv' | exact Hs].
  - edestruct (start_postcondition Sample.externals Sample.self get_debug_players
                 Unusual.created)
      as (w' & v' & Hrun & Hv' & _ & Hcp & _ & _ & Hs & Hl & _);
      [reflexivity | reflexivity | exact Hok |].
    exists w', v'. split; [exact Hrun|]. split; [exact Hv'|].
    split; [exact Hcp|]. split; [exact Hs | exact Hl].
Defined.

(** ** end_turn *)

(** X20: when the turn passes to a player who is not automated,
    [end_turn] makes [next_player()] the current player, adds one to the
    turn counter and installs the dev-card state NotPlayed, whatever it
    was and also when the call ends the game; the pieces on the board are
    kept.  In pregame, unless [can_end_game()] holds, the next state is
    PreGamePlacingPiece(settlement). *)
Theorem end_turn_advances E (self : loc) (w : World) (v : View) :
  let h0 := body_heap (heap w) v in
  let np := next_player E h0 (v_state_game v) (v_state v) in
  let ce := can_end_game E
              (<[self := OGame (with_cur_player (Some np) (v_game v))]> h0)
              (v_state_game v) (v_state v) in
  view (heap w) self = Some v ->
  cur_ok (v_game v) ->
  valid_player np ->
  PyStr.contains "agent1" (name np) = false ->
  PyStr.contains "agent2" (name np) = false ->
  exists w' v',
    end_turn E self w = (Ok tt, w') /\
    view (heap w') self = Some v' /\
    _cur_player (v_game v') = Some np /\
    _cur_turn (v_game v') = _cur_turn (v_game v) + 1 /\
    v_dev_card_state v' = DevCardNotPlayedState /\
    pieces (v_board v') = pieces (v_board v) /\
    (ce = false -> is_in_pregame (v_state v) = true ->
     v_state v' = GameStatePreGamePlacingPiece PieceType.settlement).
Proof.
  intros h0 np ce Hv Hok Hnp Ha1 Ha2.
  destruct (end_turn_body_spec E self {| heap := h0; trace := trace w |} v)
    as (w2 & v2 & Hrun & Hv2 & Hcp & Hct & Hdev & Hst & Hum & Hpc & _);
    try assumption.
  { simpl. now apply view_app. }
  destruct (do_spec self (end_turn_body E self) w w2 v v2 Hv Hrun Hv2 Hum)
    as (w3 & Hdo & Hv3 & _).
  exists w3. eexists. split; [exact Hdo|]. split; [exact Hv3|].
  proj_simpl. repeat split; try assumption.
  intros Hce Hpre. simpl in Hst. fold h0 np ce in Hst.
  now rewrite Hst, Hce, Hpre.
Qed.

Lemma end_turn_advances_witness :
  (exists w' v',
     end_turn Sample.externals Sample.self Sample.in_pregame = (Ok tt, w') /\
     view (heap w') Sample.self = Some v' /\
     _cur_player (v_game v') = Some (mkPlayer 2 "qlearn" "blue") /\
     _cur_turn (v_game v') = 1 /\
     v_state v' = GameStatePreGamePlacingPiece PieceType.settlement) /\
  (exists w' v',
     dev_card_of Sample.knight_played Sample.self = Some DevCardPlayedState /\
     end_turn Sample.externals Sample.self Sample.knight_played = (Ok tt, w') /\
     view (heap w') Sample.self = Some v' /\
     _cur_turn (v_game v') = 1 /\
     v_dev_card_state v' = DevCardNotPlayedState).
Proof.
  split.
  - edestruct (end_turn_advances Sample.externals Sample.self Sample.in_pregame)
      as (w' & v' & Hrun & Hv' & Hcp & Hct & _ & _ & Hst).
    + reflexivity.
    + repeat split; simpl; try lia; reflexivity.
    + repeat split; simpl; try lia; reflexivity.
    + reflexivity.
    + reflexivity.
    + exists w', v'. split; [exact Hrun|]. split; [exact Hv'|].
      split; [exact Hcp|]. split; [exact Hct|]. apply Hst; reflexivity.
  - edestruct (end_turn_advances Sample.externals Sample.self Sample.knight_played)
      as (w' & v' & Hrun & Hv' & _ & Hct & Hdev & _).
    + reflexivity.
    + repeat split; simpl; try lia; reflexivity.
    + repeat split; simpl; try lia; reflexivity.
    + reflexivity.
    + reflexivity.
    + exists w', v'. split; [reflexivity|]. split; [exact Hrun|].
      split; [exact Hv'|]. split; [exact Hct | exact Hdev].
Defined.

(** ** Observers *)

Lemma notifications_once (o : observer) (self : loc) (ms : list observer) :
  NoDup ms ->
  notifications o self (notify_events self ms) = if decide (o ∈ ms) then 1%nat else 0%nat.
Proof.
  intros Hnd.
  pose proof (notifications_rounds 1 o self ms Hnd) as H.
  simpl in H. rewrite app_nil_r in H. exact H.
Qed.

(** X21: the observers of a Game form a set: registering an observer that
    is already registered changes nothing, so each registered observer is
    notified exactly once by [notify_observers] and nobody else is;
    [notify_observers] changes nothing in the heap. *)
Theorem observers_notified_once (self : loc) (o : observer) (w : World) (v : View) :
  view (heap w) self = Some v ->
  NoDup (v_observers v) ->
  exists w1 v1 w2,
    observers_add self o w = (Ok tt, w1) /\
    view (heap w1) self = Some v1 /\
    NoDup (v_observers v1) /\
    (forall x, x ∈ v_observers v1 <-> x ∈ v_observers v \/ x = o) /\
    (o ∈ v_observers v -> v_observers v1 = v_observers v) /\
    notify_observers self w1 = (Ok tt, w2) /\
    heap w2 = heap w1 /\
    forall x,
      notifications x self (trace w2) =
        (notifications x self (trace w)
         + if decide (x ∈ v_observers v \/ x = o) then 1 else 0)%nat.
Proof.
  intros Hv Hnd. view_inv Hv. unfold observers_add.
  do 2 mstep.
  set (ms1 := if existsb (Nat.eqb o) (v_observers v)
              then v_observers v else v_observers v ++ [o]).
  assert (Hmem : existsb (Nat.eqb o) (v_observers v) = true <-> o ∈ v_observers v).
  { rewrite existsb_exists. split.
    - intros (x & Hx & He). apply Nat.eqb_eq in He. subst. now apply list_elem_of_In.
    - intros H. exists o. split; [now apply list_elem_of_In | apply Nat.eqb_refl]. }
  assert (Hms1 : ms1 = if decide (o ∈ v_observers v)
                       then v_observers v else v_observers v ++ [o]).
  { unfold ms1. destruct (decide (o ∈ v_observers v)) as [Ho|Ho].
    - apply Hmem in Ho. now rewrite Ho.
    - destruct (existsb (Nat.eqb o) (v_observers v)) eqn:He; [|reflexivity].
      exfalso. apply Ho, Hmem. reflexivity. }
  clearbody ms1.
  assert (Hin : forall x, x ∈ ms1 <-> x ∈ v_observers v \/ x = o).
  { intros x. rewrite Hms1. destruct (decide (o ∈ v_observers v)) as [Ho|Ho].
    - split; [auto|]. intros [H| ->]; assumption.
    - rewrite elem_of_app, list_elem_of_singleton. tauto. }
  assert (Hnd1 : NoDup ms1).
  { rewrite Hms1. destruct (decide (o ∈ v_observers v)) as [Ho|Ho]; [assumption|].
    apply NoDup_app. split; [assumption|]. split; [|apply NoDup_singleton].
    intros x Hx ->%list_elem_of_singleton. contradiction. }
  eexists. exists (mkView (v_game v) ms1 (v_manager v) (v_options v) (v_players v)
                     (v_board v) (v_robber v) (v_catanlog v) (v_state_ref v)
                     (v_state v) (v_state_game v) (v_dev_ref v) (v_dev_card_state v)
                     (v_terrain_to_tiles v) (v_player_to_resources v)).
  eexists. split; [reflexivity|]. split; [view_intro|]. proj_simpl.
  split; [exact Hnd1|]. split; [exact Hin|]. split.
  { intros Ho. rewrite Hms1. destruct (decide (o ∈ v_observers v)); [reflexivity|].
    contradiction. }
  split; [eapply notify_observers_eq; heap_lookup|].
  split; [reflexivity|].
  intros x. proj_simpl. rewrite notifications_app, notifications_once by exact Hnd1.
  destruct (decide (x ∈ ms1)) as [H|H], (decide (x ∈ v_observers v \/ x = o)) as [H'|H'];
    try reflexivity; exfalso.
  - apply H', Hin, H.
  - apply H, Hin, H'.
Qed.

Lemma observers_notified_once_witness :
  exists w1 w2,
    observers_add Sample.self 100%nat Sample.in_turn = (Ok tt, w1) /\
    registered w1 Sample.self = [100%nat] /\
    notify_observers Sample.self w1 = (Ok tt, w2) /\
    notifications 100 Sample.self (trace w2)
      = (notifications 100 Sample.self (trace Sample.in_turn) + 1)%nat /\
    notifications 200 Sample.self (trace w2)
      = notifications 200 Sample.self (trace Sample.in_turn).
Proof.
  edestruct (observers_notified_once Sample.self 100%nat Sample.in_turn)
    as (w1 & v1 & w2 & Hadd & Hv1 & _ & _ & Hsame & Hnot & _ & Hn).
  - reflexivity.
  - simpl. apply NoDup_singleton.
  - exists w1, w2. split; [exact Hadd|]. split.
    { unfold registered. rewrite Hv1. apply Hsame. simpl. apply list_elem_of_here. }
    split; [exact Hnot|]. split.
    + rewrite (Hn 100%nat). destruct (decide _) as [_|H]; [reflexivity|].
      exfalso. apply H. now right.
    + rewrite (Hn 200%nat). destruct (decide _) as [H|_]; [|lia].
      exfalso. destruct H as [H|H]; [|discriminate].
      simpl in H. apply list_elem_of_singleton in H. discriminate.
Defined.

(** ** Game.do *)

(** X22: [Game.do] runs the command on the Game after a snapshot of it has
    been taken.  When the command returns, the Game is as the command
    left it, one command for this Game is added to the undo history, the
    redo history is emptied and the observers are notified once more;
    when the command raises, the exception propagates with the Game as
    the command left it: no command is recorded and [do] notifies
    nobody. *)
Theorem do_records_command (self : loc) (action : M unit) (w w2 : World) (v : View) :
  view (heap w) self = Some v ->
  (forall v2,
     action {| heap := body_heap (heap w) v; trace := trace w |} = (Ok tt, w2) ->
     view (heap w2) self = Some v2 ->
     undo_manager (v_game v2) = undo_manager (v_game v) ->
     exists w3 v3 c,
       do self action w = (Ok tt, w3) /\
       view (heap w3) self = Some v3 /\
       v_game v3 = v_game v2 /\
       v_state v3 = v_state v2 /\
       v_board v3 = v_board v2 /\
       v_players v3 = v_players v2 /\
       undo_stack (v_manager v3) = c :: undo_stack (v_manager v2) /\
       cmd_obj c = self /\
       cmd_before c = length (heap w) /\
       redo_stack (v_manager v3) = [] /\
       trace w3 = trace w2 ++ notify_events self (v_observers v2)) /\
  (forall e,
     action {| heap := body_heap (heap w) v; trace := trace w |} = (Err e, w2) ->
     do self action w = (Err e, w2)).
Proof.
  intros Hv. split.
  - intros v2 Hact Hv2 Hum.
    destruct (do_spec self action w w2 v v2 Hv Hact Hv2 Hum) as (w3 & Hdo & Hv3 & Htr).
    exists w3. eexists. eexists. split; [exact Hdo|]. split; [exact Hv3|].
    proj_simpl. repeat split; try reflexivity. exact Htr.
  - intros e Hact. eapply do_err; eassumption.
Qed.

Lemma do_records_command_witness :
  (exists w3 v3,
     do Sample.self (roll_body Sample.externals 4 Sample.self) Sample.created_no_pregame
       = (Ok tt, w3) /\
     view (heap w3) Sample.self = Some v3 /\
     undo_stack (v_manager v3) = [mkCommand Sample.self 12 23] /\
     redo_stack (v_manager v3) = []) /\
  (exists w2,
     do Sample.self (set_players Sample.self []) Sample.created = (Err IndexError, w2) /\
     trace w2 = trace Sample.created).
Proof.
  split.
  - edestruct (do_records_command Sample.self (roll_body Sample.externals 4 Sample.self)
                 Sample.created_no_pregame) as (Hok & _); [reflexivity|].
    edestruct Hok as (w3 & v3 & c & Hdo & Hv3 & _ & _ & _ & _ & Hu & _ & Hb & Hr & _);
      [vm_compute; reflexivity | vm_compute; reflexivity | reflexivity |].
    exists w3, v3. split; [exact Hdo|]. split; [exact Hv3|]. split; [|exact Hr].
    pose proof Hdo as Hdo'. vm_compute in Hdo'. injection Hdo' as <-.
    vm_compute in Hv3. injection Hv3 as <-. reflexivity.
  - edestruct (do_records_command Sample.self (set_players Sample.self [])
                 Sample.created) as (_ & Herr); [reflexivity|].
    eexists. split; [apply Herr; vm_compute; reflexivity | reflexivity].
Defined.

(** ** Cities and development cards *)

(** The common shape of the four card methods other than the knight. *)
Lemma play_card_body_spec (logf : Player -> M unit) (self : loc) (w : World) (v : View) :
  (forall p, quiet (logf p)) ->
  view (heap w) self = Some v ->
  cur_ok (v_game v) ->
  exists w' v',
    (p <- get_cur_player self ;;
     logf p ;;;
     d <- new_dev_card_state DevCardPlayedState ;;
     set_dev_card_state self d) w = (Ok tt, w') /\
    view (heap w') self = Some v' /\
    v_dev_card_state v' = DevCardPlayedState /\
    v_state v' = v_state v /\
    v_board v' = v_board v /\
    _cur_player (v_game v') = _cur_player (v_game v) /\
    _cur_turn (v_game v') = _cur_turn (v_game v) /\
    v_manager v' = v_manager v /\
    undo_manager (v_game v') = undo_manager (v_game v).
Proof.
  intros Hq Hv Hok. view_inv Hv. unfold new_dev_card_state.
  mstep.
  destruct (Hq (cur_player_of (v_game v)) w) as (t & Ht).
  erewrite bind_ok by exact Ht. cbv beta.
  mstep. erewrite set_dev_card_state_eq by heap_lookup.
  view_exists. split; [reflexivity|]. split; [view_intro|].
  proj_simpl. repeat split; reflexivity.
Qed.

Lemma play_card_spec (logf : Player -> M unit) (self : loc) (w : World) (v : View) :
  (forall p, quiet (logf p)) ->
  view (heap w) self = Some v ->
  cur_ok (v_game v) ->
  exists w' v' c,
    undoable
      (fun self =>
         p <- get_cur_player self ;;
         logf p ;;;
         d <- new_dev_card_state DevCardPlayedState ;;
         set_dev_card_state self d) self w = (Ok tt, w') /\
    view (heap w') self = Some v' /\
    v_dev_card_state v' = DevCardPlayedState /\
    v_state v' = v_state v /\
    v_board v' = v_board v /\
    _cur_player (v_game v') = _cur_player (v_game v) /\
    _cur_turn (v_game v') = _cur_turn (v_game v) /\
    undo_stack (v_manager v') = c :: undo_stack (v_manager v) /\
    redo_stack (v_manager v') = [].
Proof.
  intros Hq Hv Hok.
  destruct (play_card_body_spec logf self
              {| heap := body_heap (heap w) v; trace := trace w |} v Hq)
    as (w2 & v2 & Hrun & Hv2 & Hd & Hs & Hb & Hcp & Hct & Hm & Hum).
  { simpl. now apply view_app. }
  { exact Hok. }
  unfold undoable.
  destruct (do_spec self _ w w2 v v2 Hv Hrun Hv2 Hum) as (w3 & Hdo & Hv3 & _).
  exists w3. eexists. eexists. split; [exact Hdo|]. split; [exact Hv3|].
  proj_simpl. rewrite Hm. repeat split; try assumption; reflexivity.
Qed.

Section CardProofs.

Variable E : Externals.
Variable Resource : Type.
Variable log_buys_city : Player -> string -> M unit.
Variable log_buys_dev_card : Player -> M unit.
Variable log_plays_monopoly : Player -> Resource -> M unit.
Variable log_plays_year_of_plenty : Player -> Resource -> Resource -> M unit.
Variable log_plays_road_builder : Player -> string -> string -> M unit.
Variable log_plays_victory_point : Player -> M unit.

(** X23: [play_monopoly], [play_year_of_plenty], [play_road_builder] and
    [play_victory_point] succeed on every Game whose log sink returns,
    also when a dev card has already been played this turn: each installs
    the dev-card state Played and, unlike [play_knight], leaves the state
    of the game as it is; the board, the current player and the turn
    counter are kept, one command is added to the undo history and the
    redo history is emptied. *)
Theorem play_card_marks_played (self : loc) (w : World) (v : View) :
  (forall p r, quiet (log_plays_monopoly p r)) ->
  (forall p r1 r2, quiet (log_plays_year_of_plenty p r1 r2)) ->
  (forall p l1 l2, quiet (log_plays_road_builder p l1 l2)) ->
  (forall p, quiet (log_plays_victory_point p)) ->
  view (heap w) self = Some v ->
  cur_ok (v_game v) ->
  (forall r, plays_card self w v (play_monopoly Resource log_plays_monopoly self r)) /\
  (forall r1 r2,
     plays_card self w v
       (play_year_of_plenty Resource log_plays_year_of_plenty self r1 r2)) /\
  (forall e1 e2,
     plays_card self w v (play_road_builder E log_plays_road_builder self e1 e2)) /\
  plays_card self w v (play_victory_point log_plays_victory_point self).
Proof.
  intros H1 H2 H3 H4 Hv Hok. unfold plays_card. repeat split.
  - intros r. apply (play_card_spec (fun p => log_plays_monopoly p r)); auto.
  - intros r1 r2.
    apply (play_card_spec (fun p => log_plays_year_of_plenty p r1 r2)); auto.
  - intros e1 e2.
    apply (play_card_spec
             (fun p => log_plays_road_builder p (location E EDGE e1) (location E EDGE e2)));
      auto.
  - apply (play_card_spec log_plays_victory_point); auto.
Qed.

(** X24: [buy_city] places a city of the current player on the node and,
    when the board accepts it and the log sink returns, installs
    DuringTurnAfterRoll, in pregame too (where [buy_settlement] goes on to
    the road), keeping the current player and the turn counter; when the
    board rejects the placement it raises the board's exception and
    leaves the Game exactly as it was, without logging. *)
Theorem buy_city_postcondition (self : loc) (node : Z) (w : World) (v : View) :
  (forall p l, quiet (log_buys_city p l)) ->
  view (heap w) self = Some v ->
  cur_ok (v_game v) ->
  (forall b',
     Board_place_piece E (v_board v)
       {| ptype := PieceType.city; owner := Some (cur_player_of (v_game v)) |} node
       = Ok b' ->
     exists w' v',
       buy_city E log_buys_city self node w = (Ok tt, w') /\
       view (heap w') self = Some v' /\
       v_state v' = GameStateDuringTurnAfterRoll /\
       locked (v_board v') = true /\
       In ((NODE, node),
           {| ptype := PieceType.city; owner := Some (cur_player_of (v_game v)) |})
          (pieces (v_board v')) /\
       _cur_player (v_game v') = _cur_player (v_game v) /\
       _cur_turn (v_game v') = _cur_turn (v_game v)) /\
  (forall e,
     Board_place_piece E (v_board v)
       {| ptype := PieceType.city; owner := Some (cur_player_of (v_game v)) |} node
       = Err e ->
     buy_city E log_buys_city self node w = (Err e, w)).
Proof.
  intros Hq Hv Hok. split.
  - intros b' Hp.
    destruct (place_piece_spec E self _ node w v b' Hv Hp) as (w1 & Hrun & _ & Hv1).
    pose proof Hv as Hv'. view_inv Hv'.
    unfold buy_city, new_state.
    do 2 mstep.
    erewrite bind_ok by exact Hrun. cbv beta.
    clear - Hv1 Hok Hp Hq. unfold with_v_board in Hv1. view_inv Hv1.
    mstep.
    destruct (Hq (cur_player_of (v_game v)) (location E NODE node) w1) as (t & Ht).
    erewrite bind_ok by exact Ht. cbv beta.
    mstep. erewrite set_state_eq by heap_lookup.
    view_exists. split; [reflexivity|]. split; [view_intro|].
    proj_simpl. repeat split; try reflexivity.
    exact (Board_place_piece_In E _ _ _ _ Hp).
  - intros e Hp. view_inv Hv.
    unfold buy_city, place_piece. do 2 mstep.
    erewrite bind_err; [reflexivity|].
    mstep. erewrite bind_err; [reflexivity|]. unfold lift. now rewrite Hp.
Qed.


End CardProofs.

Lemma play_card_marks_played_witness :
  (exists w' v',
     play_monopoly string Strict.silent2 Sample.self "ore"%string Sample.knight_played = (Ok tt, w') /\
     view (heap w') Sample.self = Some v' /\
     v_dev_card_state v' = DevCardPlayedState /\
     v_state v' = GameStateMoveRobberUsingKnight) /\
  (exists w' v',
     play_victory_point Strict.silent Sample.self Sample.in_turn = (Ok tt, w') /\
     view (heap w') Sample.self = Some v' /\
     v_dev_card_state v' = DevCardPlayedState /\
     v_state v' = GameStateDuringTurnAfterRoll).
Proof.
  split.
  - edestruct (play_card_marks_played Sample.externals string Strict.silent2
                 Strict.silent3 Strict.silent3 Strict.silent Sample.self
                 Sample.knight_played)
      as (H & _).
    + intros p r w. exists []. reflexivity.
    + intros p r1 r2 w. exists []. reflexivity.
    + intros p l1 l2 w. exists []. reflexivity.
    + intros p w. exists []. reflexivity.
    + reflexivity.
    + repeat split; simpl; try lia; reflexivity.
    + destruct (H "ore"%string) as (w' & v' & c & Hrun & Hv' & Hd & Hs & _).
      exists w', v'. split; [exact Hrun|]. split; [exact Hv'|].
      split; [exact Hd | exact Hs].
  - edestruct (play_card_marks_played Sample.externals string Strict.silent2
                 Strict.silent3 Strict.silent3 Strict.silent Sample.self
                 Sample.in_turn)
      as (_ & _ & _ & w' & v' & c & Hrun & Hv' & Hd & Hs & _).
    + intros p r w. exists []. reflexivity.
    + intros p r1 r2 w. exists []. reflexivity.
    + intros p l1 l2 w. exists []. reflexivity.
    + intros p w. exists []. reflexivity.
    + reflexivity.
    + repeat split; simpl; try lia; reflexivity.
    + exists w', v'. split; [exact Hrun|]. split; [exact Hv'|].
      split; [exact Hd | exact Hs].
Defined.

Lemma buy_city_postcondition_witness :
  (exists w' v',
     state_of Sample.settled Sample.self = Some (GameStatePreGamePlacingPiece PieceType.road) /\
     buy_city Strict.externals Strict.silent2 Sample.self 2 Sample.settled = (Ok tt, w') /\
     view (heap w') Sample.self = Some v' /\
     v_state v' = GameStateDuringTurnAfterRoll /\
     pieces (v_board v') =
       [ ((TILE, 1), {| ptype := PieceType.robber; owner := None |});
         ((NODE, 2), {| ptype := PieceType.city;
                        owner := Some (mkPlayer 1 "abdur" "green") |}) ]) /\
  buy_city Strict.externals Strict.silent2 Sample.self (-1) Sample.settled
    = (Err IllegalPlacement, Sample.settled).
Proof.
  edestruct (buy_city_postcondition Strict.externals Strict.silent2 Sample.self 2
               Sample.settled) as (Hok & _).
  { intros p l w. exists []. reflexivity. }
  { reflexivity. }
  { repeat split; simpl; try lia; reflexivity. }
  edestruct (buy_city_postcondition Strict.externals Strict.silent2 Sample.self (-1)
               Sample.settled) as (_ & Herr).
  { intros p l w. exists []. reflexivity. }
  { reflexivity. }
  { repeat split; simpl; try lia; reflexivity. }
  split; [| apply Herr; reflexivity].
  edestruct Hok as (w' & v' & Hrun & Hv' & Hs & _); [reflexivity|].
  exists w', v'. split; [reflexivity|]. split; [exact Hrun|]. split; [exact Hv'|].
  split; [exact Hs|].
  pose proof Hrun as Hrun'. vm_compute in Hrun'. injection Hrun' as <-.
  vm_compute in Hv'. injection Hv' as <-. reflexivity.
Defined.

